(** * Theme generation engine of landing-gen-builder

    A shallow embedding of [src/lib/theme-generator.ts]: the colour
    arithmetic (hex parsing and printing, WCAG luminance and contrast), the
    contrast corrector, the palette harmoniser, the pattern composer, the
    front-page template sequencer and the merge of an externally produced
    theme with the locked colours of a project.

    Numbers.  Channel values are integers ([Z]).  The loop counters of the
    contrast corrector and the channel scalings are IEEE binary64 values
    ([PrimFloat]), computed bit for bit as the engine computes them.
    [Math.round] is exact on every finite number and is modelled on the
    rationals ([Q]).  Luminance and contrast involve [Math.pow] with a
    non-integer exponent and are modelled on the real numbers ([R], with
    [Rpower]).  Where the rounding of the engine's own evaluation matters,
    the values it computes are parameters, within a stated distance of the
    exact ones ([adjustLightnessForContrast_fl]).

    Strings are byte strings, the UTF-8 form of the engine's texts; the
    engine's template texts contain double quotes, written here with a
    backquote and turned into double quotes by [tpl]. *)

From Stdlib Require Import ZArith QArith Qround Reals Lra Lia List String Ascii Bool.
From Stdlib Require Import Floats Uint63.
From Stdlib Require DecimalString HexadecimalString HexadecimalZ.
Import ListNotations.

#[local] Set Warnings "-inexact-float,-register-all".
#[local] Open Scope string_scope.

(** ** JavaScript primitives used by the engine *)

Module JS.

(** [Math.round] on a finite number: the nearest integer, ties towards
    positive infinity. *)
Definition Math_round (x : Q) : Z := Qfloor (x + (1 # 2)).

(** The exact value of a finite binary64 number.  Infinities and NaN do not
    arise from the products the engine forms; they are sent to 0. *)
Definition Q_of_float (f : float) : Q :=
  match Prim2SF f with
  | S754_finite s m e =>
      let v := (inject_Z (Z.pos m) * Qpower 2 e)%Q in
      if s then (- v)%Q else v
  | _ => 0%Q
  end.

(** An integer channel as a binary64 number (exact for |n| < 2^53). *)
Definition float_of_Z (n : Z) : float :=
  if (n <? 0)%Z then PrimFloat.opp (PrimFloat.of_uint63 (Uint63.of_Z (- n)))
  else PrimFloat.of_uint63 (Uint63.of_Z n).

(** [Math.round(x)] for a binary64 [x], as an integer. *)
Definition Math_round_float (f : float) : Z := Math_round (Q_of_float f).

(** [n.toString(16)] for an integer [n]: lowercase digits, no padding, a
    leading minus sign for negative numbers. *)
Definition toString16 (n : Z) : string :=
  HexadecimalString.NilZero.string_of_int (Z.to_hex_int n).

(** The values a [for (let x = init; cond(x); x = step(x))] loop goes
    through. *)
Fixpoint for_values (fuel : nat) (cond : float -> bool) (step : float -> float)
    (x : float) : list float :=
  match fuel with
  | O => []
  | S n => if cond x then x :: for_values n cond step (step x) else []
  end.

(** A loop body that may [return]: the first value returned. *)
Fixpoint first_some {A B : Type} (body : A -> option B) (xs : list A) : option B :=
  match xs with
  | [] => None
  | x :: xs' =>
      match body x with
      | Some r => Some r
      | None => first_some body xs'
      end
  end.

(** [s.includes(t)]. *)
Fixpoint includes (s t : string) : bool :=
  if String.prefix t s then true
  else match s with
       | EmptyString => false
       | String _ s' => includes s' t
       end.

(** [xs.join(sep)] on an array of strings. *)
Fixpoint join (sep : string) (xs : list string) : string :=
  match xs with
  | [] => ""
  | [x] => x
  | x :: xs' => x ++ sep ++ join sep xs'
  end.

(** *** Upper case

    Texts are UTF-8; the engine's strings are UTF-16.  [toUpperCase] follows
    the default case conversion of Unicode (the mappings of UnicodeData and
    the unconditional ones of SpecialCasing, here of Unicode 14); the tables
    below hold every code point up to U+FFFF that it changes. *)

(** The simple case mappings, by runs: every [stride]-th code point from
    [first] to [last] is mapped [shift] places away. *)
Definition upper_runs : list (Z * Z * Z * Z) :=
  [(97, 122, 1, -32); (181, 181, 1, 743); (224, 246, 1, -32); (248, 254, 1, -32);
   (255, 255, 1, 121); (257, 303, 2, -1); (305, 305, 1, -232); (307, 311, 2, -1);
   (314, 328, 2, -1); (331, 375, 2, -1); (378, 382, 2, -1); (383, 383, 1, -300);
   (384, 384, 1, 195); (387, 389, 2, -1); (392, 392, 1, -1); (396, 396, 1, -1);
   (402, 402, 1, -1); (405, 405, 1, 97); (409, 409, 1, -1); (410, 410, 1, 163);
   (414, 414, 1, 130); (417, 421, 2, -1); (424, 424, 1, -1); (429, 429, 1, -1);
   (432, 432, 1, -1); (436, 438, 2, -1); (441, 441, 1, -1); (445, 445, 1, -1);
   (447, 447, 1, 56); (453, 453, 1, -1); (454, 454, 1, -2); (456, 456, 1, -1);
   (457, 457, 1, -2); (459, 459, 1, -1); (460, 460, 1, -2); (462, 476, 2, -1);
   (477, 477, 1, -79); (479, 495, 2, -1); (498, 498, 1, -1); (499, 499, 1, -2);
   (501, 501, 1, -1); (505, 543, 2, -1); (547, 563, 2, -1); (572, 572, 1, -1);
   (575, 576, 1, 10815); (578, 578, 1, -1); (583, 591, 2, -1); (592, 592, 1, 10783);
   (593, 593, 1, 10780); (594, 594, 1, 10782); (595, 595, 1, -210); (596, 596, 1, -206);
   (598, 599, 1, -205); (601, 601, 1, -202); (603, 603, 1, -203); (604, 604, 1, 42319);
   (608, 608, 1, -205); (609, 609, 1, 42315); (611, 611, 1, -207); (613, 613, 1, 42280);
   (614, 614, 1, 42308); (616, 616, 1, -209); (617, 617, 1, -211); (618, 618, 1, 42308);
   (619, 619, 1, 10743); (620, 620, 1, 42305); (623, 623, 1, -211); (625, 625, 1, 10749);
   (626, 626, 1, -213); (629, 629, 1, -214); (637, 637, 1, 10727); (640, 640, 1, -218);
   (642, 642, 1, 42307); (643, 643, 1, -218); (647, 647, 1, 42282); (648, 648, 1, -218);
   (649, 649, 1, -69); (650, 651, 1, -217); (652, 652, 1, -71); (658, 658, 1, -219);
   (669, 669, 1, 42261); (670, 670, 1, 42258); (837, 837, 1, 84); (881, 883, 2, -1);
   (887, 887, 1, -1); (891, 893, 1, 130); (940, 940, 1, -38); (941, 943, 1, -37);
   (945, 961, 1, -32); (962, 962, 1, -31); (963, 971, 1, -32); (972, 972, 1, -64);
   (973, 974, 1, -63); (976, 976, 1, -62); (977, 977, 1, -57); (981, 981, 1, -47);
   (982, 982, 1, -54); (983, 983, 1, -8); (985, 1007, 2, -1); (1008, 1008, 1, -86);
   (1009, 1009, 1, -80); (1010, 1010, 1, 7); (1011, 1011, 1, -116); (1013, 1013, 1, -96);
   (1016, 1016, 1, -1); (1019, 1019, 1, -1); (1072, 1103, 1, -32); (1104, 1119, 1, -80);
   (1121, 1153, 2, -1); (1163, 1215, 2, -1); (1218, 1230, 2, -1); (1231, 1231, 1, -15);
   (1233, 1327, 2, -1); (1377, 1414, 1, -48); (4304, 4346, 1, 3008); (4349, 4351, 1, 3008);
   (5112, 5117, 1, -8); (7296, 7296, 1, -6254); (7297, 7297, 1, -6253); (7298, 7298, 1, -6244);
   (7299, 7300, 1, -6242); (7301, 7301, 1, -6243); (7302, 7302, 1, -6236);
   (7303, 7303, 1, -6181); (7304, 7304, 1, 35266); (7545, 7545, 1, 35332);
   (7549, 7549, 1, 3814); (7566, 7566, 1, 35384); (7681, 7829, 2, -1); (7835, 7835, 1, -59);
   (7841, 7935, 2, -1); (7936, 7943, 1, 8); (7952, 7957, 1, 8); (7968, 7975, 1, 8);
   (7984, 7991, 1, 8); (8000, 8005, 1, 8); (8017, 8023, 2, 8); (8032, 8039, 1, 8);
   (8048, 8049, 1, 74); (8050, 8053, 1, 86); (8054, 8055, 1, 100); (8056, 8057, 1, 128);
   (8058, 8059, 1, 112); (8060, 8061, 1, 126); (8112, 8113, 1, 8); (8126, 8126, 1, -7205);
   (8144, 8145, 1, 8); (8160, 8161, 1, 8); (8165, 8165, 1, 7); (8526, 8526, 1, -28);
   (8560, 8575, 1, -16); (8580, 8580, 1, -1); (9424, 9449, 1, -26); (11312, 11359, 1, -48);
   (11361, 11361, 1, -1); (11365, 11365, 1, -10795); (11366, 11366, 1, -10792);
   (11368, 11372, 2, -1); (11379, 11379, 1, -1); (11382, 11382, 1, -1); (11393, 11491, 2, -1);
   (11500, 11502, 2, -1); (11507, 11507, 1, -1); (11520, 11557, 1, -7264);
   (11559, 11559, 1, -7264); (11565, 11565, 1, -7264); (42561, 42605, 2, -1);
   (42625, 42651, 2, -1); (42787, 42799, 2, -1); (42803, 42863, 2, -1); (42874, 42876, 2, -1);
   (42879, 42887, 2, -1); (42892, 42892, 1, -1); (42897, 42899, 2, -1); (42900, 42900, 1, 48);
   (42903, 42921, 2, -1); (42933, 42947, 2, -1); (42952, 42954, 2, -1); (42961, 42961, 1, -1);
   (42967, 42969, 2, -1); (42998, 42998, 1, -1); (43859, 43859, 1, -928);
   (43888, 43967, 1, -38864); (65345, 65370, 1, -32) ]%Z.

(** The mappings to more than one code point. *)
Definition upper_special : list (Z * list Z) :=
  [(223, [83; 83]); (329, [700; 78]); (496, [74; 780]); (912, [921; 776; 769]);
   (944, [933; 776; 769]); (1415, [1333; 1362]); (7830, [72; 817]); (7831, [84; 776]);
   (7832, [87; 778]); (7833, [89; 778]); (7834, [65; 702]); (8016, [933; 787]);
   (8018, [933; 787; 768]); (8020, [933; 787; 769]); (8022, [933; 787; 834]);
   (8064, [7944; 921]); (8065, [7945; 921]); (8066, [7946; 921]); (8067, [7947; 921]);
   (8068, [7948; 921]); (8069, [7949; 921]); (8070, [7950; 921]); (8071, [7951; 921]);
   (8072, [7944; 921]); (8073, [7945; 921]); (8074, [7946; 921]); (8075, [7947; 921]);
   (8076, [7948; 921]); (8077, [7949; 921]); (8078, [7950; 921]); (8079, [7951; 921]);
   (8080, [7976; 921]); (8081, [7977; 921]); (8082, [7978; 921]); (8083, [7979; 921]);
   (8084, [7980; 921]); (8085, [7981; 921]); (8086, [7982; 921]); (8087, [7983; 921]);
   (8088, [7976; 921]); (8089, [7977; 921]); (8090, [7978; 921]); (8091, [7979; 921]);
   (8092, [7980; 921]); (8093, [7981; 921]); (8094, [7982; 921]); (8095, [7983; 921]);
   (8096, [8040; 921]); (8097, [8041; 921]); (8098, [8042; 921]); (8099, [8043; 921]);
   (8100, [8044; 921]); (8101, [8045; 921]); (8102, [8046; 921]); (8103, [8047; 921]);
   (8104, [8040; 921]); (8105, [8041; 921]); (8106, [8042; 921]); (8107, [8043; 921]);
   (8108, [8044; 921]); (8109, [8045; 921]); (8110, [8046; 921]); (8111, [8047; 921]);
   (8114, [8122; 921]); (8115, [913; 921]); (8116, [902; 921]); (8118, [913; 834]);
   (8119, [913; 834; 921]); (8124, [913; 921]); (8130, [8138; 921]); (8131, [919; 921]);
   (8132, [905; 921]); (8134, [919; 834]); (8135, [919; 834; 921]); (8140, [919; 921]);
   (8146, [921; 776; 768]); (8147, [921; 776; 769]); (8150, [921; 834]);
   (8151, [921; 776; 834]); (8162, [933; 776; 768]); (8163, [933; 776; 769]);
   (8164, [929; 787]); (8166, [933; 834]); (8167, [933; 776; 834]); (8178, [8186; 921]);
   (8179, [937; 921]); (8180, [911; 921]); (8182, [937; 834]); (8183, [937; 834; 921]);
   (8188, [937; 921]); (64256, [70; 70]); (64257, [70; 73]); (64258, [70; 76]);
   (64259, [70; 70; 73]); (64260, [70; 70; 76]); (64261, [83; 84]); (64262, [83; 84]);
   (64275, [1348; 1350]); (64276, [1348; 1333]); (64277, [1348; 1339]); (64278, [1358; 1350]);
   (64279, [1348; 1341]) ]%Z.

(** [c.toUpperCase()] for one code point up to U+FFFF. *)
Definition toUpperCase_code (c : Z) : list Z :=
  match find (fun '(first, last, stride, _) =>
                andb (andb (first <=? c)%Z (c <=? last)%Z) ((c - first) mod stride =? 0)%Z)
             upper_runs with
  | Some (_, _, _, shift) => [(c + shift)%Z]
  | None =>
      match find (fun '(k, _) => (k =? c)%Z) upper_special with
      | Some (_, codes) => codes
      | None => [c]
      end
  end.

Definition byte_code (a : ascii) : Z := Z.of_nat (nat_of_ascii a).
Definition code_byte (n : Z) : ascii := ascii_of_nat (Z.to_nat n).

Definition continuation (a : ascii) : bool :=
  andb (128 <=? byte_code a)%Z (byte_code a <=? 191)%Z.

(** The code point at the head of [s], when it is one of up to three bytes,
    and the text after it. *)
Definition first_code (s : string) : option (Z * string) :=
  match s with
  | EmptyString => None
  | String a r =>
      let a := byte_code a in
      if (a <? 128)%Z then Some (a, r)
      else if andb (194 <=? a)%Z (a <=? 223)%Z then
        match r with
        | String b r' =>
            if continuation b then Some ((a - 192) * 64 + (byte_code b - 128), r')%Z
            else None
        | EmptyString => None
        end
      else if andb (224 <=? a)%Z (a <=? 239)%Z then
        match r with
        | String b (String c r') =>
            let code := ((a - 224) * 4096 + (byte_code b - 128) * 64 + (byte_code c - 128))%Z in
            if andb (andb (continuation b) (continuation c)) (2048 <=? code)%Z
            then Some (code, r')
            else None
        | _ => None
        end
      else None
  end.

(** The bytes of a code point up to U+FFFF. *)
Definition utf8 (c : Z) : string :=
  if (c <? 128)%Z then String (code_byte c) EmptyString
  else if (c <? 2048)%Z then
    String (code_byte (192 + c / 64)) (String (code_byte (128 + c mod 64)) EmptyString)
  else
    String (code_byte (224 + c / 4096))
      (String (code_byte (128 + (c / 64) mod 64))
         (String (code_byte (128 + c mod 64)) EmptyString)).

(** [s.charAt(0).toUpperCase() + s.slice(1)].  [charAt(0)] is the first
    UTF-16 unit: the first character when its code point is at most U+FFFF,
    else half of a surrogate pair, which [toUpperCase] leaves as it is, so
    that the text comes back unchanged. *)
Definition capitalize (s : string) : string :=
  match first_code s with
  | Some (c, rest) => String.concat "" (map utf8 (toUpperCase_code c)) ++ rest
  | None => s
  end.

(** [s || d] on an optional string: the empty string is falsy. *)
Definition str_or (s : option string) (d : string) : string :=
  match s with
  | Some v => if String.eqb v "" then d else v
  | None => d
  end.

(** [xs || d] on an optional array: every array, the empty one too, is
    truthy. *)
Definition arr_or {A : Type} (xs : option (list A)) (d : list A) : list A :=
  match xs with
  | Some v => v
  | None => d
  end.

End JS.

(** ** Colour arithmetic *)

Definition hex_digit (c : ascii) : option Z :=
  let n := Z.of_nat (nat_of_ascii c) in
  if andb (48 <=? n)%Z (n <=? 57)%Z then Some (n - 48)%Z
  else if andb (97 <=? n)%Z (n <=? 102)%Z then Some (n - 87)%Z
  else if andb (65 <=? n)%Z (n <=? 70)%Z then Some (n - 55)%Z
  else None.

(** [parseInt(xy, 16)] on a group [([a-f\d]{2})] of the pattern. *)
Definition parse_hex2 (x y : ascii) : option Z :=
  match hex_digit x, hex_digit y with
  | Some a, Some b => Some (16 * a + b)%Z
  | _, _ => None
  end.

Definition six_hex (s : string) : option (Z * Z * Z) :=
  match s with
  | String r1 (String r2 (String g1 (String g2 (String b1 (String b2 EmptyString))))) =>
      match parse_hex2 r1 r2, parse_hex2 g1 g2, parse_hex2 b1 b2 with
      | Some r, Some g, Some b => Some (r, g, b)
      | _, _, _ => None
      end
  | _ => None
  end.

(** The pattern [/^#?([a-f\d]{2})([a-f\d]{2})([a-f\d]{2})$/i]. *)
Definition hexToRgb (hex : string) : option (Z * Z * Z) :=
  match hex with
  | String "#" rest => six_hex rest
  | _ => six_hex hex
  end.

Definition hex_channel (x : Q) : string :=
  let hex := JS.toString16 (JS.Math_round x) in
  if (String.length hex =? 1)%nat then "0" ++ hex else hex.

Definition rgbToHex (r g b : Q) : string :=
  "#" ++ JS.join "" (map hex_channel [r; g; b]).

Definition linearize (c : Z) : R :=
  let c' := (IZR c / 255)%R in
  if Rle_dec c' 0.03928 then (c' / 12.92)%R
  else Rpower ((c' + 0.055) / 1.055) 2.4.

Definition getLuminance (hex : string) : R :=
  match hexToRgb hex with
  | None => 0%R
  | Some (r, g, b) =>
      (0.2126 * linearize r + 0.7152 * linearize g + 0.0722 * linearize b)%R
  end.

Definition getContrastRatio (color1 color2 : string) : R :=
  let lum1 := getLuminance color1 in
  let lum2 := getLuminance color2 in
  let brightest := Rmax lum1 lum2 in
  let darkest := Rmin lum1 lum2 in
  ((brightest + 0.05) / (darkest + 0.05))%R.

Definition Rgeb (x y : R) : bool := if Rge_dec x y then true else false.
Definition Rgtb (x y : R) : bool := if Rgt_dec x y then true else false.

(** ** Contrast corrector *)

(** [Math.round(c * factor)]. *)
Definition scale (c : Z) (factor : float) : Z :=
  JS.Math_round_float (PrimFloat.mul (JS.float_of_Z c) factor).

(** The values of [factor] in [for (let factor = 0.9; factor > 0.1; factor -= 0.1)]. *)
Definition darker_factors : list float :=
  JS.for_values 16 (fun f => PrimFloat.ltb 0.1 f) (fun f => PrimFloat.sub f 0.1) 0.9%float.

(** The values of [factor] in [for (let factor = 1.1; factor < 3; factor += 0.1)]. *)
Definition lighter_factors : list float :=
  JS.for_values 32 (fun f => PrimFloat.ltb f 3) (fun f => PrimFloat.add f 0.1) 1.1%float.

Definition darker_color (r g b : Z) (factor : float) : string :=
  let newR := scale r factor in
  let newG := scale g factor in
  let newB := scale b factor in
  rgbToHex (inject_Z newR) (inject_Z newG) (inject_Z newB).

Definition lighter_color (r g b : Z) (factor : float) : string :=
  let newR := Z.min 255 (scale r factor) in
  let newG := Z.min 255 (scale g factor) in
  let newB := Z.min 255 (scale b factor) in
  rgbToHex (inject_Z newR) (inject_Z newG) (inject_Z newB).

Definition adjustLightnessForContrast (color background : string) (targetRatio : R) : string :=
  let currentRatio := getContrastRatio color background in
  if Rgeb currentRatio targetRatio then color
  else
    match hexToRgb color with
    | None => color
    | Some (r, g, b) =>
        let bgLuminance := getLuminance background in
        let meets newColor :=
          if Rgeb (getContrastRatio newColor background) targetRatio
          then Some newColor else None in
        match JS.first_some (fun factor => meets (darker_color r g b factor)) darker_factors with
        | Some newColor => newColor
        | None =>
            match JS.first_some (fun factor => meets (lighter_color r g b factor)) lighter_factors with
            | Some newColor => newColor
            | None => if Rgtb bgLuminance 0.5 then "#000000" else "#ffffff"
            end
        end
    end.

(** *** The corrector as the engine evaluates it

    The engine computes luminance and contrast ratio in binary64, with a
    [Math.pow] that is not exactly rounded, and the tests of the corrector
    compare the values it obtains.  In [adjustLightnessForContrast_fl] these
    values are parameters: [getLuminance_fl hex] and
    [getContrastRatio_fl color1 color2] stand for the numbers the engine
    computes.  [adjustLightnessForContrast] above is the corrector under
    exact evaluation. *)
Section Evaluated.

Variable getLuminance_fl : string -> R.
Variable getContrastRatio_fl : string -> string -> R.

Definition adjustLightnessForContrast_fl (color background : string) (targetRatio : R) : string :=
  let currentRatio := getContrastRatio_fl color background in
  if Rgeb currentRatio targetRatio then color
  else
    match hexToRgb color with
    | None => color
    | Some (r, g, b) =>
        let bgLuminance := getLuminance_fl background in
        let meets newColor :=
          if Rgeb (getContrastRatio_fl newColor background) targetRatio
          then Some newColor else None in
        match JS.first_some (fun factor => meets (darker_color r g b factor)) darker_factors with
        | Some newColor => newColor
        | None =>
            match JS.first_some (fun factor => meets (lighter_color r g b factor)) lighter_factors with
            | Some newColor => newColor
            | None => if Rgtb bgLuminance 0.5 then "#000000" else "#ffffff"
            end
        end
    end.

End Evaluated.

(** ** Data model *)

Inductive Source := user | logo_ai | manual.

Record ColorToken := {
  slug : string;
  color : string;
  locked : bool;          (* [locked?: boolean]: absent reads as false *)
  source : option Source
}.

(** [{ ...token, color: c }]. *)
Definition with_color (token : ColorToken) (c : string) : ColorToken :=
  {| slug := slug token; color := c; locked := locked token; source := source token |}.

Record FontConfig := {
  family : string;
  weights : list Z;
  fallback : string
}.

Record Brand := {
  primary : option string;
  palette : option (list ColorToken);
  headingFont : option FontConfig;
  bodyFont : option FontConfig
}.

Record Assets := { heroPath : option string }.

Record Benefit := { title : string; description : string }.

Record Contact := { phone : option string; address : option string }.

Record Content := {
  headline : option string;
  benefits : option (list Benefit);
  cta : option string;
  contact : option Contact
}.

Record Layout := { sections : option (list string) }.

(** The fields of [Project] the generator reads ([sector], [locale] and
    [styleTags] only feed the prompt of the external service). *)
Record Project := {
  name : string;
  brand : option Brand;
  assets : option Assets;
  content : option Content;
  layout : option Layout
}.

(** [a?.f] on optional records. *)
Definition opt {A B : Type} (a : option A) (f : A -> option B) : option B :=
  match a with
  | Some x => f x
  | None => None
  end.

(** ** Palette harmoniser and contrast enforcement *)

(** [Math.round(c * 0.9 + p * 0.1)]. *)
Definition blend (c p : Z) : Z :=
  JS.Math_round_float
    (PrimFloat.add (PrimFloat.mul (JS.float_of_Z c) 0.9) (PrimFloat.mul (JS.float_of_Z p) 0.1)).

Definition harmonizeToken (primaryColor : string) (token : ColorToken) : ColorToken :=
  if locked token then token
  else if String.eqb (slug token) "primary" then with_color token primaryColor
  else
    match hexToRgb (color token) with
    | None => token
    | Some (r, g, b) =>
        match hexToRgb primaryColor with
        | None => token
        | Some (pr, pg, pb) =>
            let newR := blend r pr in
            let newG := blend g pg in
            let newB := blend b pb in
            with_color token (rgbToHex (inject_Z newR) (inject_Z newG) (inject_Z newB))
        end
    end.

Definition harmonizeColors (palette : list ColorToken) (primaryColor : string) : list ColorToken :=
  map (harmonizeToken primaryColor) palette.

(** [palette.find(p => p.slug === s)?.color]. *)
Definition color_of_slug (s : string) (palette : list ColorToken) : option string :=
  option_map color (find (fun p => String.eqb (slug p) s) palette).

Definition fixToken (background : string) (token : ColorToken) : ColorToken :=
  if locked token then token
  else if orb (String.eqb (slug token) "text") (JS.includes (slug token) "text") then
    let adjustedColor := adjustLightnessForContrast (color token) background 4.5 in
    with_color token adjustedColor
  else token.

Definition validateAndFixContrasts (palette : list ColorToken) : list ColorToken :=
  let background := JS.str_or (color_of_slug "background" palette) "#ffffff" in
  map (fixToken background) palette.

(** ** JSON values *)

(** What [JSON.parse] produces, and what the generated theme holds.  An object
    is its list of properties in insertion order. *)
Inductive json :=
| JNull
| JBool (b : bool)
| JNum (n : Q)
| JStr (s : string)
| JArr (items : list json)
| JObj (props : list (string * json)).

(** Truthiness, as [||] and [&&] read a value. *)
Definition truthy (v : json) : bool :=
  match v with
  | JNull => false
  | JBool b => b
  | JNum n => negb (Qeq_bool n 0)
  | JStr s => negb (String.eqb s "")
  | JArr _ => true
  | JObj _ => true
  end.

Fixpoint prop_get (k : string) (props : list (string * json)) : option json :=
  match props with
  | [] => None
  | (k', v) :: rest => if String.eqb k' k then Some v else prop_get k rest
  end.

(** [o[k] = v] on the properties of an object: an existing property keeps its
    place, a new one goes last. *)
Fixpoint prop_set (k : string) (v : json) (props : list (string * json)) : list (string * json) :=
  match props with
  | [] => [(k, v)]
  | (k', v') :: rest =>
      if String.eqb k' k then (k', v) :: rest else (k', v') :: prop_set k v rest
  end.

(** [v?.k] for one of the property names the engine reads ([theme_json],
    [settings], [color], [palette], [slug], [patterns], [template_front]):
    [None] is [undefined].  Only objects carry such a property. *)
Definition get (v : option json) (k : string) : option json :=
  match v with
  | Some (JObj props) => prop_get k props
  | _ => None
  end.

(** [v.k = x], where [v] is an object. *)
Definition set (v : json) (k : string) (x : json) : json :=
  match v with
  | JObj props => JObj (prop_set k x props)
  | _ => v
  end.

(** [v || d], where [undefined] is falsy. *)
Definition json_or (v : option json) (d : json) : json :=
  match v with
  | Some x => if truthy x then x else d
  | None => d
  end.

Record BlockPattern := { p_slug : string; p_title : string; html : string }.

Record GeneratedTheme := {
  themeJson : json;
  patterns : json;
  templateFront : json
}.

(** ** Pattern composer *)

Definition dquote : ascii := ascii_of_nat 34.
Definition bquote : ascii := ascii_of_nat 96.

(** The template texts are written with backquotes where the engine's texts
    have double quotes. *)
Fixpoint tpl (s : string) : string :=
  match s with
  | EmptyString => EmptyString
  | String c s' => String (if Ascii.eqb c bquote then dquote else c) (tpl s')
  end.

Definition header_html : string :=
  tpl "<!-- wp:group {`layout`:{`type`:`flex`,`justifyContent`:`space-between`,`flexWrap`:`wrap`}} -->
<div class=`wp-block-group`>
  <!-- wp:site-logo {`width`:120} /-->
  <!-- wp:navigation {`overlayMenu`:`mobile`} /-->
</div>
<!-- /wp:group -->".

Definition hero_image_html (heroImage : string) : string :=
  tpl "<img class=`wp-block-cover__image-background` alt=`` src=`"
  ++ heroImage
  ++ tpl "` data-object-fit=`cover`/>".

Definition hero_html (heroImage primaryColor headline cta : string) : string :=
  tpl "<!-- wp:cover {`url`:`"
  ++ heroImage
  ++ tpl "`,`dimRatio`:30,`customOverlayColor`:`"
  ++ primaryColor
  ++ tpl "`,`minHeight`:600,`contentPosition`:`center center`,`isDark`:false} -->
<div class=`wp-block-cover is-light` style=`min-height:600px`>
  <span aria-hidden=`true` class=`wp-block-cover__background has-background-dim-30` style=`background-color:"
  ++ primaryColor
  ++ tpl "`></span>
  "
  ++ (if String.eqb heroImage "" then "" else hero_image_html heroImage)
  ++ tpl "
  <div class=`wp-block-cover__inner-container`>
    <!-- wp:heading {`textAlign`:`center`,`level`:1,`fontSize`:`xx-large`} -->
    <h1 class=`has-text-align-center has-xx-large-font-size`>"
  ++ headline
  ++ tpl "</h1>
    <!-- /wp:heading -->
    
    <!-- wp:paragraph {`align`:`center`,`fontSize`:`large`} -->
    <p class=`has-text-align-center has-large-font-size`>Transform your business with our innovative solutions</p>
    <!-- /wp:paragraph -->
    
    <!-- wp:buttons {`layout`:{`type`:`flex`,`justifyContent`:`center`}} -->
    <div class=`wp-block-buttons`>
      <!-- wp:button {`backgroundColor`:`primary`,`textColor`:`white`,`fontSize`:`medium`} -->
      <div class=`wp-block-button has-medium-font-size`>
        <a class=`wp-block-button__link has-white-color has-primary-background-color has-text-color has-background`>"
  ++ cta
  ++ tpl "</a>
      </div>
      <!-- /wp:button -->
    </div>
    <!-- /wp:buttons -->
  </div>
</div>
<!-- /wp:cover -->".

Definition benefit_column_html (benefit : Benefit) : string :=
  tpl "
    <!-- wp:column -->
    <div class=`wp-block-column`>
      <!-- wp:heading {`textAlign`:`center`,`level`:3} -->
      <h3 class=`has-text-align-center`>"
  ++ title benefit
  ++ tpl "</h3>
      <!-- /wp:heading -->
      
      <!-- wp:paragraph {`align`:`center`} -->
      <p class=`has-text-align-center`>"
  ++ description benefit
  ++ tpl "</p>
      <!-- /wp:paragraph -->
    </div>
    <!-- /wp:column -->
    ".

Definition benefits_html (benefits : list Benefit) : string :=
  tpl "<!-- wp:group {`style`:{`spacing`:{`padding`:{`top`:`80px`,`bottom`:`80px`}}},`layout`:{`type`:`constrained`}} -->
<div class=`wp-block-group` style=`padding-top:80px;padding-bottom:80px`>
  <!-- wp:heading {`textAlign`:`center`,`fontSize`:`x-large`} -->
  <h2 class=`has-text-align-center has-x-large-font-size`>Why Choose Us</h2>
  <!-- /wp:heading -->
  
  <!-- wp:columns {`style`:{`spacing`:{`margin`:{`top`:`40px`}}}} -->
  <div class=`wp-block-columns` style=`margin-top:40px`>
    "
  ++ JS.join "" (map benefit_column_html (firstn 3 benefits))
  ++ tpl "
  </div>
  <!-- /wp:columns -->
</div>
<!-- /wp:group -->".

Definition about_html : string :=
  tpl "<!-- wp:group {`style`:{`spacing`:{`padding`:{`top`:`80px`,`bottom`:`80px`}}},`backgroundColor`:`secondary`,`layout`:{`type`:`constrained`}} -->
<div class=`wp-block-group has-secondary-background-color has-background` style=`padding-top:80px;padding-bottom:80px`>
  <!-- wp:columns -->
  <div class=`wp-block-columns`>
    <!-- wp:column -->
    <div class=`wp-block-column`>
      <!-- wp:heading {`fontSize`:`x-large`} -->
      <h2 class=`has-x-large-font-size`>About Our Company</h2>
      <!-- /wp:heading -->
      
      <!-- wp:paragraph -->
      <p>We are dedicated to providing exceptional service and innovative solutions that help our clients achieve their goals. Our team of experts brings years of experience and a passion for excellence to every project.</p>
      <!-- /wp:paragraph -->
      
      <!-- wp:paragraph -->
      <p>Founded with the vision of making quality services accessible to businesses of all sizes, we continue to grow and evolve with the changing needs of our clients.</p>
      <!-- /wp:paragraph -->
    </div>
    <!-- /wp:column -->
    
    <!-- wp:column -->
    <div class=`wp-block-column`>
      <!-- wp:image {`sizeSlug`:`large`} -->
      <figure class=`wp-block-image size-large`>
        <img src=`https://images.unsplash.com/photo-1560472354-b33ff0c44a43?w=600&h=400&fit=crop` alt=`Our team`/>
      </figure>
      <!-- /wp:image -->
    </div>
    <!-- /wp:column -->
  </div>
  <!-- /wp:columns -->
</div>
<!-- /wp:group -->".

Definition contact_html (phone address : string) : string :=
  tpl "<!-- wp:group {`style`:{`spacing`:{`padding`:{`top`:`80px`,`bottom`:`80px`}}},`layout`:{`type`:`constrained`}} -->
<div class=`wp-block-group` style=`padding-top:80px;padding-bottom:80px`>
  <!-- wp:heading {`textAlign`:`center`,`fontSize`:`x-large`} -->
  <h2 class=`has-text-align-center has-x-large-font-size`>Get In Touch</h2>
  <!-- /wp:heading -->
  
  <!-- wp:columns {`style`:{`spacing`:{`margin`:{`top`:`40px`}}}} -->
  <div class=`wp-block-columns` style=`margin-top:40px`>
    <!-- wp:column -->
    <div class=`wp-block-column`>
      <!-- wp:paragraph {`align`:`center`} -->
      <p class=`has-text-align-center`><strong>Phone:</strong> "
  ++ phone
  ++ tpl "</p>
      <!-- /wp:paragraph -->
      
      <!-- wp:paragraph {`align`:`center`} -->
      <p class=`has-text-align-center`><strong>Email:</strong> hello@example.com</p>
      <!-- /wp:paragraph -->
      
      <!-- wp:paragraph {`align`:`center`} -->
      <p class=`has-text-align-center`><strong>Address:</strong> "
  ++ address
  ++ tpl "</p>
      <!-- /wp:paragraph -->
    </div>
    <!-- /wp:column -->
    
    <!-- wp:column -->
    <div class=`wp-block-column`>
      <!-- wp:buttons {`layout`:{`type`:`flex`,`justifyContent`:`center`}} -->
      <div class=`wp-block-buttons`>
        <!-- wp:button {`backgroundColor`:`primary`,`textColor`:`white`} -->
        <div class=`wp-block-button`>
          <a class=`wp-block-button__link has-white-color has-primary-background-color has-text-color has-background`>Contact Us Today</a>
        </div>
        <!-- /wp:button -->
      </div>
      <!-- /wp:buttons -->
    </div>
    <!-- /wp:column -->
  </div>
  <!-- /wp:columns -->
</div>
<!-- /wp:group -->".

Definition footer_html (name : string) : string :=
  tpl "<!-- wp:group {`style`:{`spacing`:{`padding`:{`top`:`40px`,`bottom`:`40px`}}},`backgroundColor`:`neutral`,`textColor`:`white`,`layout`:{`type`:`constrained`}} -->
<div class=`wp-block-group has-white-color has-neutral-background-color has-text-color has-background` style=`padding-top:40px;padding-bottom:40px`>
  <!-- wp:paragraph {`align`:`center`} -->
  <p class=`has-text-align-center`>© 2024 "
  ++ name
  ++ tpl ". All rights reserved.</p>
  <!-- /wp:paragraph -->
</div>
<!-- /wp:group -->".

Definition default_benefits : list Benefit :=
  [ {| title := "Fast Performance"; description := "Optimized for speed and conversion" |};
    {| title := "Mobile First"; description := "Responsive design that works everywhere" |};
    {| title := "SEO Ready"; description := "Built with search engines in mind" |} ].

Definition generateBlockPatterns (project : Project) (palette : list ColorToken) : list BlockPattern :=
  let headline := JS.str_or (opt (content project) headline) "Welcome to Our Amazing Service" in
  let cta := JS.str_or (opt (content project) cta) "Get Started Today" in
  let benefits := JS.arr_or (opt (content project) benefits) default_benefits in
  let primaryColor := JS.str_or (color_of_slug "primary" palette) "#3b82f6" in
  let heroImage :=
    match opt (assets project) heroPath with
    | Some p => if String.eqb p "" then "" else "/uploads/" ++ p
    | None => ""
    end in
  [ {| p_slug := "header"; p_title := "Header"; html := header_html |};
    {| p_slug := "hero"; p_title := "Hero Section";
       html := hero_html heroImage primaryColor headline cta |};
    {| p_slug := "benefits"; p_title := "Benefits Section"; html := benefits_html benefits |};
    {| p_slug := "about"; p_title := "About Section"; html := about_html |};
    {| p_slug := "contact"; p_title := "Contact Section";
       html := contact_html
                 (JS.str_or (opt (opt (content project) contact) phone) "+1 (555) 123-4567")
                 (JS.str_or (opt (opt (content project) contact) address)
                            "123 Business Street, City, State 12345") |};
    {| p_slug := "footer"; p_title := "Footer"; html := footer_html (name project) |} ].

(** ** Template sequencer *)

Definition newline : string := String (ascii_of_nat 10) EmptyString.

Fixpoint lookup (k : string) (props : list (string * string)) : option string :=
  match props with
  | [] => None
  | (k', v) :: rest => if String.eqb k' k then Some v else lookup k rest
  end.

Definition sectionMap : list (string * string) :=
  [ ("header", tpl "<!-- wp:template-part {`slug`:`header`,`area`:`header`} /-->");
    ("hero", tpl "<!-- wp:pattern {`slug`:`hero`} /-->");
    ("benefits", tpl "<!-- wp:pattern {`slug`:`benefits`} /-->");
    ("about", tpl "<!-- wp:pattern {`slug`:`about`} /-->");
    ("services", tpl "<!-- wp:pattern {`slug`:`services`} /-->");
    ("contact", tpl "<!-- wp:pattern {`slug`:`contact`} /-->");
    ("footer", tpl "<!-- wp:template-part {`slug`:`footer`,`area`:`footer`} /-->") ].

Definition native_function (f : string) : string :=
  "function " ++ f ++ "() { [native code] }".

(** [sectionMap] is an object literal: a name it does not define is looked up
    in [Object.prototype].  These are the properties found there, each with
    the text [join] turns its value into (a built-in function prints as
    [native_function]; [__proto__] is the prototype object itself). *)
Definition Object_prototype : list (string * string) :=
  [ ("constructor", native_function "Object");
    ("__defineGetter__", native_function "__defineGetter__");
    ("__defineSetter__", native_function "__defineSetter__");
    ("hasOwnProperty", native_function "hasOwnProperty");
    ("__lookupGetter__", native_function "__lookupGetter__");
    ("__lookupSetter__", native_function "__lookupSetter__");
    ("isPrototypeOf", native_function "isPrototypeOf");
    ("propertyIsEnumerable", native_function "propertyIsEnumerable");
    ("toString", native_function "toString");
    ("valueOf", native_function "valueOf");
    ("__proto__", "[object Object]");
    ("toLocaleString", native_function "toLocaleString") ].

(** [sectionMap[section]], as [join] prints it; every value found is truthy. *)
Definition sectionMap_get (section : string) : option string :=
  match lookup section sectionMap with
  | Some v => Some v
  | None => lookup section Object_prototype
  end.

Definition pattern_reference (section : string) : string :=
  tpl "<!-- wp:pattern {`slug`:`" ++ section ++ tpl "`} /-->".

Definition section_reference (section : string) : string :=
  match sectionMap_get section with
  | Some v => v
  | None => pattern_reference section
  end.

Definition generateFrontPageTemplate (sections : list string) : string :=
  JS.join newline (map section_reference sections).

(** ** Deterministic generation *)

Definition palette_entry (token : ColorToken) : json :=
  JObj [ ("slug", JStr (slug token));
         ("name", JStr (JS.capitalize (slug token)));
         ("color", JStr (color token)) ].

Definition font_size (s size n : string) : json :=
  JObj [ ("slug", JStr s); ("size", JStr size); ("name", JStr n) ].

Definition pattern_json (p : BlockPattern) : json :=
  JObj [ ("slug", JStr (p_slug p)); ("title", JStr (p_title p)); ("html", JStr (html p)) ].

Definition default_sections : list string :=
  ["header"; "hero"; "benefits"; "about"; "contact"; "footer"].

Definition buildThemeJson (project : Project) (palette : list ColorToken) : json :=
  JObj
    [ ("version", JNum 2);
      ("settings", JObj
         [ ("appearanceTools", JBool true);
           ("color", JObj [ ("palette", JArr (map palette_entry palette)) ]);
           ("typography", JObj
              [ ("fluid", JBool true);
                ("fontFamilies", JArr
                   [ JObj [ ("slug", JStr "heading");
                            ("name", JStr (JS.str_or
                               (option_map family (opt (brand project) headingFont)) "Inter"));
                            ("fontFamily", JStr (JS.str_or
                               (option_map fallback (opt (brand project) headingFont))
                               "Inter, system-ui, sans-serif")) ];
                     JObj [ ("slug", JStr "body");
                            ("name", JStr (JS.str_or
                               (option_map family (opt (brand project) bodyFont)) "System UI"));
                            ("fontFamily", JStr (JS.str_or
                               (option_map fallback (opt (brand project) bodyFont))
                               "system-ui, -apple-system, sans-serif")) ] ]);
                ("fontSizes", JArr
                   [ font_size "small" "14px" "Small";
                     font_size "medium" "16px" "Medium";
                     font_size "large" "20px" "Large";
                     font_size "x-large" "32px" "Extra Large";
                     font_size "xx-large" "48px" "XX Large" ]) ]);
           ("spacing", JObj
              [ ("units", JArr [JStr "px"; JStr "rem"; JStr "%"; JStr "vh"; JStr "vw"]);
                ("spacingScale", JObj [ ("steps", JNum 7) ]) ]) ]);
      ("styles", JObj
         [ ("color", JObj
              [ ("background", JStr (JS.str_or (color_of_slug "background" palette) "#ffffff"));
                ("text", JStr (JS.str_or (color_of_slug "text" palette) "#1f2937")) ]);
           ("typography", JObj
              [ ("fontFamily", JStr "var(--wp--preset--font-family--body)");
                ("fontSize", JStr "var(--wp--preset--font-size--medium)") ]) ]) ].

(** The palette after harmonisation and contrast enforcement. *)
Definition processPalette (project : Project) : list ColorToken :=
  let palette := JS.arr_or (opt (brand project) palette) [] in
  let primaryColor := JS.str_or (opt (brand project) primary) "#3b82f6" in
  let palette := harmonizeColors palette primaryColor in
  validateAndFixContrasts palette.

(** The section list the front-page template is built from. *)
Definition chosenSections (project : Project) : list string :=
  JS.arr_or (opt (layout project) sections) default_sections.

Definition generateWordPressTheme (project : Project) : GeneratedTheme :=
  let palette := processPalette project in
  let themeJson := buildThemeJson project palette in
  let patterns := generateBlockPatterns project palette in
  let sections := chosenSections project in
  let templateFront := generateFrontPageTemplate sections in
  {| themeJson := themeJson;
     patterns := JArr (map pattern_json patterns);
     templateFront := JStr templateFront |}.

Definition generateDeterministicTheme (project : Project) : GeneratedTheme :=
  generateWordPressTheme project.

(** ** Merge of an externally produced theme *)

(** How a call ends: with a value, or with an exception. *)
Inductive completion (A : Type) :=
| Normal (a : A)
| Throw.
Arguments Normal {A} a.
Arguments Throw {A}.

Definition bind {A B : Type} (c : completion A) (k : A -> completion B) : completion B :=
  match c with
  | Normal a => k a
  | Throw => Throw
  end.

Notation "x <- c ;; k" := (bind c (fun x => k))
  (at level 61, c at next level, right associativity).

(** The callback [p => p.slug === s]: reading [slug] off [null] throws. *)
Definition slug_equals (s : string) (p : json) : completion bool :=
  match p with
  | JNull => Throw
  | _ =>
      match get (Some p) "slug" with
      | Some (JStr s') => Normal (String.eqb s' s)
      | _ => Normal false
      end
  end.

(** [aiPalette.findIndex(p => p.slug === s)]: the elements are read in order
    up to the first match. *)
Fixpoint findIndex_slug (s : string) (items : list json) : completion (option nat) :=
  match items with
  | [] => Normal None
  | p :: rest =>
      found <- slug_equals s p ;;
      if found then Normal (Some O)
      else i <- findIndex_slug s rest ;; Normal (option_map S i)
  end.

(** [items[i].color = c]. *)
Fixpoint set_color_at (i : nat) (c : string) (items : list json) : list json :=
  match items, i with
  | [], _ => []
  | p :: rest, O => set p "color" (JStr c) :: rest
  | p :: rest, S i' => p :: set_color_at i' c rest
  end.

(** The body of [lockedColors.forEach]. *)
Definition enforce_locked (aiPalette : list json) (locked : ColorToken) : completion (list json) :=
  existingIndex <- findIndex_slug (slug locked) aiPalette ;;
  match existingIndex with
  | Some i => Normal (set_color_at i (color locked) aiPalette)
  | None => Normal aiPalette
  end.

Fixpoint forEach_locked (lockedColors : list ColorToken) (aiPalette : list json) : completion (list json) :=
  match lockedColors with
  | [] => Normal aiPalette
  | locked :: rest =>
      aiPalette' <- enforce_locked aiPalette locked ;;
      forEach_locked rest aiPalette'
  end.

(** [aiTheme.theme_json?.settings?.color?.palette]. *)
Definition candidate_palette (aiTheme : json) : option json :=
  get (get (get (get (Some aiTheme) "theme_json") "settings") "color") "palette".

(** The theme object once its palette array holds [items]. *)
Definition with_palette (aiTheme : json) (items : list json) : json :=
  match get (Some aiTheme) "theme_json" with
  | Some tj =>
      match get (Some tj) "settings" with
      | Some st =>
          match get (Some st) "color" with
          | Some col =>
              set aiTheme "theme_json"
                (set tj "settings" (set st "color" (set col "palette" (JArr items))))
          | None => aiTheme
          end
      | None => aiTheme
      end
  | None => aiTheme
  end.

Definition lockedColorsOf (project : Project) : list ColorToken :=
  match opt (brand project) palette with
  | Some p => filter locked p
  | None => []
  end.

Definition mergeWithLockedColors (aiTheme : json) (project : Project) : completion GeneratedTheme :=
  let lockedColors := lockedColorsOf project in
  match aiTheme with
  | JNull => Throw
  | _ =>
      aiTheme' <-
        match candidate_palette aiTheme with
        | Some aiPalette =>
            if andb (truthy aiPalette) (0 <? List.length lockedColors)%nat then
              match aiPalette with
              | JArr items =>
                  items' <- forEach_locked lockedColors items ;;
                  Normal (with_palette aiTheme items')
              | _ => Throw
              end
            else Normal aiTheme
        | None => Normal aiTheme
        end ;;
      Normal {| themeJson := json_or (get (Some aiTheme') "theme_json") (JObj []);
                patterns := json_or (get (Some aiTheme') "patterns") (JArr []);
                templateFront := json_or (get (Some aiTheme') "template_front") (JStr "") |}
  end.

(** The match of [/\{[\s\S]*\}/]: from the first opening brace to the last
    closing brace after it. *)
Fixpoint from_first_open (s : string) : option string :=
  match s with
  | EmptyString => None
  | String c s' => if Ascii.eqb c "{" then Some s else from_first_open s'
  end.

Fixpoint upto_last_close (s : string) : option string :=
  match s with
  | EmptyString => None
  | String c s' =>
      match upto_last_close s' with
      | Some t => Some (String c t)
      | None => if Ascii.eqb c "}" then Some (String c EmptyString) else None
      end
  end.

Definition jsonMatch (response : string) : option string :=
  match from_first_open response with
  | Some s => upto_last_close s
  | None => None
  end.

Section Override.

(** [JSON.parse]; [None] is its [SyntaxError]. *)
Variable JSON_parse : string -> option json.

Definition parseAIResponse (response : string) (project : Project) : GeneratedTheme :=
  match jsonMatch response with
  | None => generateDeterministicTheme project
  | Some text =>
      match JSON_parse text with
      | None => generateDeterministicTheme project
      | Some parsed =>
          match mergeWithLockedColors parsed project with
          | Normal mergedTheme => mergedTheme
          | Throw => generateDeterministicTheme project
          end
      end
  end.

End Override.

(** ** Definitions used in the statements *)

(** The third pattern the composer emits. *)
Definition benefits_pattern (project : Project) (palette : list ColorToken) : option BlockPattern :=
  nth_error (generateBlockPatterns project palette) 2.

(** A project as the application creates it: no benefits and no sections
    yet, both present as empty lists. *)
Definition project_fresh : Project :=
  {| name := "Acme";
     brand := None;
     assets := None;
     content := Some {| headline := None; benefits := Some []; cta := None; contact := None |};
     layout := Some {| sections := Some [] |} |}.

(** The reference the specification gives each section name. *)
Definition spec_reference (section : string) : string :=
  if orb (String.eqb section "header") (String.eqb section "footer") then
    tpl "<!-- wp:template-part {`slug`:`" ++ section ++ tpl "`,`area`:`" ++ section ++ tpl "`} /-->"
  else pattern_reference section.

(** The sixth pattern the composer emits. *)
Definition footer_pattern (project : Project) (palette : list ColorToken) : option BlockPattern :=
  nth_error (generateBlockPatterns project palette) 5.

(** The decimal text of a year. *)
Definition year_text (y : Z) : string :=
  DecimalString.NilZero.string_of_int (Z.to_int y).

(** The contract of the external service, in the specification's words: an
    object with the properties [theme_json], [patterns] and [template_front]. *)
Definition has_contract_shape (v : json) : bool :=
  match get (Some v) "theme_json", get (Some v) "patterns", get (Some v) "template_front" with
  | Some (JObj _), Some (JArr _), Some (JStr _) => true
  | _, _, _ => false
  end.

(** The theme made of the three defaults of the merge. *)
Definition empty_theme : GeneratedTheme :=
  {| themeJson := JObj []; patterns := JArr []; templateFront := JStr "" |}.

(** [JSON.parse] restricted to the text [{}]. *)
Definition JSON_parse_braces (text : string) : option json :=
  if String.eqb text "{}" then Some (JObj []) else None.

(** [p.slug] of a palette element. *)
Definition slug_of (p : json) : option json := get (Some p) "slug".

(** The palette of a generated theme: [themeJson.settings.color.palette]. *)
Definition theme_palette (theme : GeneratedTheme) : option json :=
  get (get (get (Some (themeJson theme)) "settings") "color") "palette".

(** Two palettes with the same elements up to properties other than [slug]. *)
Definition same_slugs (items items' : list json) : Prop :=
  Forall2 (fun p p' => (p = JNull <-> p' = JNull) /\ slug_of p = slug_of p') items items'.

(** What the merge returns for a theme object it did not touch. *)
Definition unmerged (aiTheme : json) : GeneratedTheme :=
  {| themeJson := json_or (get (Some aiTheme) "theme_json") (JObj []);
     patterns := json_or (get (Some aiTheme) "patterns") (JArr []);
     templateFront := json_or (get (Some aiTheme) "template_front") (JStr "") |}.

(** A project with two locked colours, and a candidate theme that gives
    [primary] another colour, has an extra slug and lacks [ink]. *)
Definition palette_demo : list ColorToken :=
  [ {| slug := "primary"; color := "#ff0000"; locked := true; source := Some user |};
    {| slug := "ink"; color := "#101010"; locked := true; source := None |};
    {| slug := "text"; color := "#333333"; locked := false; source := None |} ].

Definition brand_demo : Brand :=
  {| primary := Some "#ff0000"; palette := Some palette_demo;
     headingFont := None; bodyFont := None |}.

Definition project_demo : Project :=
  {| name := "Acme"; brand := Some brand_demo; assets := None; content := None; layout := None |}.

Definition candidate_demo : list json :=
  [ JObj [("slug", JStr "accent"); ("color", JStr "#123456")];
    JObj [("slug", JStr "primary"); ("name", JStr "Primary"); ("color", JStr "#00ff00")] ].

Definition aiTheme_demo : json :=
  JObj [ ("theme_json",
          JObj [ ("version", JNum 2);
                 ("settings", JObj [ ("color", JObj [ ("palette", JArr candidate_demo) ]) ]) ]);
         ("patterns", JArr []);
         ("template_front", JStr "") ].



(** A candidate theme that has a palette and neither [patterns] nor
    [template_front]. *)
Definition aiTheme_partial : json :=
  JObj [ ("theme_json",
          JObj [ ("settings", JObj [ ("color", JObj [ ("palette", JArr candidate_demo) ]) ]) ]) ].

Definition theme_demo : GeneratedTheme :=
  match mergeWithLockedColors aiTheme_demo project_demo with
  | Normal theme => theme
  | Throw => empty_theme
  end.

(** The specification's [rgbToHex]: each channel rounded, clamped to
    [0, 255] and printed as two lowercase hexadecimal digits. *)
Definition hex_char (d : Z) : ascii :=
  if (d <? 10)%Z then ascii_of_nat (Z.to_nat (48 + d)) else ascii_of_nat (Z.to_nat (87 + d)).

Definition two_hex (n : Z) : string :=
  String (hex_char (n / 16)) (String (hex_char (n mod 16)) EmptyString).

Definition clamp255 (n : Z) : Z := Z.max 0 (Z.min 255 n).

Definition spec_rgbToHex (r g b : Q) : string :=
  "#" ++ two_hex (clamp255 (JS.Math_round r))
      ++ two_hex (clamp255 (JS.Math_round g))
      ++ two_hex (clamp255 (JS.Math_round b)).

(** The channel values 0 .. 255. *)
Definition byte_values : list Z := map Z.of_nat (seq 0 256).

(** ** Further definitions used in the statements *)

(** [c.toLowerCase()] on an ASCII character. *)
Definition lower (c : ascii) : ascii :=
  let n := nat_of_ascii c in
  if andb (65 <=? n)%nat (n <=? 90)%nat then ascii_of_nat (n + 32) else c.

Fixpoint lowercase (s : string) : string :=
  match s with
  | EmptyString => EmptyString
  | String c s' => String (lower c) (lowercase s')
  end.

(** A colour in the form [rgbToHex] prints: a leading [#], lowercase digits. *)
Definition canonical_hex (hex : string) : string :=
  match hex with
  | String "#" rest => "#" ++ lowercase rest
  | _ => "#" ++ lowercase hex
  end.

(** The reference colour of [validateAndFixContrasts]. *)
Definition background_of (palette : list ColorToken) : string :=
  JS.str_or (color_of_slug "background" palette) "#ffffff".

(** [token.slug === 'text' || token.slug.includes('text')]. *)
Definition is_text_slug (s : string) : bool :=
  orb (String.eqb s "text") (JS.includes s "text").

(** A theme object whose candidate palette holds a [null] element. *)
Definition aiTheme_null_entry : json :=
  JObj [ ("theme_json",
          JObj [ ("settings", JObj [ ("color", JObj [ ("palette", JArr [JNull]) ]) ]) ]) ].

(** The colour the locked-colour pass assigns last to position [j] of a
    candidate palette, if it assigns one at all. *)
Definition assigned_color (items : list json) (locks : list ColorToken) (j : nat)
    (start : option string) : option string :=
  fold_left
    (fun acc t =>
       match findIndex_slug (slug t) items with
       | Normal (Some i) => if Nat.eqb i j then Some (color t) else acc
       | _ => acc
       end)
    locks start.

(** An element with the colour [c], or as it is when there is none. *)
Definition recolored (c : option string) (p : json) : json :=
  match c with
  | Some c' => set p "color" (JStr c')
  | None => p
  end.

(** [s] holds no character [c]. *)
Fixpoint lacks (c : ascii) (s : string) : bool :=
  match s with
  | EmptyString => true
  | String x s' => andb (negb (Ascii.eqb x c)) (lacks c s')
  end.

(** ** The entry point with the external service *)

(** What the request to the external service comes to. *)
Inductive ServiceReply :=
| RequestFailed                 (* [fetch] rejects *)
| ResponseNotOk                 (* [response.ok] is false *)
| BodyUnreadable                (* [response.json()] rejects *)
| ResponseBody (data : json).

(** [v[0]]: reading an index off [undefined] or [null] throws. *)
Definition index0 (v : option json) : completion (option json) :=
  match v with
  | None => Throw
  | Some JNull => Throw
  | Some (JArr items) => Normal (nth_error items 0)
  | Some (JObj props) => Normal (prop_get "0" props)
  | Some (JStr s) =>
      Normal (match s with
              | EmptyString => None
              | String c _ => Some (JStr (String c EmptyString))
              end)
  | Some _ => Normal None
  end.

(** [data.choices[0]?.message?.content]. *)
Definition aiContent (data : json) : completion (option json) :=
  match data with
  | JNull => Throw
  | _ =>
      first <- index0 (get (Some data) "choices") ;;
      Normal (get (get first "message") "content")
  end.

Section Service.

Variable JSON_parse : string -> option json.

(** [enabled] is [config.ai.enabled]; [reply] is what the request comes to.
    Every exception on the way is caught and answered with the
    deterministic theme; a content that is no string has no [match] method,
    which [parseAIResponse] catches likewise. *)
Definition generateWithAI (enabled : bool) (reply : ServiceReply) (project : Project)
    : GeneratedTheme :=
  if negb enabled then generateDeterministicTheme project
  else
    match reply with
    | ResponseBody data =>
        match aiContent data with
        | Normal (Some aiResponse) =>
            if truthy aiResponse then
              match aiResponse with
              | JStr response => parseAIResponse JSON_parse response project
              | _ => generateDeterministicTheme project
              end
            else generateDeterministicTheme project
        | _ => generateDeterministicTheme project
        end
    | _ => generateDeterministicTheme project
    end.

End Service.

(** A reply of the shape the service documents, with [content] as its text. *)
Definition reply_with (content : string) : ServiceReply :=
  ResponseBody
    (JObj [ ("choices",
             JArr [ JObj [ ("message",
                            JObj [ ("role", JStr "assistant");
                                   ("content", JStr content) ]) ] ]) ]).

(** ** Preview of a generated theme *)

(** The preview is built by the route that calls [generateWithAI], from the
    theme it returns.  Strings are UTF-8 texts. *)

(** White space and line terminators, the characters [trim] removes, by
    their bytes: one byte (tab to carriage return, space), two (U+00A0) or
    three (U+1680, U+2000 to U+200A, U+2028, U+2029, U+202F, U+205F, U+3000,
    U+FEFF). *)
Definition space1 (a : nat) : bool :=
  (((9 <=? a) && (a <=? 13)) || (a =? 32))%nat.

Definition space2 (a b : nat) : bool :=
  ((a =? 194) && (b =? 160))%nat.

Definition space3 (a b c : nat) : bool :=
  (((a =? 225) && (b =? 154) && (c =? 128))
   || ((a =? 226) && (b =? 128) && ((128 <=? c) && (c <=? 138)))
   || ((a =? 226) && (b =? 128) && ((c =? 168) || (c =? 169) || (c =? 175)))
   || ((a =? 226) && (b =? 129) && (c =? 159))
   || ((a =? 227) && (b =? 128) && (c =? 128))
   || ((a =? 239) && (b =? 187) && (c =? 191)))%nat.

(** [s] holds white space and line terminators only. *)
Fixpoint blank (s : string) : bool :=
  match s with
  | EmptyString => true
  | String a r =>
      if space1 (nat_of_ascii a) then blank r
      else
        match r with
        | EmptyString => false
        | String b r' =>
            if space2 (nat_of_ascii a) (nat_of_ascii b) then blank r'
            else
              match r' with
              | EmptyString => false
              | String c r'' =>
                  if space3 (nat_of_ascii a) (nat_of_ascii b) (nat_of_ascii c)
                  then blank r''
                  else false
              end
        end
  end.

Fixpoint trimStart (s : string) : string :=
  match s with
  | EmptyString => s
  | String a r =>
      if space1 (nat_of_ascii a) then trimStart r
      else
        match r with
        | EmptyString => s
        | String b r' =>
            if space2 (nat_of_ascii a) (nat_of_ascii b) then trimStart r'
            else
              match r' with
              | EmptyString => s
              | String c r'' =>
                  if space3 (nat_of_ascii a) (nat_of_ascii b) (nat_of_ascii c)
                  then trimStart r''
                  else s
              end
        end
  end.

(** The text up to the place from which only white space follows. *)
Fixpoint trimEnd (s : string) : string :=
  if blank s then ""
  else match s with
       | EmptyString => ""
       | String c r => String c (trimEnd r)
       end.

(** [s.trim()]. *)
Definition trim (s : string) : string := trimEnd (trimStart s).

(** [s] without its first [n] characters. *)
Fixpoint drop (n : nat) (s : string) : string :=
  match n, s with
  | S k, String _ s' => drop k s'
  | _, _ => s
  end.

Definition slug_open : string := tpl "slug`:`".

(** The longest run of characters other than the quote at the head of [s]:
    what the class [[^`]+] takes first. *)
Fixpoint class_run (s : string) : string :=
  match s with
  | EmptyString => ""
  | String c s' => if Ascii.eqb c dquote then "" else String c (class_run s')
  end.

(** The match of [/slug`:`([^`]+)`/] that starts at the head of [s]: the run
    has to be non-empty and a quote has to follow it; a shorter run is
    followed by a character of the class, not by a quote. *)
Definition match_here (s : string) : option string :=
  if String.prefix slug_open s then
    let run := class_run (drop 7 s) in
    if andb (negb (String.eqb run ""))
            (String.prefix (String dquote "") (drop (7 + String.length run) s))
    then Some (slug_open ++ run ++ String dquote "")
    else None
  else None.

(** [s.match(/slug`:`([^`]+)`/g)]: the matches from left to right, each
    search resuming where the last match ended; [skip] counts the characters
    of that match still to pass.  No match at all gives [null], which the
    caller turns into the empty list. *)
Fixpoint match_all (skip : nat) (s : string) : list string :=
  match s with
  | EmptyString => []
  | String _ s' =>
      match skip with
      | S k => match_all k s'
      | O =>
          match match_here s with
          | Some m => m :: match_all (String.length m - 1) s'
          | None => match_all 0 s'
          end
      end
  end.

(** [s.replace(pat, '')] for a string [pat]: its first occurrence goes. *)
Fixpoint remove_first (pat s : string) : string :=
  if String.prefix pat s then drop (String.length pat) s
  else match s with
       | EmptyString => ""
       | String c s' => String c (remove_first pat s')
       end.

(** The section names read back from a front-page template. *)
Definition section_slugs (templateFront : string) : list string :=
  map (fun m => remove_first (String dquote "") (remove_first slug_open m))
      (match_all 0 templateFront).

(** The document before it is trimmed. *)
Definition preview_template (locale : option string) (name combinedHTML : string) : string :=
  tpl "
<!DOCTYPE html>
<html lang=`"
  ++ JS.str_or locale "en"
  ++ tpl "`>
<head>
    <meta charset=`UTF-8`>
    <meta name=`viewport` content=`width=device-width, initial-scale=1.0`>
    <title>"
  ++ name
  ++ tpl " - Preview</title>
    <style id=`theme-styles`>
        /* Theme styles will be injected here */
    </style>
</head>
<body class=`wp-block-group`>
    "
  ++ combinedHTML
  ++ tpl "
</body>
</html>".

(** The base styles, the same for every theme. *)
Definition base_styles : string :=
  "
body {
  margin: 0;
  padding: 0;
  font-family: var(--wp--preset--font-family--body);
  font-size: var(--wp--preset--font-size--medium);
  line-height: 1.6;
  color: var(--wp--preset--color--text);
  background-color: var(--wp--preset--color--background);
}

.wp-block-group {
  box-sizing: border-box;
}

.wp-block-cover {
  position: relative;
  min-height: 50vh;
  display: flex;
  align-items: center;
  justify-content: center;
  background-size: cover;
  background-position: center;
  color: white;
}

.wp-block-cover__inner-container {
  text-align: center;
  max-width: 580px;
  margin: 0 auto;
  padding: 20px;
}

.wp-block-columns {
  display: flex;
  gap: 2rem;
  flex-wrap: wrap;
}

.wp-block-column {
  flex: 1;
  min-width: 250px;
}

.wp-block-button {
  display: inline-block;
  margin: 0.5rem;
}

.wp-block-button__link {
  display: inline-block;
  padding: 12px 24px;
  text-decoration: none;
  border-radius: 4px;
  font-weight: 600;
  transition: all 0.3s ease;
}

.has-primary-background-color {
  background-color: var(--wp--preset--color--primary) !important;
}

.has-secondary-background-color {
  background-color: var(--wp--preset--color--secondary) !important;
}

.has-white-color {
  color: white !important;
}

.has-text-align-center {
  text-align: center;
}

.has-x-large-font-size {
  font-size: var(--wp--preset--font-size--x-large);
}

.has-xx-large-font-size {
  font-size: var(--wp--preset--font-size--xx-large);
}

.has-large-font-size {
  font-size: var(--wp--preset--font-size--large);
}

.has-medium-font-size {
  font-size: var(--wp--preset--font-size--medium);
}

@media (max-width: 768px) {
  .wp-block-columns {
    flex-direction: column;
  }
}
".

(** [find], [map] and [forEach] are methods of arrays: calling one on
    another value throws. *)
Definition as_array (v : json) : completion (list json) :=
  match v with
  | JArr items => Normal items
  | _ => Throw
  end.

(** [patterns.find(p => p.slug === s)]. *)
Fixpoint find_slug (s : string) (items : list json) : completion (option json) :=
  match items with
  | [] => Normal None
  | p :: rest =>
      b <- slug_equals s p ;;
      if b then Normal (Some p) else find_slug s rest
  end.

(** [p => p.html]. *)
Definition html_of (p : json) : completion (option json) :=
  match p with
  | JNull => Throw
  | _ => Normal (get (Some p) "html")
  end.

Fixpoint map_html (items : list json) : completion (list (option json)) :=
  match items with
  | [] => Normal []
  | p :: rest =>
      h <- html_of p ;;
      hs <- map_html rest ;;
      Normal (h :: hs)
  end.

Definition is_truthy (v : option json) : bool :=
  match v with
  | Some x => truthy x
  | None => false
  end.

(** The line of one preset variable. *)
Definition css_variable (kind s v : string) : string :=
  "  --wp--preset--" ++ kind ++ "--" ++ s ++ ": " ++ v ++ ";" ++ newline.

Section Preview.

(** The text of a number. *)
Variable Number_toString : Q -> string.

(** The text a value is interpolated as.  An array prints its elements
    joined by commas, [null] as nothing; an object prints as
    [[object Object]] unless it has a [toString] property of its own, which
    is no function: there is then no way to a text, and a [TypeError]. *)
Fixpoint ToString (v : json) : completion string :=
  match v with
  | JNull => Normal "null"
  | JBool b => Normal (if b then "true" else "false")
  | JNum n => Normal (Number_toString n)
  | JStr s => Normal s
  | JArr items =>
      texts <- (fix each (l : list json) : completion (list string) :=
                  match l with
                  | [] => Normal []
                  | x :: r =>
                      t <- match x with
                           | JNull => Normal ""
                           | _ => ToString x
                           end ;;
                      ts <- each r ;;
                      Normal (t :: ts)
                  end) items ;;
      Normal (JS.join "," texts)
  | JObj props =>
      match prop_get "toString" props with
      | Some _ => Throw
      | None => Normal "[object Object]"
      end
  end.

(** The same for a property that may be missing. *)
Definition interpolate (v : option json) : completion string :=
  match v with
  | Some x => ToString x
  | None => Normal "undefined"
  end.

(** The text [join] gives an element: none for [undefined] and [null]. *)
Definition join_text (v : option json) : completion string :=
  match v with
  | None => Normal ""
  | Some JNull => Normal ""
  | Some x => ToString x
  end.

Fixpoint join_texts (vs : list (option json)) : completion (list string) :=
  match vs with
  | [] => Normal []
  | v :: rest =>
      t <- join_text v ;;
      ts <- join_texts rest ;;
      Normal (t :: ts)
  end.

(** The loop over the sections: the pattern of each, where there is one,
    is appended between two line breaks. *)
Fixpoint combine_sections (patterns : json) (sections : list string) (combinedHTML : string)
    : completion string :=
  match sections with
  | [] => Normal combinedHTML
  | sectionSlug :: rest =>
      items <- as_array patterns ;;
      pattern <- find_slug sectionSlug items ;;
      if is_truthy pattern then
        text <- interpolate (get pattern "html") ;;
        combine_sections patterns rest (combinedHTML ++ newline ++ text ++ newline)
      else combine_sections patterns rest combinedHTML
  end.

(** [locale] and [name] are [project.locale] and [project.name]. *)
Definition generatePreviewHTML (theme : GeneratedTheme) (locale : option string)
    (name : string) : completion string :=
  match templateFront theme with
  | JStr text =>
      let sections := section_slugs text in
      combinedHTML <- combine_sections (patterns theme) sections "" ;;
      combinedHTML <-
        (if String.eqb (trim combinedHTML) "" then
           items <- as_array (patterns theme) ;;
           htmls <- map_html items ;;
           texts <- join_texts htmls ;;
           Normal (JS.join newline texts)
         else Normal combinedHTML) ;;
      Normal (trim (preview_template locale name combinedHTML))
  | _ => Throw
  end.

(** One list of presets: a variable per element, in order. *)
Fixpoint css_variables (kind key : string) (items : list json) (css : string)
    : completion string :=
  match items with
  | [] => Normal css
  | d :: rest =>
      match d with
      | JNull => Throw
      | _ =>
          s <- interpolate (get (Some d) "slug") ;;
          v <- interpolate (get (Some d) key) ;;
          css_variables kind key rest (css ++ css_variable kind s v)
      end
  end.

Definition css_presets (kind key : string) (presets : option json) (css : string)
    : completion string :=
  if is_truthy presets then
    match presets with
    | Some (JArr items) => css_variables kind key items css
    | _ => Throw
    end
  else Normal css.

Definition generatePreviewCSS (themeJson : json) : completion string :=
  let settings := get (Some themeJson) "settings" in
  if negb (is_truthy settings) then Normal ""
  else
    let color := get settings "color" in
    let typography := get settings "typography" in
    css <- css_presets "color" "color" (get color "palette") (":root {" ++ newline) ;;
    css <- css_presets "font-family" "fontFamily" (get typography "fontFamilies") css ;;
    css <- css_presets "font-size" "size" (get typography "fontSizes") css ;;
    Normal (css ++ "}" ++ newline ++ newline ++ base_styles).

End Preview.

(** A section name the template takes as it is: not empty, without a quote
    and not a property of [Object.prototype]. *)
Definition plain_section (s : string) : bool :=
  negb (String.eqb s "") && lacks dquote s &&
  match lookup s Object_prototype with
  | None => true
  | Some _ => false
  end.

(** What the preview shows for a section: its pattern between two line
    breaks, nothing when no pattern has its name. *)
Definition section_html (ps : list BlockPattern) (s : string) : string :=
  match find (fun p => String.eqb (p_slug p) s) ps with
  | Some p => newline ++ html p ++ newline
  | None => ""
  end.

(** The variable the preview declares for a palette token. *)
Definition color_variable (t : ColorToken) : string :=
  css_variable "color" (slug t) (color t).

(** The style sheet of the preview of a deterministically generated theme:
    a variable for every token of the processed palette, in order, for the
    two font families and for the five font sizes, and the base styles. *)
Definition deterministic_css (project : Project) : string :=
  ":root {" ++ newline
  ++ JS.join "" (map color_variable (processPalette project))
  ++ css_variable "font-family" "heading"
       (JS.str_or (option_map fallback (opt (brand project) headingFont))
          "Inter, system-ui, sans-serif")
  ++ css_variable "font-family" "body"
       (JS.str_or (option_map fallback (opt (brand project) bodyFont))
          "system-ui, -apple-system, sans-serif")
  ++ css_variable "font-size" "small" "14px"
  ++ css_variable "font-size" "medium" "16px"
  ++ css_variable "font-size" "large" "20px"
  ++ css_variable "font-size" "x-large" "32px"
  ++ css_variable "font-size" "xx-large" "48px"
  ++ "}" ++ newline ++ newline ++ base_styles.

Example hexToRgb_ex1 : hexToRgb "#3b82f6" = Some (59, 130, 246)%Z.
Proof. reflexivity. Qed.
Example hexToRgb_ex2 : hexToRgb "3B82F6" = Some (59, 130, 246)%Z.
Proof. reflexivity. Qed.
Example hexToRgb_ex3 : hexToRgb "#3b82f" = None.
Proof. reflexivity. Qed.
Example rgbToHex_ex1 : rgbToHex 59 130 246 = "#3b82f6".
Proof. vm_compute. reflexivity. Qed.
Example rgbToHex_ex2 : rgbToHex 256 0 0 = "#1000000".
Proof. vm_compute. reflexivity. Qed.
Example rgbToHex_ex3 : rgbToHex (5 # 2) (-1 # 2) (-1) = "#0300-1".
Proof. vm_compute. reflexivity. Qed.
Example includes_ex1 : JS.includes "subtext-muted" "text" = true.
Proof. reflexivity. Qed.
Example includes_ex2 : JS.includes "tex" "text" = false.
Proof. reflexivity. Qed.
Example jsonMatch_ex1 : jsonMatch "Here you go: {a{b}c} thanks" = Some "{a{b}c}".
Proof. reflexivity. Qed.
Example jsonMatch_ex2 : jsonMatch "} no object {" = None.
Proof. reflexivity. Qed.
Example sequence_ex :
  generateFrontPageTemplate ["hero"; "header"; "contact"; "pricing"; "hero"] =
  JS.join newline
    [ tpl "<!-- wp:pattern {`slug`:`hero`} /-->";
      tpl "<!-- wp:template-part {`slug`:`header`,`area`:`header`} /-->";
      tpl "<!-- wp:pattern {`slug`:`contact`} /-->";
      tpl "<!-- wp:pattern {`slug`:`pricing`} /-->";
      tpl "<!-- wp:pattern {`slug`:`hero`} /-->" ].
Proof. vm_compute. reflexivity. Qed.

(** The two loops of the corrector end by their own condition: more fuel
    gives no further value of [factor].  The darker search runs nine times,
    the last time with a factor just above 0.1. *)
Lemma darker_factors_complete (k : nat) :
  JS.for_values (16 + k) (fun f => PrimFloat.ltb 0.1 f) (fun f => PrimFloat.sub f 0.1) 0.9%float
  = darker_factors.
Proof. vm_compute. reflexivity. Qed.

Lemma lighter_factors_complete (k : nat) :
  JS.for_values (32 + k) (fun f => PrimFloat.ltb f 3) (fun f => PrimFloat.add f 0.1) 1.1%float
  = lighter_factors.
Proof. vm_compute. reflexivity. Qed.

Lemma factors_count : List.length darker_factors = 9%nat /\ List.length lighter_factors = 19%nat.
Proof. vm_compute. split; reflexivity. Qed.

(** * Properties *)

(** ** Luminance and contrast *)

Lemma Rgeb_true (x y : R) : Rgeb x y = true <-> (x >= y)%R.
Proof. unfold Rgeb. destruct (Rge_dec x y); intuition congruence. Qed.

Lemma Rgeb_false (x y : R) : Rgeb x y = false <-> (x < y)%R.
Proof.
  unfold Rgeb. destruct (Rge_dec x y) as [H | H]; split; intro H'; try congruence; lra.
Qed.

Lemma Rgtb_true (x y : R) : Rgtb x y = true <-> (x > y)%R.
Proof. unfold Rgtb. destruct (Rgt_dec x y); intuition congruence. Qed.

Lemma Rgtb_false (x y : R) : Rgtb x y = false <-> (x <= y)%R.
Proof.
  unfold Rgtb. destruct (Rgt_dec x y) as [H | H]; split; intro H'; try congruence; lra.
Qed.

Lemma div_below (a b r : R) : (0 < b)%R -> (a < r * b)%R -> (a / b < r)%R.
Proof.
  intros Hb H. apply Rmult_lt_reg_r with b; [exact Hb |].
  unfold Rdiv. rewrite Rmult_assoc, Rinv_l by lra. lra.
Qed.

Lemma div_at_least (a b r : R) : (0 < b)%R -> (r * b <= a)%R -> (r <= a / b)%R.
Proof.
  intros Hb H. apply Rmult_le_reg_r with b; [exact Hb |].
  unfold Rdiv. rewrite Rmult_assoc, Rinv_l by lra. lra.
Qed.

Lemma linearize_0 : linearize 0 = 0%R.
Proof.
  unfold linearize. cbv zeta. destruct (Rle_dec (0 / 255) 0.03928) as [_ | H].
  - lra.
  - exfalso. apply H. lra.
Qed.

Lemma linearize_255 : linearize 255 = 1%R.
Proof.
  unfold linearize. cbv zeta. destruct (Rle_dec (255 / 255) 0.03928) as [H | _].
  - exfalso. lra.
  - replace ((255 / 255 + 0.055) / 1.055)%R with 1%R by lra.
    unfold Rpower. rewrite ln_1, Rmult_0_r. apply exp_0.
Qed.

Lemma linearize_nonneg (c : Z) : (0 <= c)%Z -> (0 <= linearize c)%R.
Proof.
  intro Hc. unfold linearize. cbv zeta.
  assert (0 <= IZR c)%R by (apply IZR_le in Hc; exact Hc).
  destruct (Rle_dec (IZR c / 255) 0.03928).
  - lra.
  - unfold Rpower. left. apply exp_pos.
Qed.

Lemma hex_digit_nonneg (c : ascii) (d : Z) : hex_digit c = Some d -> (0 <= d <= 15)%Z.
Proof.
  unfold hex_digit. cbv zeta.
  repeat match goal with
         | |- context [if ?b then _ else _] => destruct b eqn:?
         end; intro H; inversion H; subst; lia.
Qed.

Lemma parse_hex2_range (x y : ascii) (n : Z) : parse_hex2 x y = Some n -> (0 <= n <= 255)%Z.
Proof.
  unfold parse_hex2.
  destruct (hex_digit x) as [a |] eqn:Ha; [| discriminate].
  destruct (hex_digit y) as [b |] eqn:Hb; [| discriminate].
  apply hex_digit_nonneg in Ha. apply hex_digit_nonneg in Hb.
  intro H. injection H as <-. destruct a; lia.
Qed.

Lemma six_hex_range (s : string) (r g b : Z) :
  six_hex s = Some (r, g, b) -> (0 <= r <= 255 /\ 0 <= g <= 255 /\ 0 <= b <= 255)%Z.
Proof.
  unfold six_hex.
  destruct s as [| r1 [| r2 [| g1 [| g2 [| b1 [| b2 [| ? ?]]]]]]]; try discriminate.
  destruct (parse_hex2 r1 r2) eqn:Hr; [| discriminate].
  destruct (parse_hex2 g1 g2) eqn:Hg; [| discriminate].
  destruct (parse_hex2 b1 b2) eqn:Hb; [| discriminate].
  intro H. injection H as <- <- <-.
  repeat split; eapply parse_hex2_range; eassumption.
Qed.

Lemma hexToRgb_range (hex : string) (r g b : Z) :
  hexToRgb hex = Some (r, g, b) -> (0 <= r <= 255 /\ 0 <= g <= 255 /\ 0 <= b <= 255)%Z.
Proof.
  unfold hexToRgb. destruct hex as [| c rest].
  - apply six_hex_range.
  - destruct (Ascii.eqb c "#") eqn:Hc.
    + apply Ascii.eqb_eq in Hc. subst. apply six_hex_range.
    + destruct c as [[] [] [] [] [] [] [] []]; try discriminate Hc; apply six_hex_range.
Qed.

Lemma getLuminance_nonneg (hex : string) : (0 <= getLuminance hex)%R.
Proof.
  unfold getLuminance. destruct (hexToRgb hex) as [[[r g] b] |] eqn:H; [| lra].
  apply hexToRgb_range in H. destruct H as (Hr & Hg & Hb).
  pose proof (linearize_nonneg r (proj1 Hr)).
  pose proof (linearize_nonneg g (proj1 Hg)).
  pose proof (linearize_nonneg b (proj1 Hb)).
  lra.
Qed.

Lemma getLuminance_black : getLuminance "#000000" = 0%R.
Proof.
  unfold getLuminance. change (hexToRgb "#000000") with (Some (0, 0, 0)%Z).
  cbv beta iota. rewrite linearize_0. lra.
Qed.

Lemma getLuminance_white : getLuminance "#ffffff" = 1%R.
Proof.
  unfold getLuminance. change (hexToRgb "#ffffff") with (Some (255, 255, 255)%Z).
  cbv beta iota. rewrite linearize_255. lra.
Qed.

Lemma contrast_black_white : getContrastRatio "#000000" "#ffffff" = 21%R.
Proof.
  unfold getContrastRatio. cbv zeta. rewrite getLuminance_black, getLuminance_white.
  rewrite Rmax_right, Rmin_left by lra. lra.
Qed.

(** ** The contrast corrector on compliant input *)

Lemma adjust_noop (color background : string) (targetRatio : R) :
  (getContrastRatio color background >= targetRatio)%R ->
  adjustLightnessForContrast color background targetRatio = color.
Proof.
  intro H. unfold adjustLightnessForContrast. cbv zeta.
  apply Rgeb_true in H. rewrite H. reflexivity.
Qed.

(** C8: a colour whose contrast ratio against the background is at least 4.5
    is returned unchanged by [adjustLightnessForContrast] at target 4.5. *)
Theorem adjust_compliant_unchanged (color background : string) :
  (getContrastRatio color background >= 4.5)%R ->
  adjustLightnessForContrast color background 4.5 = color.
Proof. apply adjust_noop. Qed.

Lemma adjust_compliant_unchanged_witness :
  (getContrastRatio "#000000" "#ffffff" >= 4.5)%R /\
  adjustLightnessForContrast "#000000" "#ffffff" 4.5 = "#000000".
Proof.
  assert (H : (getContrastRatio "#000000" "#ffffff" >= 4.5)%R)
    by (rewrite contrast_black_white; lra).
  split; [exact H | exact (adjust_compliant_unchanged "#000000" "#ffffff" H)].
Defined.

(** ** Pattern composer: the benefits pattern *)

Lemma benefits_pattern_html (project : Project) (palette : list ColorToken) :
  benefits_pattern project palette =
  Some {| p_slug := "benefits"; p_title := "Benefits Section";
          html := benefits_html (JS.arr_or (opt (content project) benefits) default_benefits) |}.
Proof. reflexivity. Qed.

(** With no benefits array at all the default triple is rendered. *)
Lemma benefits_default_when_unset (project : Project) (palette : list ColorToken) :
  opt (content project) benefits = None ->
  exists p, benefits_pattern project palette = Some p /\
            JS.includes (html p) "Fast Performance" = true /\
            JS.includes (html p) "Mobile First" = true /\
            JS.includes (html p) "SEO Ready" = true.
Proof.
  intro H. eexists. split; [apply benefits_pattern_html |].
  rewrite H. cbn [html JS.arr_or]. vm_compute. auto.
Qed.

(** C5: with [content.benefits] the empty list the benefits pattern renders no
    column: none of the three default titles occurs in its HTML. *)
Theorem benefits_empty_list_renders_no_default (project : Project) (palette : list ColorToken)
    (c : Content) :
  content project = Some c ->
  benefits c = Some [] ->
  exists p, benefits_pattern project palette = Some p /\
            html p = benefits_html [] /\
            JS.includes (html p) "Fast Performance" = false /\
            JS.includes (html p) "Mobile First" = false /\
            JS.includes (html p) "SEO Ready" = false.
Proof.
  intros Hc Hb. eexists. split; [apply benefits_pattern_html |].
  rewrite Hc. cbn [opt html]. rewrite Hb. cbn [JS.arr_or].
  split; [reflexivity |]. vm_compute. auto.
Qed.

Lemma benefits_empty_list_renders_no_default_witness :
  exists p, benefits_pattern project_fresh [] = Some p /\
            html p = benefits_html [] /\
            JS.includes (html p) "Fast Performance" = false /\
            JS.includes (html p) "Mobile First" = false /\
            JS.includes (html p) "SEO Ready" = false.
Proof.
  exact (benefits_empty_list_renders_no_default project_fresh []
           {| headline := None; benefits := Some []; cta := None; contact := None |}
           eq_refl eq_refl).
Defined.

(** ** Template sequencer *)

(** With no section list at all the default order is used. *)
Lemma sections_default_when_unset (project : Project) :
  opt (layout project) sections = None ->
  templateFront (generateWordPressTheme project) =
  JStr (generateFrontPageTemplate default_sections).
Proof.
  intro H. unfold generateWordPressTheme, chosenSections. cbn [templateFront].
  rewrite H. reflexivity.
Qed.

(** C6: with [layout.sections] the empty list the front-page template is
    built from that empty list, not from the default section order: it is
    the empty string. *)
Theorem sections_empty_list_not_defaulted (project : Project) (l : Layout) :
  layout project = Some l ->
  sections l = Some [] ->
  templateFront (generateWordPressTheme project) = JStr "" /\
  templateFront (generateWordPressTheme project) <>
    JStr (generateFrontPageTemplate default_sections).
Proof.
  intros Hl Hs.
  assert (E : templateFront (generateWordPressTheme project) = JStr "").
  { unfold generateWordPressTheme, chosenSections. cbn [templateFront].
    rewrite Hl. cbn [opt]. rewrite Hs. reflexivity. }
  split; [exact E |]. rewrite E. vm_compute. discriminate.
Qed.

Lemma sections_empty_list_not_defaulted_witness :
  templateFront (generateWordPressTheme project_fresh) = JStr "" /\
  templateFront (generateWordPressTheme project_fresh) <>
    JStr (generateFrontPageTemplate default_sections).
Proof.
  exact (sections_empty_list_not_defaulted project_fresh {| sections := Some [] |}
           eq_refl eq_refl).
Defined.

Lemma lookup_sectionMap_spec (section v : string) :
  lookup section sectionMap = Some v -> v = spec_reference section.
Proof.
  unfold sectionMap. cbn [lookup].
  repeat match goal with
         | |- context [String.eqb ?k section] =>
             destruct (String.eqb_spec k section) as [<- | _];
             [intro H; injection H as <-; vm_compute; reflexivity |]
         end.
  discriminate.
Qed.

Lemma lookup_sectionMap_none (section : string) :
  lookup section sectionMap = None -> spec_reference section = pattern_reference section.
Proof.
  unfold sectionMap, spec_reference. cbn [lookup].
  rewrite (String.eqb_sym section "header"), (String.eqb_sym section "footer").
  destruct (String.eqb "header" section); [discriminate |].
  repeat match goal with
         | |- context [if String.eqb ?k section then Some ?v else _] =>
             destruct (String.eqb k section) eqn:?; [discriminate |]
         end.
  reflexivity.
Qed.

(** Every name that [Object.prototype] does not define gets the reference
    the specification describes. *)
Lemma section_reference_spec (section : string) :
  lookup section Object_prototype = None ->
  section_reference section = spec_reference section.
Proof.
  intro H. unfold section_reference, sectionMap_get.
  destruct (lookup section sectionMap) as [v |] eqn:E.
  - apply lookup_sectionMap_spec. exact E.
  - rewrite H. symmetry. apply lookup_sectionMap_none. exact E.
Qed.

(** X16: for section names none of which [Object.prototype] defines, the
    template is the newline-joined list of the references the specification
    gives ([header] and [footer] a template part, every other name a pattern
    of that slug), one per name, in order, duplicates kept. *)
Lemma template_outside_prototype (sections : list string) :
  Forall (fun section => lookup section Object_prototype = None) sections ->
  generateFrontPageTemplate sections = JS.join newline (map spec_reference sections).
Proof.
  intro H. unfold generateFrontPageTemplate. f_equal.
  induction H as [| section rest Hs _ IH]; cbn [map]; [reflexivity |].
  now rewrite IH, (section_reference_spec section Hs).
Qed.

(** C9: a section name that [Object.prototype] defines does not fall through
    to the generic pattern reference: for the one-element list [__proto__]
    the template is the text of the prototype object. *)
Theorem template_inherited_name_not_generic :
  generateFrontPageTemplate ["__proto__"] = "[object Object]" /\
  generateFrontPageTemplate ["__proto__"] <> pattern_reference "__proto__" /\
  generateFrontPageTemplate ["hero"; "constructor"] =
    pattern_reference "hero" ++ newline ++ native_function "Object".
Proof.
  repeat split; vm_compute; try reflexivity; discriminate.
Qed.

(** ** Pattern composer: the footer pattern *)

(** C10 (as amended): the footer pattern is a fixed copyright line around the
    project name, and the year in it is the literal 2024, whatever the year
    of the generation. *)
Theorem footer_fixed_year_2024 :
  exists before after : string,
    forall (project : Project) (palette : list ColorToken),
      footer_pattern project palette =
      Some {| p_slug := "footer"; p_title := "Footer";
              html := before ++ "© 2024 " ++ name project ++ ". All rights reserved." ++ after |}.
Proof.
  exists (tpl "<!-- wp:group {`style`:{`spacing`:{`padding`:{`top`:`40px`,`bottom`:`40px`}}},`backgroundColor`:`neutral`,`textColor`:`white`,`layout`:{`type`:`constrained`}} -->
<div class=`wp-block-group has-white-color has-neutral-background-color has-text-color has-background` style=`padding-top:40px;padding-bottom:40px`>
  <!-- wp:paragraph {`align`:`center`} -->
  <p class=`has-text-align-center`>").
  exists (tpl "</p>
  <!-- /wp:paragraph -->
</div>
<!-- /wp:group -->").
  intros project palette. unfold footer_pattern. cbn [generateBlockPatterns nth_error].
  reflexivity.
Qed.

(** C10 (as stated) fails: a theme generated in 2025 for the project [Acme]
    has a footer that does not mention 2025. *)
Lemma footer_year_not_current :
  ~ (forall (currentYear : Z) (project : Project) (palette : list ColorToken),
       exists p, footer_pattern project palette = Some p /\
                 JS.includes (html p) (year_text currentYear) = true).
Proof.
  intro H. destruct (H 2025%Z project_fresh []) as (p & Hp & Hy).
  vm_compute in Hp. injection Hp as <-. vm_compute in Hy. discriminate.
Qed.

(** ** Override path *)

Lemma deterministic_not_empty (project : Project) :
  generateDeterministicTheme project <> empty_theme.
Proof.
  unfold generateDeterministicTheme, generateWordPressTheme, empty_theme, buildThemeJson.
  cbv zeta. discriminate.
Qed.

(** A response with no brace-delimited text falls back. *)
Lemma parse_no_match_falls_back (JSON_parse : string -> option json) (response : string)
    (project : Project) :
  jsonMatch response = None ->
  parseAIResponse JSON_parse response project = generateDeterministicTheme project.
Proof. intro H. unfold parseAIResponse. now rewrite H. Qed.

(** A text [JSON.parse] rejects falls back. *)
Lemma parse_syntax_error_falls_back (JSON_parse : string -> option json) (response text : string)
    (project : Project) :
  jsonMatch response = Some text ->
  JSON_parse text = None ->
  parseAIResponse JSON_parse response project = generateDeterministicTheme project.
Proof. intros H1 H2. unfold parseAIResponse. now rewrite H1, H2. Qed.

(** An exception inside the merge falls back. *)
Lemma parse_merge_throw_falls_back (JSON_parse : string -> option json) (response text : string)
    (parsed : json) (project : Project) :
  jsonMatch response = Some text ->
  JSON_parse text = Some parsed ->
  mergeWithLockedColors parsed project = Throw ->
  parseAIResponse JSON_parse response project = generateDeterministicTheme project.
Proof. intros H1 H2 H3. unfold parseAIResponse. now rewrite H1, H2, H3. Qed.

(** A theme object without a palette path comes out of the merge with the
    three defaults filled in. *)
Lemma merge_no_palette (parsed : json) (project : Project) :
  parsed <> JNull ->
  candidate_palette parsed = None ->
  mergeWithLockedColors parsed project = Normal (unmerged parsed).
Proof.
  intros Hn Hc. unfold mergeWithLockedColors. cbv zeta. rewrite Hc.
  destruct parsed; [contradiction | reflexivity ..].
Qed.

(** The response [{}] parses to the empty object, which has none of the three
    contract properties; it is not discarded: the result is the theme of
    empty defaults, not the deterministic theme. *)
Lemma parse_empty_object_not_discarded (JSON_parse : string -> option json) (project : Project) :
  JSON_parse "{}" = Some (JObj []) ->
  has_contract_shape (JObj []) = false /\
  parseAIResponse JSON_parse "{}" project = empty_theme /\
  parseAIResponse JSON_parse "{}" project <> generateDeterministicTheme project.
Proof.
  intro H.
  assert (E : parseAIResponse JSON_parse "{}" project = empty_theme).
  { unfold parseAIResponse. cbn [jsonMatch from_first_open upto_last_close Ascii.eqb Bool.eqb].
    rewrite H. reflexivity. }
  repeat split; [exact E |].
  rewrite E. intro C. symmetry in C. revert C. apply deterministic_not_empty.
Qed.

(** C3 (as stated) fails: the response [{}] does not have the contract's
    shape, and it is not discarded. *)
Lemma parse_wrong_shape_not_discarded :
  ~ (forall (JSON_parse : string -> option json) (response : string) (project : Project),
       (forall text parsed,
           jsonMatch response = Some text -> JSON_parse text = Some parsed ->
           has_contract_shape parsed = false) ->
       parseAIResponse JSON_parse response project = generateDeterministicTheme project).
Proof.
  intro H. specialize (H JSON_parse_braces "{}" project_fresh).
  destruct (parse_empty_object_not_discarded JSON_parse_braces project_fresh eq_refl)
    as (_ & _ & Hne).
  apply Hne. apply H. intros text parsed Ht Hp.
  injection Ht as <-. injection Hp as <-. reflexivity.
Qed.

(** ** Objects and their properties *)

Lemma prop_get_set (k : string) (v : json) (props : list (string * json)) :
  prop_get k (prop_set k v props) = Some v.
Proof.
  induction props as [| [k' v'] rest IH]; cbn.
  - now rewrite String.eqb_refl.
  - destruct (String.eqb k' k) eqn:E; cbn; rewrite E; [reflexivity | exact IH].
Qed.

Lemma prop_get_set_other (k k' : string) (v : json) (props : list (string * json)) :
  k <> k' -> prop_get k' (prop_set k v props) = prop_get k' props.
Proof.
  intro Hne. induction props as [| [k0 v0] rest IH]; cbn.
  - apply String.eqb_neq in Hne. now rewrite Hne.
  - destruct (String.eqb k0 k) eqn:E; cbn.
    + apply String.eqb_eq in E. subst k0.
      apply String.eqb_neq in Hne. now rewrite Hne.
    + destruct (String.eqb k0 k'); [reflexivity | exact IH].
Qed.

Lemma get_inv (v : option json) (k : string) (x : json) :
  get v k = Some x -> exists props, v = Some (JObj props) /\ prop_get k props = Some x.
Proof.
  destruct v as [[| | | | |props] |]; cbn; try discriminate. eauto.
Qed.

Lemma get_set (props : list (string * json)) (k : string) (x : json) :
  get (Some (set (JObj props) k x)) k = Some x.
Proof. cbn. apply prop_get_set. Qed.

Lemma get_set_other (v : json) (k k' : string) (x : json) :
  k <> k' -> get (Some (set v k x)) k' = get (Some v) k'.
Proof.
  intro Hne. destruct v; cbn; try reflexivity. now apply prop_get_set_other.
Qed.

(** ** The locked-colour pass over a candidate palette *)

Lemma bind_Normal {A B : Type} (c : completion A) (k : A -> completion B) (b : B) :
  bind c k = Normal b -> exists a, c = Normal a /\ k a = Normal b.
Proof. destruct c; cbn; [eauto | discriminate]. Qed.

Lemma slug_equals_true (s : string) (p : json) :
  slug_equals s p = Normal true ->
  exists props, p = JObj props /\ prop_get "slug" props = Some (JStr s).
Proof.
  destruct p as [| b | n | s0 | l | props]; cbn; intro H; try discriminate H.
  destruct (prop_get "slug" props) as [[| | | s' | |] |] eqn:E; try discriminate H.
  injection H as H. apply String.eqb_eq in H. subst s'. eauto.
Qed.

(** A match of [findIndex] is an object whose [slug] is the string searched. *)
Lemma findIndex_slug_found (s : string) (items : list json) (i : nat) :
  findIndex_slug s items = Normal (Some i) ->
  exists props, nth_error items i = Some (JObj props) /\
                prop_get "slug" props = Some (JStr s).
Proof.
  revert i. induction items as [| p rest IH]; intros i H; cbn in H; [discriminate |].
  apply bind_Normal in H. destruct H as ([|] & Hp & H).
  - injection H as <-. cbn. apply slug_equals_true in Hp.
    destruct Hp as (props & -> & Hs). eauto.
  - apply bind_Normal in H. destruct H as ([j |] & Hj & H); [| discriminate].
    injection H as <-. cbn. apply IH. exact Hj.
Qed.

(** [findIndex] reads nothing but whether an element is [null] and what its
    [slug] is. *)
Lemma slug_equals_ext (s : string) (p p' : json) :
  (p = JNull <-> p' = JNull) -> slug_of p = slug_of p' ->
  slug_equals s p' = slug_equals s p.
Proof.
  intros Hnull Hslug. unfold slug_of in Hslug.
  destruct p; destruct p'; try reflexivity;
    try (exfalso; destruct Hnull as [H1 H2]; (discriminate (H1 eq_refl) || discriminate (H2 eq_refl)));
    unfold slug_equals; rewrite Hslug; reflexivity.
Qed.

Lemma findIndex_slug_ext (s : string) (items items' : list json) :
  Forall2 (fun p p' => (p = JNull <-> p' = JNull) /\ slug_of p = slug_of p') items items' ->
  findIndex_slug s items' = findIndex_slug s items.
Proof.
  induction 1 as [| p p' rest rest' [Hnull Hslug] _ IH]; [reflexivity |].
  cbn. rewrite IH, (slug_equals_ext s p p' Hnull Hslug). reflexivity.
Qed.

Lemma same_slugs_refl (items : list json) : same_slugs items items.
Proof. induction items; constructor; [tauto | assumption]. Qed.

Lemma same_slugs_trans (a b c : list json) :
  same_slugs a b -> same_slugs b c -> same_slugs a c.
Proof.
  intro H. revert c. induction H as [| p p' r r' [Hn Hs] _ IH]; intros c Hc.
  - inversion Hc. constructor.
  - inversion Hc as [| q q' t t' [Hn' Hs'] Ht]; subst. constructor.
    + split; [tauto | congruence].
    + apply IH. assumption.
Qed.

Lemma same_slugs_length (items items' : list json) :
  same_slugs items items' -> List.length items' = List.length items.
Proof. induction 1; cbn; congruence. Qed.

Lemma same_slugs_map (items items' : list json) :
  same_slugs items items' -> map slug_of items' = map slug_of items.
Proof. induction 1 as [| p p' r r' [_ Hs] _ IH]; cbn [map]; congruence. Qed.

Lemma set_color_slug (p : json) (c : string) :
  ((p = JNull <-> set p "color" (JStr c) = JNull)) /\
  slug_of p = slug_of (set p "color" (JStr c)).
Proof.
  split.
  - destruct p; cbn; split; intro H; try discriminate H; reflexivity.
  - unfold slug_of. symmetry. apply get_set_other. discriminate.
Qed.

Lemma set_color_at_same_slugs (i : nat) (c : string) (items : list json) :
  same_slugs items (set_color_at i c items).
Proof.
  revert i. induction items as [| p rest IH]; intro i; [destruct i; constructor |].
  destruct i; cbn.
  - constructor; [apply set_color_slug | apply same_slugs_refl].
  - constructor; [tauto | apply IH].
Qed.

Lemma set_color_at_other (i j : nat) (c : string) (items : list json) :
  i <> j -> nth_error (set_color_at i c items) j = nth_error items j.
Proof.
  revert i j. induction items as [| p rest IH]; intros i j Hne; [destruct i; reflexivity |].
  destruct i, j; cbn; try reflexivity; try contradiction.
  apply IH. congruence.
Qed.

Lemma set_color_at_same (i : nat) (c : string) (items : list json) (p : json) :
  nth_error items i = Some p ->
  nth_error (set_color_at i c items) i = Some (set p "color" (JStr c)).
Proof.
  revert i. induction items as [| q rest IH]; intros [| i] H; cbn in *; try discriminate.
  - now injection H as ->.
  - now apply IH.
Qed.

Lemma enforce_locked_inv (items items' : list json) (t : ColorToken) :
  enforce_locked items t = Normal items' ->
  (findIndex_slug (slug t) items = Normal None /\ items' = items) \/
  (exists i, findIndex_slug (slug t) items = Normal (Some i) /\
             items' = set_color_at i (color t) items).
Proof.
  unfold enforce_locked. intro H. apply bind_Normal in H.
  destruct H as ([i |] & Hi & H); injection H as <-; eauto.
Qed.

Lemma enforce_locked_same_slugs (items items' : list json) (t : ColorToken) :
  enforce_locked items t = Normal items' -> same_slugs items items'.
Proof.
  intro H. apply enforce_locked_inv in H. destruct H as [[_ ->] | (i & _ & ->)].
  - apply same_slugs_refl.
  - apply set_color_at_same_slugs.
Qed.

(** One step of the pass leaves every element with another slug as it is. *)
Lemma enforce_locked_frame (items items' : list json) (t : ColorToken) (j : nat) (p : json) :
  enforce_locked items t = Normal items' ->
  nth_error items j = Some p ->
  slug_of p <> Some (JStr (slug t)) ->
  nth_error items' j = Some p.
Proof.
  intros H Hj Hne. apply enforce_locked_inv in H. destruct H as [[_ ->] | (i & Hi & ->)].
  - exact Hj.
  - rewrite set_color_at_other; [exact Hj |].
    intros ->. apply findIndex_slug_found in Hi. destruct Hi as (props & Hp & Hs).
    rewrite Hp in Hj. injection Hj as <-. apply Hne. exact Hs.
Qed.

Lemma forEach_locked_same_slugs (locks : list ColorToken) (items items' : list json) :
  forEach_locked locks items = Normal items' -> same_slugs items items'.
Proof.
  revert items. induction locks as [| t rest IH]; intros items H; cbn in H.
  - injection H as <-. apply same_slugs_refl.
  - apply bind_Normal in H. destruct H as (items1 & H1 & H).
    eapply same_slugs_trans; [eapply enforce_locked_same_slugs; eassumption | now apply IH].
Qed.


(** The whole pass leaves every element whose slug is no locked slug as it is. *)
Lemma forEach_locked_frame (locks : list ColorToken) (items items' : list json) (j : nat) (p : json) :
  forEach_locked locks items = Normal items' ->
  nth_error items j = Some p ->
  (forall t, In t locks -> slug_of p <> Some (JStr (slug t))) ->
  nth_error items' j = Some p.
Proof.
  revert items. induction locks as [| t rest IH]; intros items H Hj Hne; cbn in H.
  - now injection H as <-.
  - apply bind_Normal in H. destruct H as (items1 & H1 & H).
    apply (IH items1); [exact H | | intros t' Ht'; apply Hne; now right].
    eapply enforce_locked_frame; [exact H1 | exact Hj | apply Hne; now left].
Qed.

(** After the pass the element [findIndex] finds for a locked slug carries the
    colour of the locked tokens of that slug. *)
Lemma forEach_locked_color (locks : list ColorToken) (items items' : list json)
    (i : nat) (s c : string) :
  forEach_locked locks items = Normal items' ->
  findIndex_slug s items = Normal (Some i) ->
  (forall t, In t locks -> slug t = s -> color t = c) ->
  (exists t, In t locks /\ slug t = s) \/ get (nth_error items i) "color" = Some (JStr c) ->
  get (nth_error items' i) "color" = Some (JStr c).
Proof.
  revert items. induction locks as [| t rest IH]; intros items H Hi Hc Hpre; cbn in H.
  - injection H as <-. destruct Hpre as [(t & [] & _) | Hpre]. exact Hpre.
  - apply bind_Normal in H. destruct H as (items1 & H1 & H).
    pose proof (enforce_locked_same_slugs _ _ _ H1) as Hsame.
    apply (IH items1); [exact H | | intros t' Ht'; apply Hc; now right |].
    + rewrite (findIndex_slug_ext s items items1 Hsame). exact Hi.
    + destruct (String.eqb_spec (slug t) s) as [Hs | Hs].
      * right. apply enforce_locked_inv in H1. rewrite Hs, Hi in H1.
        destruct H1 as [[H1 _] | (i' & H1 & ->)]; [discriminate |].
        injection H1 as <-.
        destruct (findIndex_slug_found _ _ _ Hi) as (props & Hp & _).
        rewrite (set_color_at_same _ _ _ _ Hp). rewrite (Hc t (or_introl eq_refl) Hs).
        apply get_set.
      * destruct Hpre as [(t' & [-> | Ht'] & Hs') | Hpre]; [contradiction | left; eauto |].
        right. destruct (findIndex_slug_found _ _ _ Hi) as (props & Hp & Hslug).
        rewrite (enforce_locked_frame _ _ _ _ _ H1 Hp); [rewrite <- Hp; exact Hpre |].
        unfold slug_of. cbn. rewrite Hslug. congruence.
Qed.

(** ** The merge *)

Lemma candidate_palette_inv (aiTheme v : json) :
  candidate_palette aiTheme = Some v ->
  exists props tj st col,
    aiTheme = JObj props /\
    prop_get "theme_json" props = Some (JObj tj) /\
    prop_get "settings" tj = Some (JObj st) /\
    prop_get "color" st = Some (JObj col) /\
    prop_get "palette" col = Some v.
Proof.
  unfold candidate_palette. intro H.
  apply get_inv in H. destruct H as (col & H & Hpal).
  apply get_inv in H. destruct H as (st & H & Hcol).
  apply get_inv in H. destruct H as (tj & H & Hst).
  apply get_inv in H. destruct H as (props & H & Htj).
  injection H as ->. exists props, tj, st, col. auto.
Qed.

Lemma with_palette_theme_json (aiTheme v : json) (items' : list json) :
  candidate_palette aiTheme = Some v ->
  exists tj',
    get (Some (with_palette aiTheme items')) "theme_json" = Some (JObj tj') /\
    get (get (get (Some (JObj tj')) "settings") "color") "palette" = Some (JArr items') /\
    get (Some (with_palette aiTheme items')) "patterns" = get (Some aiTheme) "patterns" /\
    get (Some (with_palette aiTheme items')) "template_front" = get (Some aiTheme) "template_front".
Proof.
  intro H. apply candidate_palette_inv in H.
  destruct H as (props & tj & st & col & -> & Htj & Hst & Hcol & Hpal).
  unfold with_palette. cbn [get]. rewrite Htj, Hst, Hcol.
  eexists. split; [apply get_set |]. split.
  - rewrite prop_get_set. cbn [get set]. rewrite prop_get_set. cbn [get].
    apply prop_get_set.
  - split; cbn [set]; (rewrite prop_get_set_other; [reflexivity | discriminate]).
Qed.

(** What a completed merge did to a candidate palette that is an array: it
    ran the locked-colour pass over it. *)
Lemma merge_palette_array (aiTheme : json) (project : Project) (theme : GeneratedTheme)
    (items : list json) :
  candidate_palette aiTheme = Some (JArr items) ->
  mergeWithLockedColors aiTheme project = Normal theme ->
  exists items',
    forEach_locked (lockedColorsOf project) items = Normal items' /\
    theme_palette theme = Some (JArr items').
Proof.
  intros Hc H. unfold mergeWithLockedColors in H. cbv zeta in H.
  pose proof (candidate_palette_inv _ _ Hc) as (props & tj & st & col & -> & Htj & Hst & Hcol & Hpal).
  rewrite Hc in H. cbn [truthy andb] in H.
  destruct (0 <? List.length (lockedColorsOf project))%nat eqn:Hlen.
  - apply bind_Normal in H. destruct H as (aiTheme' & H1 & H).
    apply bind_Normal in H1. destruct H1 as (items' & Hf & H1).
    injection H1 as <-. injection H as <-.
    exists items'. split; [exact Hf |].
    destruct (with_palette_theme_json _ _ items' Hc) as (tj' & Hg & Hp & _).
    unfold theme_palette. cbn [themeJson]. unfold get in Hg. rewrite Hg. exact Hp.
  - assert (Hnil : lockedColorsOf project = []).
    { destruct (lockedColorsOf project); [reflexivity | discriminate]. }
    rewrite Hnil. exists items. split; [reflexivity |].
    cbn [bind] in H. injection H as <-.
    unfold theme_palette. cbn [themeJson get]. rewrite Htj. cbn [json_or truthy get].
    rewrite Hst. cbn [get]. rewrite Hcol. exact Hpal.
Qed.

Lemma theme_palette_unmerged (aiTheme : json) :
  theme_palette (unmerged aiTheme) = candidate_palette aiTheme.
Proof.
  unfold theme_palette, candidate_palette, unmerged. cbn [themeJson].
  destruct (get (Some aiTheme) "theme_json") as [tj |]; cbn [json_or]; [| reflexivity].
  destruct (truthy tj) eqn:Ht; [reflexivity |].
  destruct tj; try discriminate Ht; reflexivity.
Qed.

Lemma merge_without_array (aiTheme : json) (project : Project) (theme : GeneratedTheme) :
  (forall items, candidate_palette aiTheme <> Some (JArr items)) ->
  mergeWithLockedColors aiTheme project = Normal theme ->
  theme = unmerged aiTheme.
Proof.
  intros Hc H. unfold mergeWithLockedColors in H. cbv zeta in H.
  assert (E : (aiTheme' <-
                 match candidate_palette aiTheme with
                 | Some aiPalette =>
                     if andb (truthy aiPalette) (0 <? List.length (lockedColorsOf project))%nat then
                       match aiPalette with
                       | JArr items =>
                           items' <- forEach_locked (lockedColorsOf project) items ;;
                           Normal (with_palette aiTheme items')
                       | _ => Throw
                       end
                     else Normal aiTheme
                 | None => Normal aiTheme
                 end ;; Normal (unmerged aiTheme')) = Normal theme).
  { destruct aiTheme; try discriminate H; exact H. }
  clear H. apply bind_Normal in E. destruct E as (aiTheme' & H1 & H2).
  injection H2 as <-. f_equal.
  destruct (candidate_palette aiTheme) as [aiPalette |] eqn:Hp; [| now injection H1 as <-].
  destruct (truthy aiPalette && (0 <? List.length (lockedColorsOf project))%nat)%bool;
    [| now injection H1 as <-].
  destruct aiPalette; try discriminate H1. exfalso. eapply Hc. reflexivity.
Qed.

(** A completed merge leaves a candidate palette that is not an array, or is
    missing, as it found it. *)
Lemma merge_palette_other (aiTheme : json) (project : Project) (theme : GeneratedTheme) :
  (forall items, candidate_palette aiTheme <> Some (JArr items)) ->
  mergeWithLockedColors aiTheme project = Normal theme ->
  theme_palette theme = candidate_palette aiTheme.
Proof.
  intros Hc H. rewrite (merge_without_array _ _ _ Hc H). apply theme_palette_unmerged.
Qed.

(** ** Locked colours *)

Lemma harmonizeToken_locked (primaryColor : string) (t : ColorToken) :
  locked t = true -> harmonizeToken primaryColor t = t.
Proof. intro H. unfold harmonizeToken. now rewrite H. Qed.

Lemma fixToken_locked (background : string) (t : ColorToken) :
  locked t = true -> fixToken background t = t.
Proof. intro H. unfold fixToken. now rewrite H. Qed.



Lemma NoDup_slug_unique (pal : list ColorToken) (t t' : ColorToken) :
  NoDup (map slug pal) -> In t pal -> In t' pal -> slug t' = slug t -> t' = t.
Proof.
  induction pal as [| a rest IH]; intros Hnd Ht Ht' Hs; [contradiction |].
  cbn in Hnd. inversion Hnd as [| ? ? Hnotin Hnd']; subst.
  destruct Ht as [-> | Ht], Ht' as [-> | Ht'].
  - reflexivity.
  - exfalso. apply Hnotin. rewrite <- Hs. now apply in_map.
  - exfalso. apply Hnotin. rewrite Hs. now apply in_map.
  - now apply IH.
Qed.



(** C4: a completed merge keeps the candidate palette's length and the slug of
    every element, and changes no element whose slug is the slug of no locked
    token; a palette that is missing, or is no array, is left as it is.  So a
    locked slug the candidate does not have is not in the merged palette
    either. *)
Theorem merge_palette_frame (aiTheme : json) (project : Project) (theme : GeneratedTheme) :
  mergeWithLockedColors aiTheme project = Normal theme ->
  match candidate_palette aiTheme with
  | Some (JArr items) =>
      exists items',
        theme_palette theme = Some (JArr items') /\
        List.length items' = List.length items /\
        map slug_of items' = map slug_of items /\
        (forall j p,
            nth_error items j = Some p ->
            (forall t, In t (lockedColorsOf project) -> slug_of p <> Some (JStr (slug t))) ->
            nth_error items' j = Some p) /\
        (forall t,
            In t (lockedColorsOf project) ->
            ~ In (Some (JStr (slug t))) (map slug_of items) ->
            ~ In (Some (JStr (slug t))) (map slug_of items'))
  | other => theme_palette theme = other
  end.
Proof.
  intro Hm.
  destruct (candidate_palette aiTheme) as [v |] eqn:Hc.
  - assert (Hother : (forall items, v <> JArr items) -> theme_palette theme = Some v).
    { intro Hv. rewrite <- Hc. apply (merge_palette_other _ project); [| exact Hm].
      intros items E. rewrite Hc in E. injection E as E. exact (Hv items E). }
    destruct v as [| | | | items |]; try (apply Hother; discriminate).
    clear Hother. destruct (merge_palette_array _ _ _ _ Hc Hm) as (items' & Hf & Hpal).
    pose proof (forEach_locked_same_slugs _ _ _ Hf) as Hsame.
    exists items'. split; [exact Hpal |].
    split; [now apply same_slugs_length |].
    split; [now apply same_slugs_map |].
    split.
    + intros j p Hj Hne. eapply forEach_locked_frame; eassumption.
    + intros t _ Hnot. rewrite (same_slugs_map _ _ Hsame). exact Hnot.
  - rewrite <- Hc. apply (merge_palette_other _ project); [| exact Hm].
    intros items E. rewrite Hc in E. discriminate E.
Qed.

Lemma palette_demo_NoDup : NoDup (map slug palette_demo).
Proof.
  cbn. repeat constructor; cbn; intuition discriminate.
Qed.



Lemma merge_palette_frame_witness :
  mergeWithLockedColors aiTheme_demo project_demo = Normal theme_demo /\
  exists items',
    theme_palette theme_demo = Some (JArr items') /\
    List.length items' = 2%nat /\
    map slug_of items' = [Some (JStr "accent"); Some (JStr "primary")] /\
    (forall j p,
        nth_error candidate_demo j = Some p ->
        (forall t, In t (lockedColorsOf project_demo) -> slug_of p <> Some (JStr (slug t))) ->
        nth_error items' j = Some p) /\
    (forall t,
        In t (lockedColorsOf project_demo) ->
        ~ In (Some (JStr (slug t))) (map slug_of candidate_demo) ->
        ~ In (Some (JStr (slug t))) (map slug_of items')).
Proof.
  split; [reflexivity |].
  exact (merge_palette_frame aiTheme_demo project_demo theme_demo eq_refl).
Defined.

(** ** Printing a colour *)

Lemma byte_values_In (n : Z) : (0 <= n <= 255)%Z -> In n byte_values.
Proof.
  intro H. unfold byte_values. rewrite <- (Z2Nat.id n) by lia.
  apply in_map. apply in_seq. lia.
Qed.

Lemma hex_channel_byte (x : Q) :
  (0 <= JS.Math_round x <= 255)%Z -> hex_channel x = two_hex (JS.Math_round x).
Proof.
  intro H. unfold hex_channel. cbv zeta.
  assert (A : forallb (fun n =>
                String.eqb
                  (if (String.length (JS.toString16 n) =? 1)%nat
                   then "0" ++ JS.toString16 n else JS.toString16 n)
                  (two_hex n)) byte_values = true) by (vm_compute; reflexivity).
  rewrite forallb_forall in A. apply String.eqb_eq. apply A. now apply byte_values_In.
Qed.

Lemma parse_two_hex (n : Z) (rest : string) :
  (0 <= n <= 255)%Z ->
  exists x y, two_hex n ++ rest = String x (String y rest) /\ parse_hex2 x y = Some n.
Proof.
  intro H. exists (hex_char (n / 16)), (hex_char (n mod 16)). split; [reflexivity |].
  assert (A : forallb (fun n =>
                match parse_hex2 (hex_char (n / 16)) (hex_char (n mod 16)) with
                | Some m => (m =? n)%Z
                | None => false
                end) byte_values = true) by (vm_compute; reflexivity).
  rewrite forallb_forall in A. specialize (A n (byte_values_In n H)).
  destruct (parse_hex2 _ _) as [m |]; [| discriminate].
  apply Z.eqb_eq in A. now subst.
Qed.

Lemma clamp255_id (n : Z) : (0 <= n <= 255)%Z -> clamp255 n = n.
Proof. unfold clamp255. lia. Qed.

(** C7 (as amended): when the three rounded channels lie in [0, 255],
    [rgbToHex] returns [#] and six lowercase hexadecimal digits, two per
    channel, that read back as the rounded channels. *)
Theorem rgbToHex_in_range (r g b : Q) :
  (0 <= JS.Math_round r <= 255)%Z ->
  (0 <= JS.Math_round g <= 255)%Z ->
  (0 <= JS.Math_round b <= 255)%Z ->
  rgbToHex r g b = spec_rgbToHex r g b /\
  String.length (rgbToHex r g b) = 7%nat /\
  hexToRgb (rgbToHex r g b) = Some (JS.Math_round r, JS.Math_round g, JS.Math_round b).
Proof.
  intros Hr Hg Hb.
  assert (E : rgbToHex r g b =
              "#" ++ two_hex (JS.Math_round r) ++ two_hex (JS.Math_round g)
                  ++ two_hex (JS.Math_round b) ++ "").
  { unfold rgbToHex. cbn [map JS.join].
    rewrite !hex_channel_byte by assumption. reflexivity. }
  split; [| split].
  - rewrite E. unfold spec_rgbToHex. rewrite !clamp255_id by assumption. reflexivity.
  - rewrite E. reflexivity.
  - rewrite E.
    destruct (parse_two_hex (JS.Math_round b) "" Hb) as (b1 & b2 & -> & Pb).
    destruct (parse_two_hex (JS.Math_round g) (String b1 (String b2 "")) Hg) as (g1 & g2 & -> & Pg).
    destruct (parse_two_hex (JS.Math_round r) (String g1 (String g2 (String b1 (String b2 "")))) Hr)
      as (r1 & r2 & -> & Pr).
    cbn [append hexToRgb six_hex]. now rewrite Pr, Pg, Pb.
Qed.

Lemma rgbToHex_in_range_witness :
  rgbToHex 59 (1299 # 10) 246 = spec_rgbToHex 59 (1299 # 10) 246 /\
  String.length (rgbToHex 59 (1299 # 10) 246) = 7%nat /\
  hexToRgb (rgbToHex 59 (1299 # 10) 246) = Some (59, 130, 246)%Z.
Proof.
  apply (rgbToHex_in_range 59 (1299 # 10) 246); vm_compute; split; discriminate.
Defined.

(** C7 (as stated) fails: [rgbToHex] does not clamp.  The channel 256 prints
    as three digits, where the specification's function gives [ff]. *)
Lemma rgbToHex_does_not_clamp :
  rgbToHex 256 0 0 = "#1000000" /\
  spec_rgbToHex 256 0 0 = "#ff0000" /\
  rgbToHex (-1) 0 0 = "#-10000" /\
  ~ (forall r g b : Q, rgbToHex r g b = spec_rgbToHex r g b).
Proof.
  repeat split; try (vm_compute; reflexivity).
  intro H. specialize (H 256%Q 0%Q 0%Q). vm_compute in H. discriminate H.
Qed.

(** ** The contrast guarantee *)

Lemma gamma_pow5 (x : R) : (0 < x)%R -> (Rpower x 2.4 ^ 5 = x ^ 12)%R.
Proof.
  intro Hx.
  rewrite <- (Rpower_pow 5) by (unfold Rpower; apply exp_pos).
  rewrite Rpower_mult.
  replace (2.4 * INR 5)%R with (INR 12) by (simpl; lra).
  now apply Rpower_pow.
Qed.

Lemma gamma_lower (x q : R) :
  (0 < x)%R -> (0 <= q)%R -> (q ^ 5 < x ^ 12)%R -> (q < Rpower x 2.4)%R.
Proof.
  intros Hx Hq H. destruct (Rlt_le_dec q (Rpower x 2.4)) as [Hlt | Hle]; [exact Hlt |].
  exfalso.
  assert (Hp : (0 <= Rpower x 2.4)%R) by (left; unfold Rpower; apply exp_pos).
  pose proof (pow_incr _ _ 5 (conj Hp Hle)) as Hi.
  rewrite gamma_pow5 in Hi by assumption. lra.
Qed.

Lemma gamma_upper (x q : R) :
  (0 < x)%R -> (0 <= q)%R -> (x ^ 12 < q ^ 5)%R -> (Rpower x 2.4 < q)%R.
Proof.
  intros Hx Hq H. destruct (Rlt_le_dec (Rpower x 2.4) q) as [Hlt | Hle]; [exact Hlt |].
  exfalso.
  pose proof (pow_incr _ _ 5 (conj Hq Hle)) as Hi.
  rewrite gamma_pow5 in Hi by assumption. lra.
Qed.

Lemma linearize_gamma (c : Z) :
  (11 <= c)%Z -> linearize c = Rpower ((IZR c / 255 + 0.055) / 1.055) 2.4.
Proof.
  intro H. unfold linearize. cbv zeta.
  destruct (Rle_dec (IZR c / 255) 0.03928) as [Hle | _]; [| reflexivity].
  exfalso. apply IZR_le in H. lra.
Qed.

Lemma linearize_128_bounds : (0.2125 < linearize 128 < 0.22)%R.
Proof.
  rewrite linearize_gamma by lia. split.
  - apply gamma_lower; lra.
  - apply gamma_upper; lra.
Qed.

Lemma getLuminance_grey : getLuminance "#808080" = linearize 128.
Proof.
  unfold getLuminance. change (hexToRgb "#808080") with (Some (128, 128, 128)%Z).
  cbv beta iota. lra.
Qed.

Lemma first_some_map {A B C : Type} (mk : A -> B) (body : B -> option C) (xs : list A) :
  JS.first_some (fun x => body (mk x)) xs = JS.first_some body (map mk xs).
Proof.
  induction xs as [| x xs IH]; cbn; [reflexivity |]. destruct (body (mk x)); [reflexivity | exact IH].
Qed.

Lemma first_some_none {B C : Type} (body : B -> option C) (ys : list B) :
  Forall (fun y => body y = None) ys -> JS.first_some body ys = None.
Proof. induction 1 as [| y ys Hy _ IH]; cbn; [reflexivity |]. now rewrite Hy. Qed.

(** What the two searches return meets the target. *)
Lemma first_some_meets {A : Type} (mk : A -> string) (background : string) (targetRatio : R)
    (xs : list A) (c : string) :
  JS.first_some
    (fun x => if Rgeb (getContrastRatio (mk x) background) targetRatio
              then Some (mk x) else None) xs = Some c ->
  (getContrastRatio c background >= targetRatio)%R.
Proof.
  induction xs as [| x xs IH]; cbn; [discriminate |].
  destruct (Rgeb (getContrastRatio (mk x) background) targetRatio) eqn:E.
  - intro H. injection H as <-. now apply Rgeb_true.
  - exact IH.
Qed.

Lemma contrast_vs_black (background : string) :
  getContrastRatio "#000000" background = ((getLuminance background + 0.05) / 0.05)%R.
Proof.
  unfold getContrastRatio. cbv zeta. rewrite getLuminance_black.
  pose proof (getLuminance_nonneg background).
  rewrite Rmax_right, Rmin_left by lra. f_equal. lra.
Qed.

Lemma contrast_vs_white (background : string) :
  (getLuminance background <= 1)%R ->
  getContrastRatio "#ffffff" background = (1.05 / (getLuminance background + 0.05))%R.
Proof.
  intro H. unfold getContrastRatio. cbv zeta. rewrite getLuminance_white.
  rewrite Rmax_left, Rmin_right by lra. f_equal. lra.
Qed.

(** Under exact evaluation the corrector is [adjustLightnessForContrast]. *)
Lemma adjust_exact (color background : string) (targetRatio : R) :
  adjustLightnessForContrast_fl getLuminance getContrastRatio color background targetRatio =
  adjustLightnessForContrast color background targetRatio.
Proof. reflexivity. Qed.

Lemma first_some_measured {A : Type} (measure : string -> R) (mk : A -> string)
    (targetRatio : R) (xs : list A) (c : string) :
  JS.first_some
    (fun x => if Rgeb (measure (mk x)) targetRatio then Some (mk x) else None) xs = Some c ->
  (measure c >= targetRatio)%R.
Proof.
  induction xs as [| x xs IH]; cbn; [discriminate |].
  destruct (Rgeb (measure (mk x)) targetRatio) eqn:E.
  - intro H. injection H as <-. now apply Rgeb_true.
  - exact IH.
Qed.

Lemma first_some_fails {A : Type} (measure : string -> R) (mk : A -> string)
    (targetRatio : R) (xs : list A) :
  JS.first_some
    (fun x => if Rgeb (measure (mk x)) targetRatio then Some (mk x) else None) xs = None ->
  forall x, In x xs -> (measure (mk x) < targetRatio)%R.
Proof.
  induction xs as [| y xs IH]; cbn; [intros _ x [] |].
  destruct (Rgeb (measure (mk y)) targetRatio) eqn:E; [discriminate |].
  intros H x [<- | Hx]; [now apply Rgeb_false | now apply IH].
Qed.

Lemma getContrastRatio_pos (color1 color2 : string) : (0 < getContrastRatio color1 color2)%R.
Proof.
  unfold getContrastRatio. cbv zeta.
  pose proof (getLuminance_nonneg color1) as H1.
  pose proof (getLuminance_nonneg color2) as H2.
  apply Rdiv_lt_0_compat.
  - unfold Rmax. destruct (Rle_dec _ _); lra.
  - unfold Rmin. destruct (Rle_dec _ _); lra.
Qed.

(** A measured ratio that reaches the target, within the relative error
    [eps] of the exact ratio. *)
Lemma measured_meets (eps measured exact r : R) :
  (0 <= eps)%R -> (0 < exact)%R ->
  (Rabs (measured - exact) <= eps * exact)%R ->
  (measured >= r)%R ->
  ((1 + eps) * exact >= r)%R.
Proof.
  intros He Hx Hclose Hm. unfold Rabs in Hclose.
  destruct (Rcase_abs (measured - exact)); lra.
Qed.

(** C2 (as amended): let the engine obtain every luminance within [eps] of
    its exact value and every contrast ratio within the relative error [eps]
    (the rounding of its binary64 computation; [eps] at most 0.1).  For a
    valid colour and a target [r] between 1 and 7 the exact contrast ratio of
    the result reaches [r] up to that rounding, [(1 + eps) * ratio >= r],
    unless neither the colour nor any scaled candidate was measured at [r] or
    more and the result is the white fall-back on a background whose
    luminance was measured at 0.5 or less and lies above [1.05 / r - 0.05]
    (and at most [0.5 + eps]). *)
Theorem adjust_contrast_guarantee (eps : R) (getLuminance_fl : string -> R)
    (getContrastRatio_fl : string -> string -> R) (color background : string)
    (cr cg cb : Z) (r : R) :
  (0 <= eps <= 1 / 10)%R ->
  (forall hex, Rabs (getLuminance_fl hex - getLuminance hex) <= eps)%R ->
  (forall color1 color2,
      Rabs (getContrastRatio_fl color1 color2 - getContrastRatio color1 color2)
      <= eps * getContrastRatio color1 color2)%R ->
  hexToRgb color = Some (cr, cg, cb) ->
  (1 <= r <= 7)%R ->
  let result :=
    adjustLightnessForContrast_fl getLuminance_fl getContrastRatio_fl color background r in
  ((1 + eps) * getContrastRatio result background >= r)%R \/
  (result = "#ffffff" /\
   (getLuminance_fl background <= 0.5)%R /\
   (1.05 / r - 0.05 < getLuminance background <= 0.5 + eps)%R /\
   (getContrastRatio_fl color background < r)%R /\
   (forall factor, In factor darker_factors ->
      (getContrastRatio_fl (darker_color cr cg cb factor) background < r)%R) /\
   (forall factor, In factor lighter_factors ->
      (getContrastRatio_fl (lighter_color cr cg cb factor) background < r)%R)).
Proof.
  intros Heps Hlum Hratio Hvalid Hr. cbv zeta.
  assert (Hmeets : forall c, (getContrastRatio_fl c background >= r)%R ->
                             ((1 + eps) * getContrastRatio c background >= r)%R).
  { intros c Hc. apply (measured_meets eps (getContrastRatio_fl c background));
      [lra | apply getContrastRatio_pos | apply Hratio | exact Hc]. }
  assert (Hexact : forall c, (getContrastRatio c background >= r)%R ->
                             ((1 + eps) * getContrastRatio c background >= r)%R).
  { intros c Hc. pose proof (getContrastRatio_pos c background). nra. }
  unfold adjustLightnessForContrast_fl. cbv zeta.
  destruct (Rgeb (getContrastRatio_fl color background) r) eqn:E0.
  { left. apply Hmeets. now apply Rgeb_true. }
  rewrite Hvalid.
  destruct (JS.first_some _ darker_factors) as [c |] eqn:Ed.
  { left. apply Hmeets.
    exact (first_some_measured (fun c => getContrastRatio_fl c background) _ _ _ _ Ed). }
  destruct (JS.first_some _ lighter_factors) as [c |] eqn:El.
  { left. apply Hmeets.
    exact (first_some_measured (fun c => getContrastRatio_fl c background) _ _ _ _ El). }
  pose proof (Hlum background) as Hb. unfold Rabs in Hb.
  destruct (Rgtb (getLuminance_fl background) 0.5) eqn:Eb.
  - left. apply Rgtb_true in Eb. apply Hexact. rewrite contrast_vs_black.
    apply Rle_ge. apply div_at_least; [lra |].
    destruct (Rcase_abs (getLuminance_fl background - getLuminance background)); lra.
  - apply Rgtb_false in Eb.
    assert (Hle5 : (getLuminance background <= 0.5 + eps)%R).
    { destruct (Rcase_abs (getLuminance_fl background - getLuminance background)); lra. }
    destruct (Rle_dec (getLuminance background) (1.05 / r - 0.05)) as [Hle | Hgt].
    + left. apply Hexact. rewrite contrast_vs_white by lra.
      pose proof (getLuminance_nonneg background) as H0.
      apply Rle_ge. apply div_at_least; [lra |].
      assert (Hm : (r * (getLuminance background + 0.05) <= r * (1.05 / r))%R).
      { apply Rmult_le_compat_l; lra. }
      replace (r * (1.05 / r))%R with 1.05%R in Hm by (field; lra). lra.
    + right. split; [reflexivity |]. split; [exact Eb |]. split; [lra |].
      split; [now apply Rgeb_false |]. split.
      * exact (first_some_fails (fun c => getContrastRatio_fl c background) _ _ _ Ed).
      * exact (first_some_fails (fun c => getContrastRatio_fl c background) _ _ _ El).
Qed.

Lemma adjust_contrast_guarantee_witness :
  (getContrastRatio (adjustLightnessForContrast "#808080" "#ffffff" 4.5) "#ffffff" >= 4.5)%R.
Proof.
  destruct (adjust_contrast_guarantee 0 getLuminance getContrastRatio "#808080" "#ffffff"
              128 128 128 4.5) as [H | (_ & _ & H & _)].
  - lra.
  - intro hex. rewrite Rminus_diag, Rabs_R0. lra.
  - intros color1 color2. rewrite Rminus_diag, Rabs_R0. lra.
  - reflexivity.
  - lra.
  - rewrite adjust_exact in H. lra.
  - rewrite getLuminance_white in H. lra.
Defined.

Lemma black_candidates_darker :
  Forall (eq "#000000") (map (darker_color 0 0 0) darker_factors).
Proof. vm_compute. repeat constructor. Qed.

Lemma black_candidates_lighter :
  Forall (eq "#000000") (map (lighter_color 0 0 0) lighter_factors).
Proof. vm_compute. repeat constructor. Qed.

Lemma adjust_black_on_grey : adjustLightnessForContrast "#000000" "#808080" 7 = "#ffffff".
Proof.
  pose proof linearize_128_bounds as Hb.
  assert (Hfail : Rgeb (getContrastRatio "#000000" "#808080") 7 = false).
  { apply Rgeb_false. rewrite contrast_vs_black, getLuminance_grey. lra. }
  unfold adjustLightnessForContrast. cbv zeta. rewrite Hfail.
  change (hexToRgb "#000000") with (Some (0, 0, 0)%Z). cbv beta iota.
  rewrite (first_some_map (darker_color 0 0 0)
             (fun c => if Rgeb (getContrastRatio c "#808080") 7 then Some c else None)).
  rewrite first_some_none.
  2:{ eapply Forall_impl; [| exact black_candidates_darker].
      intros c <-. now rewrite Hfail. }
  rewrite (first_some_map (lighter_color 0 0 0)
             (fun c => if Rgeb (getContrastRatio c "#808080") 7 then Some c else None)).
  rewrite first_some_none.
  2:{ eapply Forall_impl; [| exact black_candidates_lighter].
      intros c <-. now rewrite Hfail. }
  assert (Hdark : Rgtb (getLuminance "#808080") 0.5 = false).
  { apply Rgtb_false. rewrite getLuminance_grey. lra. }
  now rewrite Hdark.
Qed.

(** C2 (as stated) fails: for black on the grey [#808080] and the target 7
    the corrector returns white, whose ratio against that grey is below 4. *)
Lemma adjust_misses_target :
  hexToRgb "#000000" <> None /\
  hexToRgb "#808080" <> None /\
  (1 <= 7 <= 7)%R /\
  (getContrastRatio (adjustLightnessForContrast "#000000" "#808080" 7) "#808080" < 4)%R /\
  ~ (forall (color background : string) (r : R),
       hexToRgb color <> None -> hexToRgb background <> None -> (1 <= r <= 7)%R ->
       (getContrastRatio (adjustLightnessForContrast color background r) background >= r)%R).
Proof.
  pose proof linearize_128_bounds as Hb.
  assert (Hlt : (getContrastRatio (adjustLightnessForContrast "#000000" "#808080" 7) "#808080" < 4)%R).
  { rewrite adjust_black_on_grey, contrast_vs_white by (rewrite getLuminance_grey; lra).
    rewrite getLuminance_grey. apply div_below; lra. }
  repeat split; try discriminate; try lra.
  intro H.
  specialize (H "#000000" "#808080" 7%R ltac:(discriminate) ltac:(discriminate) ltac:(lra)).
  lra.
Qed.

(** ** The fall-back at the default target

    White text on the grey [#808080] at the target 4.5: no scaled candidate
    qualifies, the background's luminance is below 0.5, and the corrector
    returns white again, although black would meet the target. *)

Lemma getLuminance_level (hex : string) (k : Z) :
  hexToRgb hex = Some (k, k, k) -> getLuminance hex = linearize k.
Proof. intro H. unfold getLuminance. rewrite H. lra. Qed.

Lemma contrast_below (c1 c2 : string) (r : R) :
  (getLuminance c1 + 0.05 < r * (getLuminance c2 + 0.05))%R ->
  (getLuminance c2 + 0.05 < r * (getLuminance c1 + 0.05))%R ->
  (getContrastRatio c1 c2 < r)%R.
Proof.
  intros H1 H2. unfold getContrastRatio. cbv zeta.
  pose proof (getLuminance_nonneg c1). pose proof (getLuminance_nonneg c2).
  unfold Rmax, Rmin.
  destruct (Rle_dec (getLuminance c1) (getLuminance c2)); apply div_below; lra.
Qed.

Lemma gamma_le_1 (x : R) : (0 < x <= 1)%R -> (Rpower x 2.4 <= 1)%R.
Proof.
  intros [H0 [Hlt | ->]].
  - left. unfold Rpower. rewrite <- exp_0. apply exp_increasing.
    pose proof (ln_increasing x 1 H0 Hlt) as Hln. rewrite ln_1 in Hln. lra.
  - right. unfold Rpower. rewrite ln_1, Rmult_0_r. apply exp_0.
Qed.

Lemma linearize_le_1 (c : Z) : (0 <= c <= 255)%Z -> (linearize c <= 1)%R.
Proof.
  intros [H0 H1]. apply IZR_le in H0. apply IZR_le in H1.
  unfold linearize. cbv zeta. destruct (Rle_dec (IZR c / 255) 0.03928) as [Hle | Hgt].
  - lra.
  - apply gamma_le_1. split.
    + apply Rdiv_lt_0_compat; lra.
    + lra.
Qed.

Lemma linearize_lower (c : Z) : (26 <= c)%Z -> (0.01 < linearize c)%R.
Proof.
  intro H. rewrite linearize_gamma by lia. apply IZR_le in H.
  assert (Hx : (0.1487 <= (IZR c / 255 + 0.055) / 1.055)%R) by (apply div_at_least; lra).
  apply gamma_lower; [lra | lra |].
  apply Rlt_le_trans with (0.1487 ^ 12)%R; [lra |].
  apply pow_incr. lra.
Qed.

Lemma white_candidates_darker :
  map (darker_color 255 255 255) darker_factors =
  ["#e6e6e6"; "#cccccc"; "#b3b3b3"; "#999999"; "#808080"; "#666666"; "#4d4d4d"; "#333333";
   "#1a1a1a"].
Proof. vm_compute. reflexivity. Qed.

Lemma white_candidates_lighter :
  Forall (eq "#ffffff") (map (lighter_color 255 255 255) lighter_factors).
Proof. vm_compute. repeat constructor. Qed.

(** A grey between [#1a1a1a] and white stays below 4.5 against [#808080]. *)
Lemma grey_level_below (hex : string) (k : Z) :
  hexToRgb hex = Some (k, k, k) -> (26 <= k <= 255)%Z ->
  Rgeb (getContrastRatio hex "#808080") 4.5 = false.
Proof.
  intros Hk Hr. apply Rgeb_false. pose proof linearize_128_bounds as Hb.
  pose proof (linearize_lower k (proj1 Hr)) as Hlo.
  pose proof (linearize_le_1 k ltac:(lia)) as Hhi.
  apply contrast_below; rewrite (getLuminance_level hex k Hk), getLuminance_grey; lra.
Qed.

Lemma adjust_white_on_grey :
  adjustLightnessForContrast "#ffffff" "#808080" 4.5 = "#ffffff" /\
  (getContrastRatio "#ffffff" "#808080" < 4)%R /\
  (getContrastRatio "#000000" "#808080" > 5)%R.
Proof.
  pose proof linearize_128_bounds as Hb.
  assert (Hfail : Rgeb (getContrastRatio "#ffffff" "#808080") 4.5 = false).
  { apply (grey_level_below "#ffffff" 255); [reflexivity | lia]. }
  split; [| split].
  - unfold adjustLightnessForContrast. cbv zeta. rewrite Hfail.
    change (hexToRgb "#ffffff") with (Some (255, 255, 255)%Z). cbv beta iota.
    rewrite (first_some_map (darker_color 255 255 255)
               (fun c => if Rgeb (getContrastRatio c "#808080") 4.5 then Some c else None)).
    rewrite white_candidates_darker, first_some_none.
    2:{ repeat constructor;
        match goal with
        | |- (if Rgeb (getContrastRatio ?c _) _ then _ else _) = None =>
            let k := eval vm_compute in (match hexToRgb c with Some (r, _, _) => r | None => 0%Z end) in
            rewrite (grey_level_below c k); [reflexivity | reflexivity | lia]
        end. }
    rewrite (first_some_map (lighter_color 255 255 255)
               (fun c => if Rgeb (getContrastRatio c "#808080") 4.5 then Some c else None)).
    rewrite first_some_none.
    2:{ eapply Forall_impl; [| exact white_candidates_lighter].
        intros c <-. now rewrite Hfail. }
    assert (Hdark : Rgtb (getLuminance "#808080") 0.5 = false).
    { apply Rgtb_false. rewrite getLuminance_grey. lra. }
    now rewrite Hdark.
  - rewrite contrast_vs_white by (rewrite getLuminance_grey; lra).
    rewrite getLuminance_grey. apply div_below; lra.
  - rewrite contrast_vs_black, getLuminance_grey. lra.
Qed.

(** * Further properties of the colour arithmetic *)

(** X1: the contrast ratio does not depend on the order of its two colours. *)
Theorem contrast_symmetric (color1 color2 : string) :
  getContrastRatio color1 color2 = getContrastRatio color2 color1.
Proof.
  unfold getContrastRatio. cbv zeta.
  now rewrite (Rmax_comm (getLuminance color1)), (Rmin_comm (getLuminance color1)).
Qed.

Lemma getLuminance_le_1 (hex : string) : (getLuminance hex <= 1)%R.
Proof.
  unfold getLuminance. destruct (hexToRgb hex) as [[[r g] b] |] eqn:H; [| lra].
  apply hexToRgb_range in H. destruct H as (Hr & Hg & Hb).
  pose proof (linearize_le_1 r Hr). pose proof (linearize_le_1 g Hg).
  pose proof (linearize_le_1 b Hb). lra.
Qed.

(** X2: the luminance of every string lies between 0 and 1; a string that is
    no colour has luminance 0. *)
Theorem luminance_range (hex : string) :
  (0 <= getLuminance hex <= 1)%R /\ (hexToRgb hex = None -> getLuminance hex = 0%R).
Proof.
  split; [split; [apply getLuminance_nonneg | apply getLuminance_le_1] |].
  intro H. unfold getLuminance. now rewrite H.
Qed.

(** X3: the contrast ratio of any two strings lies between 1 and 21, and a
    colour has ratio 1 against itself. *)
Theorem contrast_range (color1 color2 : string) :
  (1 <= getContrastRatio color1 color2 <= 21)%R /\ getContrastRatio color1 color1 = 1%R.
Proof.
  pose proof (conj (getLuminance_nonneg color1) (getLuminance_le_1 color1)) as H1.
  pose proof (conj (getLuminance_nonneg color2) (getLuminance_le_1 color2)) as H2.
  split; [split |].
  - unfold getContrastRatio. cbv zeta. apply div_at_least.
    + unfold Rmin. destruct (Rle_dec _ _); lra.
    + unfold Rmax, Rmin. destruct (Rle_dec _ _); lra.
  - unfold getContrastRatio. cbv zeta.
    assert (D : forall a b : R, (0 < b)%R -> (a <= 21 * b)%R -> (a / b <= 21)%R).
    { intros a b Hb Hab. apply Rmult_le_reg_r with b; [exact Hb |].
      unfold Rdiv. rewrite Rmult_assoc, Rinv_l by lra. lra. }
    apply D; unfold Rmax, Rmin; destruct (Rle_dec _ _); lra.
  - unfold getContrastRatio. cbv zeta.
    unfold Rmax, Rmin. destruct (Rle_dec _ _); field; lra.
Qed.
Lemma Math_round_integer (n : Z) : JS.Math_round (inject_Z n) = n.
Proof.
  unfold JS.Math_round, Qfloor, Qplus, inject_Z. cbn [Qnum Qden].
  rewrite Z.mul_1_l. change (Z.pos (1 * 2)) with 2%Z.
  symmetry. apply Z.div_unique with 1%Z; lia.
Qed.

(** Printing three channel values, then reading them back. *)
Lemma rgbToHex_bytes (r g b : Z) :
  (0 <= r <= 255)%Z -> (0 <= g <= 255)%Z -> (0 <= b <= 255)%Z ->
  rgbToHex (inject_Z r) (inject_Z g) (inject_Z b) = "#" ++ two_hex r ++ two_hex g ++ two_hex b /\
  hexToRgb (rgbToHex (inject_Z r) (inject_Z g) (inject_Z b)) = Some (r, g, b).
Proof.
  intros Hr Hg Hb.
  assert (E : rgbToHex (inject_Z r) (inject_Z g) (inject_Z b) =
              "#" ++ two_hex r ++ two_hex g ++ two_hex b ++ "").
  { unfold rgbToHex. cbn [map JS.join].
    rewrite !hex_channel_byte by (rewrite Math_round_integer; assumption).
    rewrite !Math_round_integer. reflexivity. }
  split; [rewrite E; reflexivity |]. rewrite E.
  destruct (parse_two_hex b "" Hb) as (b1 & b2 & -> & Pb).
  destruct (parse_two_hex g (String b1 (String b2 "")) Hg) as (g1 & g2 & -> & Pg).
  destruct (parse_two_hex r (String g1 (String g2 (String b1 (String b2 "")))) Hr)
    as (r1 & r2 & -> & Pr).
  cbn [append hexToRgb six_hex]. now rewrite Pr, Pg, Pb.
Qed.

Lemma all_ascii_In (c : ascii) : In c (map ascii_of_nat (seq 0 256)).
Proof.
  rewrite <- (ascii_nat_embedding c). apply in_map. apply in_seq.
  pose proof (nat_ascii_bounded c). lia.
Qed.

Lemma hex_digit_lower (c : ascii) (d : Z) :
  hex_digit c = Some d -> hex_char d = lower c /\ (0 <= d <= 15)%Z.
Proof.
  assert (A : forallb (fun c =>
                match hex_digit c with
                | Some d => andb (Ascii.eqb (hex_char d) (lower c))
                                 (andb (0 <=? d)%Z (d <=? 15)%Z)
                | None => true
                end) (map ascii_of_nat (seq 0 256)) = true) by (vm_compute; reflexivity).
  rewrite forallb_forall in A. specialize (A c (all_ascii_In c)).
  intro H. rewrite H in A.
  apply andb_true_iff in A. destruct A as [A1 A2].
  apply andb_true_iff in A2. destruct A2 as [A2 A3].
  apply Ascii.eqb_eq in A1. split; [exact A1 | lia].
Qed.

Lemma parse_hex2_digits (x y : ascii) (n : Z) :
  parse_hex2 x y = Some n ->
  exists a b, hex_digit x = Some a /\ hex_digit y = Some b /\ n = (16 * a + b)%Z.
Proof.
  unfold parse_hex2.
  destruct (hex_digit x) as [a |]; [| discriminate].
  destruct (hex_digit y) as [b |]; [| discriminate].
  intro H. injection H as <-. exists a, b. auto.
Qed.

Lemma parse_hex2_lower (x y : ascii) (n : Z) :
  parse_hex2 x y = Some n -> two_hex n = String (lower x) (String (lower y) EmptyString).
Proof.
  intro H. apply parse_hex2_digits in H. destruct H as (a & b & Ha & Hb & ->).
  apply hex_digit_lower in Ha. apply hex_digit_lower in Hb.
  destruct Ha as [<- Ha], Hb as [<- Hb].
  unfold two_hex.
  replace ((16 * a + b) / 16)%Z with a by (apply Z.div_unique with b; lia).
  replace ((16 * a + b) mod 16)%Z with b by (apply Z.mod_unique with a; lia).
  reflexivity.
Qed.

Lemma six_hex_canonical (s : string) (r g b : Z) :
  six_hex s = Some (r, g, b) ->
  "#" ++ two_hex r ++ two_hex g ++ two_hex b = "#" ++ lowercase s.
Proof.
  unfold six_hex.
  destruct s as [| r1 [| r2 [| g1 [| g2 [| b1 [| b2 [| ? ?]]]]]]]; try discriminate.
  destruct (parse_hex2 r1 r2) eqn:Hr; [| discriminate].
  destruct (parse_hex2 g1 g2) eqn:Hg; [| discriminate].
  destruct (parse_hex2 b1 b2) eqn:Hb; [| discriminate].
  intro H. injection H as <- <- <-.
  rewrite (parse_hex2_lower _ _ _ Hr), (parse_hex2_lower _ _ _ Hg), (parse_hex2_lower _ _ _ Hb).
  reflexivity.
Qed.

Lemma hexToRgb_six_hex (hex : string) (r g b : Z) :
  hexToRgb hex = Some (r, g, b) ->
  exists s, six_hex s = Some (r, g, b) /\ canonical_hex hex = "#" ++ lowercase s /\
            (hex = s \/ hex = String "#" s).
Proof.
  unfold hexToRgb, canonical_hex. destruct hex as [| c rest]; [discriminate |].
  destruct (Ascii.eqb c "#") eqn:Hc.
  - apply Ascii.eqb_eq in Hc. subst. intro H. exists rest. auto.
  - intro H. exists (String c rest).
    destruct c as [[] [] [] [] [] [] [] []]; try discriminate Hc; auto.
Qed.

(** X4: a string [hexToRgb] accepts has six hexadecimal digits after an
    optional [#]; printing the channels it yields gives the string in
    canonical form (leading [#], lowercase), which reads back as the same
    channels. *)
Theorem hex_round_trip (hex : string) (r g b : Z) :
  hexToRgb hex = Some (r, g, b) ->
  (String.length hex = 6%nat \/ String.length hex = 7%nat) /\
  rgbToHex (inject_Z r) (inject_Z g) (inject_Z b) = canonical_hex hex /\
  hexToRgb (canonical_hex hex) = Some (r, g, b).
Proof.
  intro H. pose proof (hexToRgb_range _ _ _ _ H) as (Hr & Hg & Hb).
  destruct (hexToRgb_six_hex _ _ _ _ H) as (s & Hs & Hcan & Hshape).
  destruct (rgbToHex_bytes r g b Hr Hg Hb) as (E & Hback).
  assert (Hlen : String.length s = 6%nat).
  { unfold six_hex in Hs.
    destruct s as [| ? [| ? [| ? [| ? [| ? [| ? [| ? ?]]]]]]]; try discriminate Hs.
    reflexivity. }
  split; [| split].
  - destruct Hshape as [-> | ->]; cbn [String.length]; auto.
  - rewrite E, Hcan. now apply six_hex_canonical.
  - rewrite Hcan, <- (six_hex_canonical s r g b Hs), <- E. exact Hback.
Qed.

Lemma hex_round_trip_witness :
  (String.length "3B82f6" = 6%nat \/ String.length "3B82f6" = 7%nat) /\
  rgbToHex (inject_Z 59) (inject_Z 130) (inject_Z 246) = canonical_hex "3B82f6" /\
  hexToRgb (canonical_hex "3B82f6") = Some (59, 130, 246)%Z.
Proof. exact (hex_round_trip "3B82f6" 59 130 246 eq_refl). Defined.

(** The linear and the gamma segment of the channel curve join without a
    drop, and each is increasing. *)
Lemma linearize_monotone (c1 c2 : Z) :
  (0 <= c1 <= c2)%Z -> (linearize c1 <= linearize c2)%R.
Proof.
  intros [H0 H12].
  destruct (Z_le_gt_dec c2 10) as [Hc2 | Hc2].
  - (* both on the linear segment *)
    unfold linearize. cbv zeta.
    apply IZR_le in H0, H12, Hc2.
    destruct (Rle_dec (IZR c1 / 255) 0.03928); [| exfalso; lra].
    destruct (Rle_dec (IZR c2 / 255) 0.03928); [| exfalso; lra].
    lra.
  - rewrite (linearize_gamma c2) by lia.
    destruct (Z_le_gt_dec c1 10) as [Hc1 | Hc1].
    + (* across the threshold *)
      apply Rle_trans with 0.0031%R.
      * unfold linearize. cbv zeta. apply IZR_le in H0, Hc1.
        destruct (Rle_dec (IZR c1 / 255) 0.03928); [lra | exfalso; lra].
      * left. assert (H11 : (11 <= c2)%Z) by lia. apply IZR_le in H11.
        assert (Hx : (0.093 <= (IZR c2 / 255 + 0.055) / 1.055)%R)
          by (apply div_at_least; lra).
        apply gamma_lower; [lra | lra |].
        apply Rlt_le_trans with (0.093 ^ 12)%R; [lra |].
        apply pow_incr. lra.
    + rewrite (linearize_gamma c1) by lia.
      assert (H11 : (11 <= c1)%Z) by lia. apply IZR_le in H11, H12.
      apply Rle_Rpower_l; [lra |]. split.
      * apply Rdiv_lt_0_compat; lra.
      * apply div_at_least; [lra |].
        unfold Rdiv. rewrite Rmult_assoc, Rinv_l by lra. lra.
Qed.

(** X5: a colour whose three channels are no larger than another's has no
    larger luminance. *)
Theorem luminance_monotone (hex1 hex2 : string) (r1 g1 b1 r2 g2 b2 : Z) :
  hexToRgb hex1 = Some (r1, g1, b1) ->
  hexToRgb hex2 = Some (r2, g2, b2) ->
  (r1 <= r2)%Z -> (g1 <= g2)%Z -> (b1 <= b2)%Z ->
  (getLuminance hex1 <= getLuminance hex2)%R.
Proof.
  intros H1 H2 Hr Hg Hb. unfold getLuminance. rewrite H1, H2.
  apply hexToRgb_range in H1. destruct H1 as (Hr1 & Hg1 & Hb1).
  pose proof (linearize_monotone r1 r2 ltac:(lia)).
  pose proof (linearize_monotone g1 g2 ltac:(lia)).
  pose proof (linearize_monotone b1 b2 ltac:(lia)).
  lra.
Qed.

Lemma luminance_monotone_witness :
  (getLuminance "#102030" <= getLuminance "#112233")%R.
Proof.
  apply (luminance_monotone "#102030" "#112233" 16 32 48 17 34 51);
    try reflexivity; discriminate.
Defined.

(** * Further properties of the contrast corrector *)

(** Scaling a channel by a factor of the darker search keeps it between 0 and
    its value; scaling by a factor of the lighter search and clamping keeps it
    between its value and 255. *)
Lemma scale_darker_range (c : Z) (f : float) :
  (0 <= c <= 255)%Z -> In f darker_factors -> (0 <= scale c f <= c)%Z.
Proof.
  intros Hc Hf.
  assert (A : forallb (fun c => forallb (fun f =>
                andb (0 <=? scale c f)%Z (scale c f <=? c)%Z) darker_factors)
                byte_values = true) by (vm_compute; reflexivity).
  rewrite forallb_forall in A. specialize (A c (byte_values_In c Hc)).
  rewrite forallb_forall in A. specialize (A f Hf).
  apply andb_true_iff in A. lia.
Qed.

Lemma scale_lighter_range (c : Z) (f : float) :
  (0 <= c <= 255)%Z -> In f lighter_factors -> (c <= Z.min 255 (scale c f) <= 255)%Z.
Proof.
  intros Hc Hf.
  assert (A : forallb (fun c => forallb (fun f =>
                (c <=? Z.min 255 (scale c f))%Z) lighter_factors)
                byte_values = true) by (vm_compute; reflexivity).
  rewrite forallb_forall in A. specialize (A c (byte_values_In c Hc)).
  rewrite forallb_forall in A. specialize (A f Hf).
  lia.
Qed.

Lemma darker_color_channels (r g b : Z) (f : float) :
  (0 <= r <= 255)%Z -> (0 <= g <= 255)%Z -> (0 <= b <= 255)%Z -> In f darker_factors ->
  hexToRgb (darker_color r g b f) = Some (scale r f, scale g f, scale b f).
Proof.
  intros Hr Hg Hb Hf. unfold darker_color. cbv zeta.
  apply rgbToHex_bytes;
    match goal with
    | |- (0 <= scale ?c f <= 255)%Z =>
        pose proof (scale_darker_range c f ltac:(assumption) Hf); lia
    end.
Qed.

Lemma lighter_color_channels (r g b : Z) (f : float) :
  (0 <= r <= 255)%Z -> (0 <= g <= 255)%Z -> (0 <= b <= 255)%Z -> In f lighter_factors ->
  hexToRgb (lighter_color r g b f) =
  Some (Z.min 255 (scale r f), Z.min 255 (scale g f), Z.min 255 (scale b f)).
Proof.
  intros Hr Hg Hb Hf. unfold lighter_color. cbv zeta.
  apply rgbToHex_bytes;
    match goal with
    | |- (0 <= Z.min 255 (scale ?c f) <= 255)%Z =>
        pose proof (scale_lighter_range c f ltac:(assumption) Hf); lia
    end.
Qed.

(** What a search returns is one of its candidates. *)
Lemma first_some_candidate {A : Type} (mk : A -> string) (test : string -> bool)
    (xs : list A) (c : string) :
  JS.first_some (fun x => if test (mk x) then Some (mk x) else None) xs = Some c ->
  exists x, In x xs /\ c = mk x.
Proof.
  induction xs as [| x xs IH]; cbn; [discriminate |].
  destruct (test (mk x)).
  - intro H. injection H as <-. eauto.
  - intro H. destruct (IH H) as (y & Hy & ->). eauto.
Qed.

(** X6: the corrector returns a string that is no colour unchanged, whatever
    the background and the target; and from a colour it never produces a
    string that is no colour. *)
Theorem adjust_well_formed (color background : string) (targetRatio : R) :
  (hexToRgb color = None ->
   adjustLightnessForContrast color background targetRatio = color) /\
  (hexToRgb color <> None ->
   hexToRgb (adjustLightnessForContrast color background targetRatio) <> None).
Proof.
  unfold adjustLightnessForContrast. cbv zeta. split.
  - intro H. rewrite H. now destruct (Rgeb _ _).
  - intro H. destruct (Rgeb (getContrastRatio color background) targetRatio); [exact H |].
    destruct (hexToRgb color) as [[[r g] b] |] eqn:Hc; [| contradiction].
    apply hexToRgb_range in Hc. destruct Hc as (Hr & Hg & Hb).
    destruct (JS.first_some _ darker_factors) as [c |] eqn:Ed.
    { apply (first_some_candidate (darker_color r g b)
               (fun c => Rgeb (getContrastRatio c background) targetRatio)) in Ed.
      destruct Ed as (f & Hf & ->). now rewrite darker_color_channels. }
    destruct (JS.first_some _ lighter_factors) as [c |] eqn:El.
    { apply (first_some_candidate (lighter_color r g b)
               (fun c => Rgeb (getContrastRatio c background) targetRatio)) in El.
      destruct El as (f & Hf & ->). now rewrite lighter_color_channels. }
    destruct (Rgtb _ _); discriminate.
Qed.

Lemma adjust_well_formed_witness :
  adjustLightnessForContrast "rebeccapurple" "#ffffff" 4.5 = "rebeccapurple" /\
  hexToRgb (adjustLightnessForContrast "#777777" "#ffffff" 4.5) <> None.
Proof.
  split.
  - apply (adjust_well_formed "rebeccapurple" "#ffffff" 4.5). reflexivity.
  - apply (adjust_well_formed "#777777" "#ffffff" 4.5). discriminate.
Defined.

(** X7: every candidate of the darker search is channel by channel no
    lighter than the colour, so its luminance is no larger; every candidate of
    the lighter search is no darker, so its luminance is no smaller. *)
Theorem search_direction (color : string) (r g b : Z) (f : float) :
  hexToRgb color = Some (r, g, b) ->
  (In f darker_factors ->
   (getLuminance (darker_color r g b f) <= getLuminance color)%R) /\
  (In f lighter_factors ->
   (getLuminance color <= getLuminance (lighter_color r g b f))%R).
Proof.
  intro Hc. pose proof (hexToRgb_range _ _ _ _ Hc) as (Hr & Hg & Hb).
  split; intro Hf; unfold getLuminance at 1 2; rewrite Hc.
  - rewrite darker_color_channels by assumption.
    pose proof (scale_darker_range r f Hr Hf). pose proof (scale_darker_range g f Hg Hf).
    pose proof (scale_darker_range b f Hb Hf).
    pose proof (linearize_monotone (scale r f) r ltac:(lia)).
    pose proof (linearize_monotone (scale g f) g ltac:(lia)).
    pose proof (linearize_monotone (scale b f) b ltac:(lia)). lra.
  - rewrite lighter_color_channels by assumption.
    pose proof (scale_lighter_range r f Hr Hf). pose proof (scale_lighter_range g f Hg Hf).
    pose proof (scale_lighter_range b f Hb Hf).
    pose proof (linearize_monotone r (Z.min 255 (scale r f)) ltac:(lia)).
    pose proof (linearize_monotone g (Z.min 255 (scale g f)) ltac:(lia)).
    pose proof (linearize_monotone b (Z.min 255 (scale b f)) ltac:(lia)). lra.
Qed.

Lemma search_direction_witness :
  (getLuminance (darker_color 59 130 246 0.9%float) <= getLuminance "#3b82f6")%R /\
  (getLuminance "#3b82f6" <= getLuminance (lighter_color 59 130 246 1.1%float))%R.
Proof.
  destruct (search_direction "#3b82f6" 59 130 246 0.9%float eq_refl) as [H1 _].
  destruct (search_direction "#3b82f6" 59 130 246 1.1%float eq_refl) as [_ H2].
  split; [apply H1 | apply H2]; vm_compute; auto.
Defined.

(** * Further properties of the palette harmoniser *)

Lemma harmonizeToken_fields (primaryColor : string) (t : ColorToken) :
  slug (harmonizeToken primaryColor t) = slug t /\
  locked (harmonizeToken primaryColor t) = locked t /\
  source (harmonizeToken primaryColor t) = source t.
Proof.
  unfold harmonizeToken.
  destruct (locked t) eqn:Hl;
    [| destruct (String.eqb (slug t) "primary");
       [| destruct (hexToRgb (color t)) as [[[r g] b] |];
          [destruct (hexToRgb primaryColor) as [[[pr pg] pb] |] |]]];
    repeat split; cbn; try reflexivity; exact Hl.
Qed.

(** X8: [harmonizeColors] returns a palette of the same length whose tokens
    keep, place by place, their slug, lock flag and source: nothing but
    colours can change. *)
Theorem harmonizeColors_shape (palette : list ColorToken) (primaryColor : string) :
  List.length (harmonizeColors palette primaryColor) = List.length palette /\
  map slug (harmonizeColors palette primaryColor) = map slug palette /\
  map locked (harmonizeColors palette primaryColor) = map locked palette /\
  map source (harmonizeColors palette primaryColor) = map source palette.
Proof.
  unfold harmonizeColors. split; [apply length_map |].
  rewrite !map_map.
  repeat split; apply map_ext; intro t; apply harmonizeToken_fields.
Qed.

(** The blend of two channel values is a channel value within half a unit of
    nine tenths of the first plus one tenth of the second, and between the
    two. *)
Lemma blend_range (c p : Z) :
  (0 <= c <= 255)%Z -> (0 <= p <= 255)%Z ->
  (Z.min c p <= blend c p <= Z.max c p)%Z /\
  (-5 <= 10 * blend c p - (9 * c + p) <= 5)%Z.
Proof.
  intros Hc Hp.
  assert (A : forallb (fun c => forallb (fun p =>
                let v := blend c p in
                andb (andb (Z.min c p <=? v)%Z (v <=? Z.max c p)%Z)
                     (andb (-5 <=? 10 * v - (9 * c + p))%Z
                           (10 * v - (9 * c + p) <=? 5)%Z)) byte_values)
                byte_values = true) by (vm_cast_no_check (eq_refl true)).
  rewrite forallb_forall in A. specialize (A c (byte_values_In c Hc)).
  rewrite forallb_forall in A. specialize (A p (byte_values_In p Hp)).
  cbv zeta in A. rewrite !andb_true_iff in A. lia.
Qed.

(** X9: an unlocked token other than [primary], with a well-formed colour,
    harmonised around a well-formed primary colour, gets a well-formed colour
    whose channels are the rounded 90/10 blends: each lies between the
    token's and the primary's channel, within half a unit of the exact
    blend. *)
Theorem harmonize_blend (primaryColor : string) (t : ColorToken) (r g b pr pg pb : Z) :
  locked t = false ->
  slug t <> "primary" ->
  hexToRgb (color t) = Some (r, g, b) ->
  hexToRgb primaryColor = Some (pr, pg, pb) ->
  hexToRgb (color (harmonizeToken primaryColor t)) = Some (blend r pr, blend g pg, blend b pb) /\
  (Z.min r pr <= blend r pr <= Z.max r pr)%Z /\
  (Z.min g pg <= blend g pg <= Z.max g pg)%Z /\
  (Z.min b pb <= blend b pb <= Z.max b pb)%Z /\
  (-5 <= 10 * blend r pr - (9 * r + pr) <= 5)%Z /\
  (-5 <= 10 * blend g pg - (9 * g + pg) <= 5)%Z /\
  (-5 <= 10 * blend b pb - (9 * b + pb) <= 5)%Z.
Proof.
  intros Hl Hs Hc Hp.
  pose proof (hexToRgb_range _ _ _ _ Hc) as (Hr & Hg & Hb).
  pose proof (hexToRgb_range _ _ _ _ Hp) as (Hpr & Hpg & Hpb).
  destruct (blend_range r pr Hr Hpr) as [R1 R2].
  destruct (blend_range g pg Hg Hpg) as [G1 G2].
  destruct (blend_range b pb Hb Hpb) as [B1 B2].
  split; [| tauto].
  unfold harmonizeToken. rewrite Hl.
  apply String.eqb_neq in Hs. rewrite Hs, Hc, Hp. cbn [color with_color].
  apply rgbToHex_bytes; lia.
Qed.

Lemma harmonize_blend_witness :
  hexToRgb (color (harmonizeToken "#3b82f6"
    {| slug := "accent"; color := "#ffffff"; locked := false; source := None |}))
  = Some (blend 255 59, blend 255 130, blend 255 246).
Proof.
  apply (harmonize_blend "#3b82f6"
           {| slug := "accent"; color := "#ffffff"; locked := false; source := None |}
           255 255 255 59 130 246); try reflexivity. discriminate.
Defined.

(** X10: with a primary colour that is no colour, [harmonizeColors] leaves
    every token as it is, except the unlocked tokens of slug [primary], which
    receive that string as their colour. *)
Theorem harmonize_malformed_primary (palette : list ColorToken) (primaryColor : string)
    (n : nat) (t : ColorToken) :
  hexToRgb primaryColor = None ->
  nth_error palette n = Some t ->
  nth_error (harmonizeColors palette primaryColor) n =
  Some (if andb (negb (locked t)) (String.eqb (slug t) "primary")
        then with_color t primaryColor else t).
Proof.
  intros Hp Hn. unfold harmonizeColors. rewrite nth_error_map, Hn. cbn [option_map].
  f_equal. unfold harmonizeToken. rewrite Hp.
  destruct (locked t); [reflexivity |]. cbn [negb andb].
  destruct (String.eqb (slug t) "primary"); [reflexivity |].
  now destruct (hexToRgb (color t)) as [[[r g] b] |].
Qed.

Lemma harmonize_malformed_primary_witness :
  nth_error (harmonizeColors palette_demo "blue") 2 =
  Some {| slug := "text"; color := "#333333"; locked := false; source := None |}.
Proof.
  exact (harmonize_malformed_primary palette_demo "blue" 2
           {| slug := "text"; color := "#333333"; locked := false; source := None |}
           eq_refl eq_refl).
Defined.

(** * Further properties of the contrast enforcement *)

Lemma fixToken_fields (background : string) (t : ColorToken) :
  slug (fixToken background t) = slug t /\
  locked (fixToken background t) = locked t /\
  source (fixToken background t) = source t.
Proof.
  unfold fixToken.
  destruct (locked t) eqn:Hl;
    [| destruct (String.eqb (slug t) "text" || JS.includes (slug t) "text")%bool];
    repeat split; cbn; try reflexivity; exact Hl.
Qed.

(** The test [slug === 'text'] adds nothing to [slug.includes('text')]. *)
Lemma is_text_slug_includes (s : string) : is_text_slug s = JS.includes s "text".
Proof.
  unfold is_text_slug. destruct (String.eqb_spec s "text") as [-> | _]; reflexivity.
Qed.

Lemma fixToken_other (background : string) (t : ColorToken) :
  JS.includes (slug t) "text" = false -> fixToken background t = t.
Proof.
  intro H. unfold fixToken. destruct (locked t); [reflexivity |].
  change (String.eqb (slug t) "text" || JS.includes (slug t) "text")%bool
    with (is_text_slug (slug t)).
  now rewrite is_text_slug_includes, H.
Qed.

Lemma find_background_fixed (background : string) (palette : list ColorToken) :
  find (fun p => String.eqb (slug p) "background") (map (fixToken background) palette) =
  find (fun p => String.eqb (slug p) "background") palette.
Proof.
  induction palette as [| t rest IH]; [reflexivity |]. cbn [map find].
  rewrite (proj1 (fixToken_fields background t)).
  destruct (String.eqb_spec (slug t) "background") as [Hs | _]; [| exact IH].
  f_equal. apply fixToken_other. now rewrite Hs.
Qed.

(** X11: [validateAndFixContrasts] returns a palette of the same length whose
    tokens keep their slug, lock flag and source; a token whose slug does not
    contain [text] is returned as it is; and the reference colour (the
    [background] token's colour, else white) is the same for the result as
    for the input. *)
Theorem validate_frame (palette : list ColorToken) :
  List.length (validateAndFixContrasts palette) = List.length palette /\
  map slug (validateAndFixContrasts palette) = map slug palette /\
  map locked (validateAndFixContrasts palette) = map locked palette /\
  map source (validateAndFixContrasts palette) = map source palette /\
  (forall n t, nth_error palette n = Some t -> JS.includes (slug t) "text" = false ->
               nth_error (validateAndFixContrasts palette) n = Some t) /\
  background_of (validateAndFixContrasts palette) = background_of palette.
Proof.
  unfold validateAndFixContrasts. cbv zeta.
  split; [apply length_map |].
  rewrite !map_map.
  split; [apply map_ext; intro t; apply fixToken_fields |].
  split; [apply map_ext; intro t; apply fixToken_fields |].
  split; [apply map_ext; intro t; apply fixToken_fields |].
  split.
  - intros n t Hn Ht. rewrite nth_error_map, Hn. cbn [option_map].
    now rewrite fixToken_other.
  - unfold background_of, color_of_slug. now rewrite find_background_fixed.
Qed.

(** Against a background of luminance above 0.5 the corrector always reaches
    a target of at most 11: black does. *)
Lemma adjust_meets_on_light (color background : string) (r : R) :
  hexToRgb color <> None ->
  (getLuminance background > 0.5)%R ->
  (r <= 11)%R ->
  (getContrastRatio (adjustLightnessForContrast color background r) background >= r)%R.
Proof.
  intros Hvalid Hbg Hr. unfold adjustLightnessForContrast. cbv zeta.
  destruct (Rgeb (getContrastRatio color background) r) eqn:E0.
  { now apply Rgeb_true. }
  destruct (hexToRgb color) as [[[cr cg] cb] |]; [| contradiction].
  destruct (JS.first_some _ darker_factors) as [c |] eqn:Ed.
  { eapply first_some_meets. exact Ed. }
  destruct (JS.first_some _ lighter_factors) as [c |] eqn:El.
  { eapply first_some_meets. exact El. }
  apply Rgtb_true in Hbg. rewrite Hbg. rewrite contrast_vs_black.
  apply Rgtb_true in Hbg. apply Rle_ge. apply div_at_least; lra.
Qed.

(** X12: when the reference colour of a palette has luminance above 0.5 (as
    white does, the reference of a palette without a [background] token),
    every unlocked token whose slug contains [text] and whose colour is well
    formed leaves [validateAndFixContrasts] with a contrast ratio of at least
    4.5 against the reference colour of the result. *)
Theorem validate_light_background (palette : list ColorToken) (n : nat) (t : ColorToken) :
  (getLuminance (background_of palette) > 0.5)%R ->
  nth_error palette n = Some t ->
  locked t = false ->
  JS.includes (slug t) "text" = true ->
  hexToRgb (color t) <> None ->
  exists t',
    nth_error (validateAndFixContrasts palette) n = Some t' /\
    slug t' = slug t /\
    (getContrastRatio (color t') (background_of (validateAndFixContrasts palette)) >= 4.5)%R.
Proof.
  intros Hbg Hn Hl Ht Hc.
  assert (Hback : background_of (validateAndFixContrasts palette) = background_of palette).
  { unfold validateAndFixContrasts, background_of, color_of_slug. cbv zeta.
    now rewrite find_background_fixed. }
  exists (fixToken (background_of palette) t). split; [| split].
  - unfold validateAndFixContrasts. cbv zeta. rewrite nth_error_map, Hn. reflexivity.
  - apply fixToken_fields.
  - rewrite Hback. unfold fixToken. rewrite Hl, Ht, orb_true_r. cbn [color with_color].
    apply adjust_meets_on_light; [exact Hc | exact Hbg | lra].
Qed.

Lemma validate_light_background_witness :
  exists t',
    nth_error (validateAndFixContrasts palette_demo) 2 = Some t' /\
    slug t' = "text" /\
    (getContrastRatio (color t') (background_of (validateAndFixContrasts palette_demo)) >= 4.5)%R.
Proof.
  apply (validate_light_background palette_demo 2
           {| slug := "text"; color := "#333333"; locked := false; source := None |}).
  - change (background_of palette_demo) with "#ffffff". rewrite getLuminance_white. lra.
  - reflexivity.
  - reflexivity.
  - reflexivity.
  - discriminate.
Defined.

(** * Further properties of the deterministic generation *)

Lemma processPalette_nth (project : Project) (b : Brand) (pal : list ColorToken)
    (n : nat) (t : ColorToken) :
  brand project = Some b -> palette b = Some pal -> nth_error pal n = Some t ->
  exists t', nth_error (processPalette project) n = Some t' /\
             slug t' = slug t /\ (locked t = true -> t' = t).
Proof.
  intros Hb Hp Hn. unfold processPalette. rewrite Hb. cbn [opt]. rewrite Hp. cbn [JS.arr_or].
  cbv zeta. set (prim := JS.str_or (primary b) "#3b82f6").
  set (bg := JS.str_or (color_of_slug "background" (harmonizeColors pal prim)) "#ffffff").
  exists (fixToken bg (harmonizeToken prim t)). split; [| split].
  - unfold validateAndFixContrasts, harmonizeColors. cbv zeta. fold prim. fold bg.
    rewrite !nth_error_map, Hn. reflexivity.
  - rewrite (proj1 (fixToken_fields _ _)). apply harmonizeToken_fields.
  - intro Hl. rewrite (harmonizeToken_locked prim t Hl). now apply fixToken_locked.
Qed.

(** X13: the palette of the deterministic theme has one entry per token of
    the project's palette, in the same order, with the token's slug and the
    capitalised slug as name; the entry of a locked token carries the token's
    colour unchanged. *)
Theorem deterministic_palette (project : Project) (b : Brand) (pal : list ColorToken) :
  brand project = Some b ->
  palette b = Some pal ->
  exists items,
    theme_palette (generateWordPressTheme project) = Some (JArr items) /\
    List.length items = List.length pal /\
    (forall n t,
        nth_error pal n = Some t ->
        get (nth_error items n) "slug" = Some (JStr (slug t)) /\
        get (nth_error items n) "name" = Some (JStr (JS.capitalize (slug t))) /\
        (locked t = true -> get (nth_error items n) "color" = Some (JStr (color t)))).
Proof.
  intros Hb Hp. exists (map palette_entry (processPalette project)).
  split; [reflexivity |]. split.
  - rewrite length_map. unfold processPalette. rewrite Hb. cbn [opt]. rewrite Hp.
    cbn [JS.arr_or]. cbv zeta.
    unfold validateAndFixContrasts, harmonizeColors. cbv zeta. now rewrite !length_map.
  - intros n t Hn.
    destruct (processPalette_nth project b pal n t Hb Hp Hn) as (t' & Hn' & Hs & Hl).
    rewrite nth_error_map, Hn'. cbn [option_map palette_entry get prop_get String.eqb Ascii.eqb Bool.eqb].
    rewrite Hs. repeat split. intro L. now rewrite (Hl L).
Qed.

Lemma deterministic_palette_witness :
  exists items,
    theme_palette (generateWordPressTheme project_demo) = Some (JArr items) /\
    List.length items = 3%nat /\
    (forall n t,
        nth_error palette_demo n = Some t ->
        get (nth_error items n) "slug" = Some (JStr (slug t)) /\
        get (nth_error items n) "name" = Some (JStr (JS.capitalize (slug t))) /\
        (locked t = true -> get (nth_error items n) "color" = Some (JStr (color t)))).
Proof. exact (deterministic_palette project_demo brand_demo palette_demo eq_refl eq_refl). Defined.

(** [s.includes(t)] holds exactly when [t] occurs in [s]. *)
Lemma prefix_append (t b : string) : String.prefix t (t ++ b) = true.
Proof.
  induction t as [| c t IH]; cbn; [now destruct b |].
  destruct (ascii_dec c c) as [_ | N]; [exact IH | contradiction].
Qed.

Lemma includes_occurs (a t b : string) : JS.includes (a ++ t ++ b) t = true.
Proof.
  induction a as [| c a IH].
  - cbn [append]. destruct (t ++ b) eqn:E; cbn [JS.includes];
      rewrite <- E, prefix_append; reflexivity.
  - cbn [append JS.includes]. rewrite IH. now destruct (String.prefix t _).
Qed.

Lemma append_assoc (a b c : string) : (a ++ b) ++ c = a ++ (b ++ c).
Proof. induction a as [| x a IH]; cbn; [reflexivity | now rewrite IH]. Qed.

Lemma prefix_split (t s : string) : String.prefix t s = true -> exists v, s = t ++ v.
Proof.
  revert s. induction t as [| c t IH]; intros s H; [exists s; reflexivity |].
  destruct s as [| d s]; [discriminate |]. cbn in H.
  destruct (ascii_dec c d) as [<- | _]; [| discriminate].
  destruct (IH s H) as (v & ->). exists v. reflexivity.
Qed.

Lemma includes_split (x t : string) :
  JS.includes x t = true -> exists u v, x = u ++ t ++ v.
Proof.
  induction x as [| c x IH]; intro H.
  - cbn in H. destruct t; [exists "", ""; reflexivity | discriminate].
  - cbn [JS.includes] in H. destruct (String.prefix t (String c x)) eqn:P.
    + destruct (prefix_split _ _ P) as (v & ->). exists "", v. reflexivity.
    + destruct (IH H) as (u & v & ->). exists (String c u), v. reflexivity.
Qed.

Lemma includes_inside (a x b t : string) :
  JS.includes x t = true -> JS.includes (a ++ x ++ b) t = true.
Proof.
  intro H. destruct (includes_split x t H) as (u & v & ->).
  replace (a ++ (u ++ t ++ v) ++ b) with ((a ++ u) ++ t ++ (v ++ b))
    by (now rewrite !append_assoc).
  apply includes_occurs.
Qed.

Lemma includes_here (t b : string) : JS.includes (t ++ b) t = true.
Proof. apply (includes_occurs "" t b). Qed.

Lemma includes_self (t : string) : JS.includes t t = true.
Proof.
  replace t with (t ++ "") at 1 by (induction t; cbn; congruence).
  apply includes_here.
Qed.

Lemma includes_later (a s t : string) :
  JS.includes s t = true -> JS.includes (a ++ s) t = true.
Proof.
  intro H. destruct (includes_split s t H) as (u & v & ->).
  rewrite <- append_assoc. apply includes_occurs.
Qed.

Ltac find_occurrence :=
  repeat first [apply includes_here | apply includes_self | apply includes_later].

Lemma join_includes (xs : list string) (x t : string) :
  In x xs -> JS.includes x t = true -> JS.includes (JS.join "" xs) t = true.
Proof.
  induction xs as [| y ys IH]; intros Hin Ht; [contradiction |].
  assert (E : JS.join "" (y :: ys) = y ++ JS.join "" ys).
  { destruct ys; cbn; [| reflexivity]. clear. induction y; cbn; congruence. }
  rewrite E. destruct Hin as [-> | Hin].
  - apply (includes_inside "" x (JS.join "" ys) t Ht).
  - apply includes_later. now apply IH.
Qed.

(** X14: the benefits pattern is built from the first three benefits only:
    later entries do not influence it, and the title and the description of
    each of the first three occur in it character for character. *)
Theorem benefits_first_three (benefits : list Benefit) :
  benefits_html benefits = benefits_html (firstn 3 benefits) /\
  (forall b, In b (firstn 3 benefits) ->
             JS.includes (benefits_html benefits) (title b) = true /\
             JS.includes (benefits_html benefits) (description b) = true).
Proof.
  split.
  - unfold benefits_html. now rewrite firstn_firstn.
  - intros b Hb. unfold benefits_html.
    split; apply includes_inside; apply (join_includes _ (benefit_column_html b));
      try (apply in_map; exact Hb); unfold benefit_column_html; find_occurrence.
Qed.

(** X15: whatever the project, the composer emits the six patterns [header],
    [hero], [benefits], [about], [contact], [footer] in this order, and the
    headline, the call to action, the contact data and the project name (or
    their defaults) occur in them character for character: nothing is
    escaped. *)
Theorem patterns_verbatim (project : Project) (palette : list ColorToken) :
  map p_slug (generateBlockPatterns project palette) =
    ["header"; "hero"; "benefits"; "about"; "contact"; "footer"] /\
  (forall hero, nth_error (generateBlockPatterns project palette) 1 = Some hero ->
     JS.includes (html hero)
       (JS.str_or (opt (content project) headline) "Welcome to Our Amazing Service") = true /\
     JS.includes (html hero)
       (JS.str_or (opt (content project) cta) "Get Started Today") = true) /\
  (forall c, nth_error (generateBlockPatterns project palette) 4 = Some c ->
     JS.includes (html c)
       (JS.str_or (opt (opt (content project) contact) phone) "+1 (555) 123-4567") = true /\
     JS.includes (html c)
       (JS.str_or (opt (opt (content project) contact) address)
          "123 Business Street, City, State 12345") = true) /\
  (forall f, nth_error (generateBlockPatterns project palette) 5 = Some f ->
     JS.includes (html f) (name project) = true).
Proof.
  split; [reflexivity |]. cbn [generateBlockPatterns nth_error].
  split; [| split].
  - intros hero H. injection H as <-. cbn [html]. unfold hero_html.
    split; find_occurrence.
  - intros c H. injection H as <-. cbn [html]. unfold contact_html.
    split; find_occurrence.
  - intros f H. injection H as <-. cbn [html]. unfold footer_html. find_occurrence.
Qed.

(** * Further properties of the template sequencer *)

Lemma template_outside_prototype_witness :
  generateFrontPageTemplate ["hero"; "header"; "pricing"; "hero"] =
  JS.join newline (map spec_reference ["hero"; "header"; "pricing"; "hero"]).
Proof.
  apply (template_outside_prototype ["hero"; "header"; "pricing"; "hero"]).
  repeat constructor.
Defined.

Lemma join_append (sep : string) (xs ys : list string) :
  xs <> [] -> ys <> [] ->
  JS.join sep (xs ++ ys) = JS.join sep xs ++ sep ++ JS.join sep ys.
Proof.
  intros Hx Hy. induction xs as [| x xs IH]; [contradiction |].
  destruct xs as [| x' xs].
  - destruct ys; [contradiction | reflexivity].
  - change (JS.join sep ((x :: x' :: xs) ++ ys)) with (x ++ sep ++ JS.join sep ((x' :: xs) ++ ys)).
    rewrite IH by discriminate.
    change (JS.join sep (x :: x' :: xs)) with (x ++ sep ++ JS.join sep (x' :: xs)).
    now rewrite !append_assoc.
Qed.

(** X17: the template of the empty section list is the empty string, and the
    template of two non-empty lists one after the other is the two templates
    joined by a newline: each section contributes its own line, whatever
    stands around it. *)
Theorem template_append (xs ys : list string) :
  generateFrontPageTemplate [] = "" /\
  (xs <> [] -> ys <> [] ->
   generateFrontPageTemplate (xs ++ ys) =
   generateFrontPageTemplate xs ++ newline ++ generateFrontPageTemplate ys).
Proof.
  split; [reflexivity |]. intros Hx Hy. unfold generateFrontPageTemplate.
  rewrite map_app. apply join_append.
  - destruct xs; [contradiction | discriminate].
  - destruct ys; [contradiction | discriminate].
Qed.

Lemma template_append_witness :
  generateFrontPageTemplate (["header"; "hero"] ++ ["footer"]) =
  generateFrontPageTemplate ["header"; "hero"] ++ newline ++ generateFrontPageTemplate ["footer"].
Proof.
  apply (proj2 (template_append ["header"; "hero"] ["footer"])); discriminate.
Defined.

Lemma json_null_dec (v : json) : {v = JNull} + {v <> JNull}.
Proof. destruct v; (now left) || (right; discriminate). Qed.
(** * Further properties of the merge *)

Lemma slug_equals_throw (s : string) (p : json) : slug_equals s p = Throw -> p = JNull.
Proof.
  destruct p as [| b | n | s0 | l | props]; cbn; intro H; try discriminate H; [reflexivity |].
  destruct (prop_get "slug" props) as [[| | | s' | |] |]; discriminate H.
Qed.

Lemma findIndex_slug_throw (s : string) (items : list json) :
  findIndex_slug s items = Throw -> In JNull items.
Proof.
  induction items as [| p rest IH]; cbn; [discriminate |].
  destruct (slug_equals s p) as [[|] |] eqn:E; cbn.
  - discriminate.
  - destruct (findIndex_slug s rest) as [i |]; cbn; [discriminate |].
    intros _. right. now apply IH.
  - intros _. left. now apply slug_equals_throw in E.
Qed.

Lemma same_slugs_null (items items' : list json) :
  same_slugs items items' -> In JNull items' -> In JNull items.
Proof.
  induction 1 as [| p p' r r' [Hn _] _ IH]; [tauto |].
  intros [H | H]; [left; apply Hn; exact H | right; now apply IH].
Qed.

Lemma forEach_locked_throw (locks : list ColorToken) (items : list json) :
  forEach_locked locks items = Throw -> In JNull items.
Proof.
  revert items. induction locks as [| t rest IH]; intros items H; cbn in H; [discriminate |].
  destruct (enforce_locked items t) as [items1 |] eqn:E; cbn in H.
  - apply (same_slugs_null items items1); [eapply enforce_locked_same_slugs; eassumption |].
    now apply IH.
  - unfold enforce_locked in E.
    destruct (findIndex_slug (slug t) items) as [[i |] |] eqn:F; try discriminate E.
    now apply findIndex_slug_throw in F.
Qed.

(** X18: the merge throws only when the theme object is [null], or when some
    colour is locked and the candidate palette is truthy and either no array
    or an array with a [null] element.  In every other case it completes. *)
Theorem merge_throws_only_if (aiTheme : json) (project : Project) :
  mergeWithLockedColors aiTheme project = Throw ->
  aiTheme = JNull \/
  (lockedColorsOf project <> [] /\
   exists v, candidate_palette aiTheme = Some v /\ truthy v = true /\
             (forall items, v = JArr items -> In JNull items)).
Proof.
  intro H. destruct (json_null_dec aiTheme) as [-> | Hn]; [now left |]. right.
  unfold mergeWithLockedColors in H. cbv zeta in H.
  assert (E : (aiTheme' <-
                 match candidate_palette aiTheme with
                 | Some aiPalette =>
                     if andb (truthy aiPalette) (0 <? List.length (lockedColorsOf project))%nat then
                       match aiPalette with
                       | JArr items =>
                           items' <- forEach_locked (lockedColorsOf project) items ;;
                           Normal (with_palette aiTheme items')
                       | _ => Throw
                       end
                     else Normal aiTheme
                 | None => Normal aiTheme
                 end ;; Normal (unmerged aiTheme')) = Throw).
  { destruct aiTheme; try contradiction; exact H. }
  clear H.
  destruct (candidate_palette aiTheme) as [v |]; [| discriminate E].
  destruct (truthy v) eqn:Ht; [| discriminate E].
  destruct (0 <? List.length (lockedColorsOf project))%nat eqn:Hl; [| discriminate E].
  split; [intro Hnil; rewrite Hnil in Hl; discriminate Hl |].
  exists v. split; [reflexivity | split; [exact Ht |]]. intros items ->. cbn in E.
  destruct (forEach_locked (lockedColorsOf project) items) eqn:F; [discriminate E |].
  now apply forEach_locked_throw in F.
Qed.
Lemma merge_throws_only_if_witness :
  aiTheme_null_entry = JNull \/
  (lockedColorsOf project_demo <> [] /\
   exists v, candidate_palette aiTheme_null_entry = Some v /\ truthy v = true /\
             (forall items, v = JArr items -> In JNull items)).
Proof. exact (merge_throws_only_if aiTheme_null_entry project_demo eq_refl). Defined.

Lemma prop_set_twice (k : string) (v v' : json) (props : list (string * json)) :
  prop_set k v (prop_set k v' props) = prop_set k v props.
Proof.
  induction props as [| [k0 v0] rest IH]; cbn.
  - now rewrite String.eqb_refl.
  - destruct (String.eqb k0 k) eqn:E; cbn; rewrite E; [reflexivity | now rewrite IH].
Qed.

Lemma set_twice (p : json) (k : string) (v v' : json) : set (set p k v') k v = set p k v.
Proof. destruct p; cbn; try reflexivity. now rewrite prop_set_twice. Qed.

Lemma recolored_set (acc : option string) (c : string) (p : json) :
  set (recolored acc p) "color" (JStr c) = recolored (Some c) p.
Proof. destruct acc; cbn [recolored]; [apply set_twice | reflexivity]. Qed.

(** The pass, position by position: an element ends with the last colour
    assigned to its position. *)
Lemma forEach_locked_nth (items : list json) (locks : list ColorToken) :
  forall (a a' : list json) (j : nat) (start : option string),
    same_slugs items a ->
    nth_error a j = option_map (recolored start) (nth_error items j) ->
    forEach_locked locks a = Normal a' ->
    nth_error a' j =
    option_map (recolored (assigned_color items locks j start)) (nth_error items j).
Proof.
  induction locks as [| t rest IH]; intros a a' j start Hsame Hj H; cbn in H.
  - injection H as <-. exact Hj.
  - apply bind_Normal in H. destruct H as (a1 & H1 & H).
    unfold assigned_color. cbn [fold_left].
    apply (IH a1 a' j); [| | exact H].
    + eapply same_slugs_trans; [exact Hsame | eapply enforce_locked_same_slugs; exact H1].
    + apply enforce_locked_inv in H1.
      rewrite (findIndex_slug_ext (slug t) items a Hsame) in H1.
      destruct H1 as [[F ->] | (i & F & ->)]; rewrite F; [exact Hj |].
      destruct (Nat.eqb_spec i j) as [-> | Hne].
      * destruct (nth_error a j) as [p |] eqn:Ea.
        -- rewrite (set_color_at_same _ _ _ _ Ea).
           destruct (nth_error items j) as [q |]; [| discriminate Hj].
           cbn [option_map] in Hj |- *. injection Hj as ->. now rewrite recolored_set.
        -- destruct (nth_error items j); [discriminate Hj |].
           assert (Hlen : (List.length a <= j)%nat) by (now apply nth_error_None).
           apply nth_error_None.
           now rewrite (same_slugs_length _ _ (set_color_at_same_slugs j (color t) a)).
      * rewrite set_color_at_other by exact Hne. exact Hj.
Qed.

Lemma forEach_locked_completes (locks : list ColorToken) (a a' b : list json) :
  forEach_locked locks a = Normal a' -> same_slugs a b ->
  exists b', forEach_locked locks b = Normal b'.
Proof.
  revert a b. induction locks as [| t rest IH]; intros a b H Hsame; cbn in H |- *; [eauto |].
  apply bind_Normal in H. destruct H as (a1 & H1 & H).
  pose proof (enforce_locked_same_slugs _ _ _ H1) as Ha1.
  assert (E : exists b1, enforce_locked b t = Normal b1).
  { unfold enforce_locked in H1 |- *.
    rewrite (findIndex_slug_ext (slug t) a b Hsame).
    destruct (findIndex_slug (slug t) a) as [[i |] |]; cbn in H1 |- *; eauto; discriminate. }
  destruct E as (b1 & Eb). rewrite Eb. cbn [bind].
  apply (IH a1 b1 H).
  assert (Hsym : forall x y, same_slugs x y -> same_slugs y x).
  { clear. induction 1 as [| p p' r r' [Hn Hs] _ IHf]; constructor; [split; [tauto | auto] | exact IHf]. }
  eapply same_slugs_trans; [apply Hsym; exact Ha1 |].
  eapply same_slugs_trans; [exact Hsame | eapply enforce_locked_same_slugs; exact Eb].
Qed.

Lemma assigned_color_ext (items items' : list json) (locks : list ColorToken) (j : nat)
    (start : option string) :
  same_slugs items items' ->
  assigned_color items' locks j start = assigned_color items locks j start.
Proof.
  intro Hsame. unfold assigned_color. revert start.
  induction locks as [| t rest IH]; intro start; [reflexivity |]. cbn [fold_left].
  now rewrite (findIndex_slug_ext (slug t) items items' Hsame), IH.
Qed.

(** X19: the locked-colour pass is idempotent: run again over its own result
    it completes and changes nothing. *)
Theorem forEach_locked_idempotent (locks : list ColorToken) (items items' : list json) :
  forEach_locked locks items = Normal items' ->
  forEach_locked locks items' = Normal items'.
Proof.
  intro H. pose proof (forEach_locked_same_slugs _ _ _ H) as Hsame.
  destruct (forEach_locked_completes locks items items' items' H Hsame) as (items'' & H').
  rewrite H'. f_equal. apply nth_error_ext. intro j.
  pose proof (forEach_locked_nth items locks items items' j None (same_slugs_refl items)) as N1.
  pose proof (forEach_locked_nth items' locks items' items'' j None (same_slugs_refl items')) as N2.
  rewrite N2; [| now destruct (nth_error items' j) | exact H'].
  rewrite (assigned_color_ext items items' locks j None Hsame).
  rewrite N1; [| now destruct (nth_error items j) | exact H].
  destruct (nth_error items j) as [p |]; [| reflexivity]. cbn [option_map]. f_equal.
  destruct (assigned_color items locks j None); cbn [recolored]; [apply set_twice | reflexivity].
Qed.

Lemma forEach_locked_idempotent_witness :
  forEach_locked (lockedColorsOf project_demo)
    [ JObj [("slug", JStr "accent"); ("color", JStr "#123456")];
      JObj [("slug", JStr "primary"); ("name", JStr "Primary"); ("color", JStr "#ff0000")] ]
  = Normal
    [ JObj [("slug", JStr "accent"); ("color", JStr "#123456")];
      JObj [("slug", JStr "primary"); ("name", JStr "Primary"); ("color", JStr "#ff0000")] ].
Proof.
  exact (forEach_locked_idempotent (lockedColorsOf project_demo) candidate_demo _ eq_refl).
Defined.
Lemma merge_inv (aiTheme : json) (project : Project) (theme : GeneratedTheme) :
  mergeWithLockedColors aiTheme project = Normal theme ->
  theme = unmerged aiTheme \/
  exists items items',
    lockedColorsOf project <> [] /\
    candidate_palette aiTheme = Some (JArr items) /\
    forEach_locked (lockedColorsOf project) items = Normal items' /\
    theme = unmerged (with_palette aiTheme items').
Proof.
  intro H. unfold mergeWithLockedColors in H. cbv zeta in H.
  assert (E : (aiTheme' <-
                 match candidate_palette aiTheme with
                 | Some aiPalette =>
                     if andb (truthy aiPalette) (0 <? List.length (lockedColorsOf project))%nat then
                       match aiPalette with
                       | JArr items =>
                           items' <- forEach_locked (lockedColorsOf project) items ;;
                           Normal (with_palette aiTheme items')
                       | _ => Throw
                       end
                     else Normal aiTheme
                 | None => Normal aiTheme
                 end ;; Normal (unmerged aiTheme')) = Normal theme).
  { destruct aiTheme; try discriminate H; exact H. }
  clear H. apply bind_Normal in E. destruct E as (aiTheme' & H1 & H2).
  injection H2 as <-.
  destruct (candidate_palette aiTheme) as [v |]; [| left; now injection H1 as <-].
  destruct (truthy v); cbn [andb] in H1; [| left; now injection H1 as <-].
  destruct (0 <? List.length (lockedColorsOf project))%nat eqn:Hl;
    [| left; now injection H1 as <-].
  destruct v as [| | | | items |]; try discriminate H1.
  apply bind_Normal in H1. destruct H1 as (items' & Hf & H1). injection H1 as <-.
  right. exists items, items'. repeat split; try assumption.
  intro Hnil. rewrite Hnil in Hl. discriminate Hl.
Qed.

(** X20: a completed merge hands the override's [patterns] and
    [template_front] through (or their empty defaults), and inside
    [theme_json] it leaves every property other than [settings], every
    property of [settings] other than [color] and every property of [color]
    other than [palette] as it found it.  When the project locks no colour
    the whole theme is the override with its defaults. *)
Theorem merge_touches_only_palette (aiTheme : json) (project : Project) (theme : GeneratedTheme) :
  mergeWithLockedColors aiTheme project = Normal theme ->
  patterns theme = json_or (get (Some aiTheme) "patterns") (JArr []) /\
  templateFront theme = json_or (get (Some aiTheme) "template_front") (JStr "") /\
  (forall k, k <> "settings" ->
     get (Some (themeJson theme)) k = get (Some (themeJson (unmerged aiTheme))) k) /\
  (forall k, k <> "color" ->
     get (get (Some (themeJson theme)) "settings") k =
     get (get (Some (themeJson (unmerged aiTheme))) "settings") k) /\
  (forall k, k <> "palette" ->
     get (get (get (Some (themeJson theme)) "settings") "color") k =
     get (get (get (Some (themeJson (unmerged aiTheme))) "settings") "color") k) /\
  (lockedColorsOf project = [] -> theme = unmerged aiTheme).
Proof.
  intro H. destruct (merge_inv _ _ _ H) as [-> | (items & items' & Hne & Hc & Hf & ->)].
  { repeat split; reflexivity. }
  destruct (candidate_palette_inv _ _ Hc) as (props & tj & st & col & -> & Htj & Hst & Hcol & Hpal).
  assert (Ew : with_palette (JObj props) items' =
               set (JObj props) "theme_json"
                 (set (JObj tj) "settings"
                    (set (JObj st) "color" (set (JObj col) "palette" (JArr items'))))).
  { unfold with_palette. cbn [get]. now rewrite Htj, Hst, Hcol. }
  rewrite Ew. unfold unmerged. cbn [patterns templateFront themeJson set get].
  rewrite !prop_get_set, Htj. cbn [json_or truthy get].
  rewrite !(prop_get_set_other "theme_json") by discriminate.
  rewrite prop_get_set, Hst. cbn [get]. rewrite prop_get_set, Hcol.
  split; [reflexivity |]. split; [reflexivity |].
  split; [intros k Hk; apply prop_get_set_other; congruence |].
  split; [intros k Hk; apply prop_get_set_other; congruence |].
  split; [intros k Hk; apply prop_get_set_other; congruence |].
  intro Hnil. contradiction.
Qed.

Lemma merge_touches_only_palette_witness :
  patterns theme_demo = JArr [] /\
  get (Some (themeJson theme_demo)) "version" = Some (JNum 2).
Proof.
  destruct (merge_touches_only_palette aiTheme_demo project_demo theme_demo eq_refl)
    as (H1 & _ & H3 & _).
  split; [exact H1 | apply H3; discriminate].
Defined.

(** * The outcomes of the override path *)

(** What a completed merge returns: the fields of the theme object or their
    defaults, [theme_json] changed at most in its palette. *)
Lemma merge_fields (aiTheme : json) (project : Project) (theme : GeneratedTheme) :
  mergeWithLockedColors aiTheme project = Normal theme ->
  patterns theme = json_or (get (Some aiTheme) "patterns") (JArr []) /\
  templateFront theme = json_or (get (Some aiTheme) "template_front") (JStr "") /\
  (forall k, k <> "settings" ->
     get (Some (themeJson theme)) k = get (Some (themeJson (unmerged aiTheme))) k) /\
  (forall k, k <> "color" ->
     get (get (Some (themeJson theme)) "settings") k =
     get (get (Some (themeJson (unmerged aiTheme))) "settings") k) /\
  (forall k, k <> "palette" ->
     get (get (get (Some (themeJson theme)) "settings") "color") k =
     get (get (get (Some (themeJson (unmerged aiTheme))) "settings") "color") k) /\
  ((forall items, candidate_palette aiTheme = Some (JArr items) -> lockedColorsOf project = []) ->
   theme = unmerged aiTheme).
Proof.
  intro H. destruct (merge_inv _ _ _ H) as [-> | (items & items' & Hne & Hc & Hf & ->)].
  { repeat split; reflexivity. }
  destruct (candidate_palette_inv _ _ Hc) as (props & tj & st & col & -> & Htj & Hst & Hcol & Hpal).
  assert (Ew : with_palette (JObj props) items' =
               set (JObj props) "theme_json"
                 (set (JObj tj) "settings"
                    (set (JObj st) "color" (set (JObj col) "palette" (JArr items'))))).
  { unfold with_palette. cbn [get]. now rewrite Htj, Hst, Hcol. }
  rewrite Ew. unfold unmerged. cbn [patterns templateFront themeJson set get].
  rewrite !prop_get_set, Htj. cbn [json_or truthy get].
  rewrite !(prop_get_set_other "theme_json") by discriminate.
  rewrite prop_get_set, Hst. cbn [get]. rewrite prop_get_set, Hcol.
  split; [reflexivity |]. split; [reflexivity |].
  split; [intros k Hk; apply prop_get_set_other; congruence |].
  split; [intros k Hk; apply prop_get_set_other; congruence |].
  split; [intros k Hk; apply prop_get_set_other; congruence |].
  intro Hnil. destruct Hne. exact (Hnil items Hc).
Qed.

(** C3 (as amended): a response with no brace-delimited text, or whose text
    [JSON.parse] rejects, or whose parsed value makes the merge throw, is
    discarded and the deterministic theme returned.  Every other parsed
    value is kept, whatever it lacks of the contract: the theme returned is
    what the merge makes of it, with its [patterns] and [template_front], or
    [[]] and the empty string where they are missing or falsy, and with its
    [theme_json], or the empty object, changed at most in
    [settings.color.palette]; unless the palette is an array and a colour is
    locked, it is the parsed value with its defaults and nothing else.
    [parseAIResponse] is total: no exception reaches its caller. *)
Theorem parse_override_outcomes (JSON_parse : string -> option json) (response : string)
    (project : Project) :
  (jsonMatch response = None \/
   (exists text, jsonMatch response = Some text /\ JSON_parse text = None) \/
   (exists text parsed,
       jsonMatch response = Some text /\ JSON_parse text = Some parsed /\
       mergeWithLockedColors parsed project = Throw) ->
   parseAIResponse JSON_parse response project = generateDeterministicTheme project) /\
  (forall text parsed,
      jsonMatch response = Some text ->
      JSON_parse text = Some parsed ->
      mergeWithLockedColors parsed project <> Throw ->
      let theme := parseAIResponse JSON_parse response project in
      mergeWithLockedColors parsed project = Normal theme /\
      patterns theme = json_or (get (Some parsed) "patterns") (JArr []) /\
      templateFront theme = json_or (get (Some parsed) "template_front") (JStr "") /\
      (forall k, k <> "settings" ->
         get (Some (themeJson theme)) k = get (Some (themeJson (unmerged parsed))) k) /\
      (forall k, k <> "color" ->
         get (get (Some (themeJson theme)) "settings") k =
         get (get (Some (themeJson (unmerged parsed))) "settings") k) /\
      (forall k, k <> "palette" ->
         get (get (get (Some (themeJson theme)) "settings") "color") k =
         get (get (get (Some (themeJson (unmerged parsed))) "settings") "color") k) /\
      ((forall items, candidate_palette parsed = Some (JArr items) ->
                      lockedColorsOf project = []) ->
       theme = unmerged parsed)).
Proof.
  split.
  - intros [H | [(text & H1 & H2) | (text & parsed & H1 & H2 & H3)]].
    + now apply parse_no_match_falls_back.
    + eapply parse_syntax_error_falls_back; eassumption.
    + eapply parse_merge_throw_falls_back; eassumption.
  - intros text parsed H1 H2 Hne. cbv zeta.
    destruct (mergeWithLockedColors parsed project) as [theme |] eqn:Hm; [| now destruct Hne].
    unfold parseAIResponse. rewrite H1, H2, Hm.
    split; [reflexivity |]. now apply merge_fields.
Qed.

Lemma parse_override_outcomes_witness :
  parseAIResponse JSON_parse_braces "no theme today" project_fresh =
    generateDeterministicTheme project_fresh /\
  parseAIResponse JSON_parse_braces "{}" project_fresh = unmerged (JObj []) /\
  patterns (parseAIResponse (fun _ => Some aiTheme_partial) "{}" project_demo) = JArr [] /\
  templateFront (parseAIResponse (fun _ => Some aiTheme_partial) "{}" project_demo) = JStr "".
Proof.
  split; [| split].
  - apply (parse_override_outcomes JSON_parse_braces "no theme today" project_fresh).
    left. reflexivity.
  - apply (proj2 (parse_override_outcomes JSON_parse_braces "{}" project_fresh) "{}" (JObj []));
      [reflexivity | reflexivity | discriminate | discriminate].
  - destruct (proj2 (parse_override_outcomes (fun _ => Some aiTheme_partial) "{}" project_demo)
                "{}" aiTheme_partial eq_refl eq_refl) as (_ & Hp & Ht & _).
    + discriminate.
    + split; [exact Hp | exact Ht].
Defined.

(** * Further properties of the override path *)

Lemma from_first_open_iff (r s : string) :
  from_first_open r = Some s <->
  exists pre rest, r = pre ++ s /\ s = String "{" rest /\ lacks "{" pre = true.
Proof.
  split.
  - revert s. induction r as [| c r IH]; intros s H; cbn in H; [discriminate |].
    destruct (Ascii.eqb c "{") eqn:E.
    + injection H as <-. apply Ascii.eqb_eq in E. subst c.
      exists "", r. auto.
    + destruct (IH s H) as (pre & rest & -> & -> & Hl).
      exists (String c pre), rest. cbn. rewrite E. auto.
  - intros (pre & rest & -> & -> & Hl). induction pre as [| c pre IH]; [reflexivity |].
    cbn in Hl |- *. apply andb_true_iff in Hl. destruct Hl as [Hc Hl].
    apply negb_true_iff in Hc. rewrite Hc. now apply IH.
Qed.

Lemma upto_last_close_none (s : string) : upto_last_close s = None <-> lacks "}" s = true.
Proof.
  induction s as [| c s IH]; cbn; [tauto |].
  destruct (upto_last_close s) as [t |].
  - split; [discriminate |]. intro H. apply andb_true_iff in H.
    destruct H as [_ H]. apply IH in H. discriminate H.
  - destruct (Ascii.eqb c "}"); cbn; [split; discriminate |].
    split; [intros _; now apply IH | reflexivity].
Qed.

Lemma upto_last_close_iff (s t : string) :
  upto_last_close s = Some t <->
  exists x post, s = t ++ post /\ t = x ++ "}" /\ lacks "}" post = true.
Proof.
  split.
  - revert t. induction s as [| c s IH]; intros t H; cbn in H; [discriminate |].
    destruct (upto_last_close s) as [t' |] eqn:E.
    + injection H as <-. destruct (IH t' eq_refl) as (x & post & -> & -> & Hl).
      exists (String c x), post. auto.
    + destruct (Ascii.eqb c "}") eqn:Ec; [| discriminate].
      injection H as <-. apply Ascii.eqb_eq in Ec. subst c.
      exists "", s. repeat split. now apply upto_last_close_none.
  - intros (x & post & -> & -> & Hl). induction x as [| c x IH].
    + cbn. apply upto_last_close_none in Hl. now rewrite Hl.
    + cbn [append upto_last_close]. cbn [append] in IH. now rewrite IH.
Qed.

(** X21: [jsonMatch] finds exactly the text from the first opening brace to
    the last closing brace after it: it yields [t] if and only if the
    response is some text without [{], then [t], then some text without [}],
    where [t] starts with [{] and ends with [}]. *)
Theorem jsonMatch_iff (response t : string) :
  jsonMatch response = Some t <->
  exists pre body post,
    response = pre ++ t ++ post /\ t = "{" ++ body ++ "}" /\
    lacks "{" pre = true /\ lacks "}" post = true.
Proof.
  unfold jsonMatch. split.
  - destruct (from_first_open response) as [s |] eqn:F; [| discriminate].
    intro U. apply from_first_open_iff in F. destruct F as (pre & rest & -> & -> & Hpre).
    apply upto_last_close_iff in U. destruct U as (x & post & E & -> & Hpost).
    destruct x as [| c x].
    + cbn in E. injection E as E _. discriminate E.
    + cbn in E. injection E as <- ->.
      exists pre, x, post. repeat split; assumption.
  - intros (pre & body & post & -> & -> & Hpre & Hpost).
    assert (F : from_first_open (pre ++ ("{" ++ body ++ "}") ++ post) =
                Some (("{" ++ body ++ "}") ++ post)).
    { apply from_first_open_iff. exists pre, ((body ++ "}") ++ post). auto. }
    rewrite F. apply upto_last_close_iff. exists ("{" ++ body), post.
    repeat split; exact Hpost.
Qed.

Lemma jsonMatch_iff_witness :
  jsonMatch ("Sure, here it is: " ++ ("{" ++ "`a`:{}" ++ "}") ++ " Enjoy!") =
  Some ("{" ++ "`a`:{}" ++ "}").
Proof.
  apply (proj2 (jsonMatch_iff ("Sure, here it is: " ++ ("{" ++ "`a`:{}" ++ "}") ++ " Enjoy!")
                  ("{" ++ "`a`:{}" ++ "}"))).
  exists "Sure, here it is: ", "`a`:{}", " Enjoy!". repeat split.
Defined.
Lemma processPalette_slugs (project : Project) (b : Brand) (pal : list ColorToken) :
  brand project = Some b -> palette b = Some pal ->
  map slug (processPalette project) = map slug pal.
Proof.
  intros Hb Hp. unfold processPalette. rewrite Hb. cbn [opt]. rewrite Hp. cbn [JS.arr_or].
  cbv zeta. unfold validateAndFixContrasts, harmonizeColors. cbv zeta.
  rewrite !map_map. apply map_ext. intro t.
  rewrite (proj1 (fixToken_fields _ _)). apply harmonizeToken_fields.
Qed.

(** In the deterministic theme the palette entry found for a locked slug
    carries the locked colour. *)
Lemma deterministic_locked_entry (project : Project) (b : Brand) (pal : list ColorToken)
    (n : nat) (t : ColorToken) (items : list json) (i : nat) :
  brand project = Some b -> palette b = Some pal -> NoDup (map slug pal) ->
  nth_error pal n = Some t -> locked t = true ->
  theme_palette (generateDeterministicTheme project) = Some (JArr items) ->
  findIndex_slug (slug t) items = Normal (Some i) ->
  get (nth_error items i) "color" = Some (JStr (color t)).
Proof.
  intros Hb Hp Hnd Hn Hl Hpal Hi.
  assert (E : items = map palette_entry (processPalette project)).
  { change (Some (JArr (map palette_entry (processPalette project))) = Some (JArr items)) in Hpal.
    now injection Hpal as <-. }
  subst items.
  destruct (findIndex_slug_found _ _ _ Hi) as (props & Hpi & Hs).
  rewrite nth_error_map in Hpi.
  destruct (nth_error (processPalette project) i) as [t1 |] eqn:E1; [| discriminate Hpi].
  cbn [option_map] in Hpi. injection Hpi as <-.
  cbn in Hs. injection Hs as Hs.
  assert (Hin : i = n).
  { apply (proj1 (NoDup_nth_error (map slug pal)) Hnd).
    - rewrite <- (processPalette_slugs project b pal Hb Hp), length_map.
      apply nth_error_Some. now rewrite E1.
    - rewrite (nth_error_map slug n pal), Hn.
      rewrite <- (processPalette_slugs project b pal Hb Hp), nth_error_map, E1.
      cbn. now rewrite Hs. }
  subst i.
  destruct (processPalette_nth project b pal n t Hb Hp Hn) as (t' & Hn' & _ & Ht').
  rewrite E1 in Hn'. injection Hn' as <-.
  rewrite nth_error_map, E1. cbn. now rewrite (Ht' Hl).
Qed.

(** In a merged theme the palette entry found for a locked slug carries the
    locked colour. *)
Lemma merged_locked_entry (parsed : json) (project : Project) (theme : GeneratedTheme)
    (b : Brand) (pal : list ColorToken) (n : nat) (t : ColorToken) (items : list json) (i : nat) :
  brand project = Some b -> palette b = Some pal -> NoDup (map slug pal) ->
  nth_error pal n = Some t -> locked t = true ->
  mergeWithLockedColors parsed project = Normal theme ->
  theme_palette theme = Some (JArr items) ->
  findIndex_slug (slug t) items = Normal (Some i) ->
  get (nth_error items i) "color" = Some (JStr (color t)).
Proof.
  intros Hb Hp Hnd Hn Hl Hm Hpal Hi.
  assert (Hlocks : lockedColorsOf project = filter locked pal).
  { unfold lockedColorsOf. rewrite Hb. cbn [opt]. now rewrite Hp. }
  destruct (candidate_palette parsed) as [v |] eqn:Hc.
  - destruct v as [| | | | items0 |];
      try (rewrite (merge_palette_other parsed project theme) in Hpal;
           [rewrite Hc in Hpal; discriminate Hpal
           | intros items1 E; rewrite Hc in E; discriminate E
           | exact Hm]).
    destruct (merge_palette_array _ _ _ _ Hc Hm) as (items' & Hf & Hpal').
    rewrite Hpal' in Hpal. injection Hpal as ->.
    apply (forEach_locked_color _ _ _ _ (slug t) (color t) Hf).
    + rewrite <- (findIndex_slug_ext (slug t) items0 items
                    (forEach_locked_same_slugs _ _ _ Hf)). exact Hi.
    + intros t' Ht' Hs. rewrite Hlocks in Ht'. apply filter_In in Ht'.
      f_equal. eapply NoDup_slug_unique; try eassumption; try tauto.
      eapply nth_error_In; eassumption.
    + left. exists t. split; [| reflexivity].
      rewrite Hlocks. apply filter_In. split; [eapply nth_error_In; eassumption | exact Hl].
  - rewrite (merge_palette_other parsed project theme) in Hpal;
      [rewrite Hc in Hpal; discriminate Hpal
      | intros items1 E; rewrite Hc in E; discriminate E
      | exact Hm].
Qed.

(** X22: whatever the response and whatever [JSON.parse] makes of it, in the
    theme [parseAIResponse] returns for a project whose palette has unique
    slugs, the palette entry [findIndex] finds for the slug of a locked token
    carries that token's colour. *)
Theorem parse_keeps_locked (JSON_parse : string -> option json) (response : string)
    (project : Project) (b : Brand) (pal : list ColorToken) (n : nat) (t : ColorToken)
    (items : list json) (i : nat) :
  brand project = Some b ->
  palette b = Some pal ->
  NoDup (map slug pal) ->
  nth_error pal n = Some t ->
  locked t = true ->
  theme_palette (parseAIResponse JSON_parse response project) = Some (JArr items) ->
  findIndex_slug (slug t) items = Normal (Some i) ->
  get (nth_error items i) "color" = Some (JStr (color t)).
Proof.
  intros Hb Hp Hnd Hn Hl Hpal Hi. unfold parseAIResponse in Hpal.
  destruct (jsonMatch response) as [text |];
    [| eapply deterministic_locked_entry; eassumption].
  destruct (JSON_parse text) as [parsed |];
    [| eapply deterministic_locked_entry; eassumption].
  destruct (mergeWithLockedColors parsed project) as [theme |] eqn:Hm.
  - eapply merged_locked_entry; eassumption.
  - eapply deterministic_locked_entry; eassumption.
Qed.

Lemma parse_keeps_locked_witness :
  get (nth_error (map palette_entry (processPalette project_demo)) 0) "color" =
  Some (JStr "#ff0000").
Proof.
  exact (parse_keeps_locked JSON_parse_braces "no theme today" project_demo brand_demo
           palette_demo 0
           {| slug := "primary"; color := "#ff0000"; locked := true; source := Some user |}
           (map palette_entry (processPalette project_demo)) 0
           eq_refl eq_refl palette_demo_NoDup eq_refl eq_refl eq_refl eq_refl).
Defined.

(** * Properties of the entry point *)

(** The entry point returns the deterministic theme or what
    [parseAIResponse] makes of a non-empty text. *)
Lemma generateWithAI_cases (JSON_parse : string -> option json) (enabled : bool)
    (reply : ServiceReply) (project : Project) :
  generateWithAI JSON_parse enabled reply project = generateDeterministicTheme project \/
  exists response,
    response <> "" /\ enabled = true /\
    generateWithAI JSON_parse enabled reply project =
    parseAIResponse JSON_parse response project.
Proof.
  unfold generateWithAI. destruct enabled; cbn [negb]; [| now left].
  destruct reply as [| | | data]; try now left.
  destruct (aiContent data) as [[v |] |]; try now left.
  destruct (truthy v) eqn:Ht; [| now left].
  destruct v as [| | | s | |]; try now left.
  right. exists s. repeat split. intros ->. discriminate Ht.
Qed.

(** X23: whatever the service replies, and whether it is enabled or not, in
    the theme [generateWithAI] returns for a project whose palette has unique
    slugs, the palette entry [findIndex] finds for the slug of a locked token
    carries that token's colour. *)
Theorem generateWithAI_keeps_locked (JSON_parse : string -> option json) (enabled : bool)
    (reply : ServiceReply) (project : Project) (b : Brand) (pal : list ColorToken)
    (n : nat) (t : ColorToken) (items : list json) (i : nat) :
  brand project = Some b ->
  palette b = Some pal ->
  NoDup (map slug pal) ->
  nth_error pal n = Some t ->
  locked t = true ->
  theme_palette (generateWithAI JSON_parse enabled reply project) = Some (JArr items) ->
  findIndex_slug (slug t) items = Normal (Some i) ->
  get (nth_error items i) "color" = Some (JStr (color t)).
Proof.
  intros Hb Hp Hnd Hn Hl Hpal Hi.
  destruct (generateWithAI_cases JSON_parse enabled reply project) as [E | (s & _ & _ & E)];
    rewrite E in Hpal.
  - eapply deterministic_locked_entry; eassumption.
  - unfold parseAIResponse in Hpal.
    destruct (jsonMatch s) as [text |];
      [| eapply deterministic_locked_entry; eassumption].
    destruct (JSON_parse text) as [parsed |];
      [| eapply deterministic_locked_entry; eassumption].
    destruct (mergeWithLockedColors parsed project) as [theme |] eqn:Hm.
    + eapply merged_locked_entry; eassumption.
    + eapply deterministic_locked_entry; eassumption.
Qed.

Lemma generateWithAI_keeps_locked_witness :
  get (nth_error (map palette_entry (processPalette project_demo)) 0) "color" =
  Some (JStr "#ff0000").
Proof.
  exact (generateWithAI_keeps_locked JSON_parse_braces true (reply_with "no theme today")
           project_demo brand_demo palette_demo 0
           {| slug := "primary"; color := "#ff0000"; locked := true; source := Some user |}
           (map palette_entry (processPalette project_demo)) 0
           eq_refl eq_refl palette_demo_NoDup eq_refl eq_refl eq_refl eq_refl).
Defined.

(** X24: [generateWithAI] returns exactly the deterministic theme when the
    service is disabled, when the request fails, is answered with an error
    status or an unreadable body, when the body has no truthy
    [choices[0].message.content], and when that content is no string or a
    text without a brace-delimited part. *)
Theorem generateWithAI_falls_back (JSON_parse : string -> option json) (enabled : bool)
    (reply : ServiceReply) (project : Project) :
  enabled = false \/
  (forall data, reply <> ResponseBody data) \/
  (exists data, reply = ResponseBody data /\
     forall response, aiContent data = Normal (Some (JStr response)) ->
                      jsonMatch response = None) ->
  generateWithAI JSON_parse enabled reply project = generateDeterministicTheme project.
Proof.
  intros [-> | [H | (data & -> & H)]]; unfold generateWithAI.
  - reflexivity.
  - destruct enabled; [| reflexivity]. cbn [negb].
    destruct reply as [| | | data]; try reflexivity. now destruct (H data).
  - destruct enabled; [| reflexivity]. cbn [negb].
    destruct (aiContent data) as [[v |] |]; try reflexivity.
    destruct (truthy v); [| reflexivity].
    destruct v as [| | | s | |]; try reflexivity.
    unfold parseAIResponse. now rewrite (H s eq_refl).
Qed.

Lemma generateWithAI_falls_back_witness :
  generateWithAI JSON_parse_braces true (ResponseBody (JObj [("error", JStr "quota")])) project_demo
  = generateDeterministicTheme project_demo.
Proof.
  apply (generateWithAI_falls_back JSON_parse_braces true
           (ResponseBody (JObj [("error", JStr "quota")])) project_demo).
  right. right. eexists. split; [reflexivity |]. intros response H. discriminate H.
Defined.

(** * Properties of the preview *)

Lemma space3_high (a b c : nat) : space3 a b c = true -> (128 <= c)%nat.
Proof.
  unfold space3. intro H.
  repeat match type of H with
         | (_ || _)%bool = true => apply orb_prop in H; destruct H as [H | H]
         | (_ && _)%bool = true =>
             let H' := fresh "H" in apply andb_prop in H; destruct H as [H' H]
         end;
    first [ apply Nat.eqb_eq in H; subst c; repeat constructor
          | match goal with
            | H' : (128 <=? c)%nat = true |- _ => apply Nat.leb_le; exact H'
            end ].
Qed.

Lemma space2_high (a b : nat) : space2 a b = true -> (128 <= b)%nat.
Proof.
  unfold space2. rewrite andb_true_iff, !Nat.eqb_eq. lia.
Qed.

Lemma space1_low (a : nat) : space1 a = true -> (a <= 32)%nat.
Proof.
  unfold space1. rewrite orb_true_iff, andb_true_iff, Nat.eqb_eq, !Nat.leb_le. lia.
Qed.

Lemma blank_cons (a : ascii) (r : string) :
  blank (String a r) =
  if space1 (nat_of_ascii a) then blank r
  else
    match r with
    | EmptyString => false
    | String b r' =>
        if space2 (nat_of_ascii a) (nat_of_ascii b) then blank r'
        else
          match r' with
          | EmptyString => false
          | String c r'' =>
              if space3 (nat_of_ascii a) (nat_of_ascii b) (nat_of_ascii c)
              then blank r''
              else false
          end
    end.
Proof. reflexivity. Qed.

Lemma trimStart_cons (a : ascii) (r : string) :
  trimStart (String a r) =
  if space1 (nat_of_ascii a) then trimStart r
  else
    match r with
    | EmptyString => String a r
    | String b r' =>
        if space2 (nat_of_ascii a) (nat_of_ascii b) then trimStart r'
        else
          match r' with
          | EmptyString => String a r
          | String c r'' =>
              if space3 (nat_of_ascii a) (nat_of_ascii b) (nat_of_ascii c)
              then trimStart r''
              else String a r
          end
    end.
Proof. reflexivity. Qed.

(** A text that closes with [>] is not blank. *)
Lemma blank_closed (u : string) : blank (u ++ ">") = false.
Proof.
  assert (H : forall n u, (String.length u <= n)%nat -> blank (u ++ ">") = false).
  { induction n as [| n IH]; intros [| a v] Hn; try reflexivity; cbn [String.length] in Hn;
      [lia |].
    cbn [append]. rewrite blank_cons.
    destruct (space1 (nat_of_ascii a)); [apply IH; lia |].
    destruct v as [| b v]; cbn [append].
    { destruct (space2 (nat_of_ascii a) (nat_of_ascii ">")) eqn:E; [| reflexivity].
      apply space2_high in E. change (128 <= 62)%nat in E. lia. }
    destruct (space2 (nat_of_ascii a) (nat_of_ascii b)).
    { apply IH. cbn [String.length] in Hn. lia. }
    destruct v as [| c v]; cbn [append].
    { destruct (space3 (nat_of_ascii a) (nat_of_ascii b) (nat_of_ascii ">")) eqn:E;
        [| reflexivity].
      apply space3_high in E. change (128 <= 62)%nat in E. lia. }
    destruct (space3 (nat_of_ascii a) (nat_of_ascii b) (nat_of_ascii c)); [| reflexivity].
    apply IH. cbn [String.length] in Hn. lia. }
  apply (H (String.length u)). lia.
Qed.

Lemma trimEnd_closed (u : string) : trimEnd (u ++ ">") = u ++ ">".
Proof.
  induction u as [| c u IH]; [reflexivity |].
  change (trimEnd (String c u ++ ">")) with
    (if blank (String c u ++ ">") then "" else String c (trimEnd (u ++ ">"))).
  now rewrite blank_closed, IH.
Qed.

(** A text that opens with [<] has nothing to trim at its start. *)
Lemma trimStart_open (r : string) : trimStart (String "<" r) = String "<" r.
Proof. destruct r as [| b [| c r]]; reflexivity. Qed.

Lemma blank_open (r : string) : blank (String "<" r) = false.
Proof. destruct r as [| b [| c r]]; reflexivity. Qed.

(** [trim] leaves nothing exactly of the blank texts. *)
Lemma trimEnd_empty (s : string) : String.eqb (trimEnd s) "" = blank s.
Proof.
  destruct s as [| c s]; [reflexivity |].
  change (trimEnd (String c s)) with
    (if blank (String c s) then "" else String c (trimEnd s)).
  now destruct (blank (String c s)).
Qed.

Lemma blank_trimStart (s : string) : blank (trimStart s) = blank s.
Proof.
  assert (H : forall n s, (String.length s <= n)%nat -> blank (trimStart s) = blank s).
  { induction n as [| n IH]; intros [| a v] Hn; try reflexivity; cbn [String.length] in Hn;
      [lia |].
    rewrite trimStart_cons, (blank_cons a v).
    destruct (space1 (nat_of_ascii a)) eqn:E1; [apply IH; lia |].
    destruct v as [| b v].
    { rewrite blank_cons, E1. reflexivity. }
    destruct (space2 (nat_of_ascii a) (nat_of_ascii b)) eqn:E2.
    { apply IH. cbn [String.length] in Hn. lia. }
    destruct v as [| c v].
    { rewrite blank_cons, E1, E2. reflexivity. }
    destruct (space3 (nat_of_ascii a) (nat_of_ascii b) (nat_of_ascii c)) eqn:E3.
    { apply IH. cbn [String.length] in Hn. lia. }
    rewrite blank_cons, E1, E2, E3. reflexivity. }
  apply (H (String.length s)). lia.
Qed.

Lemma trim_empty (s : string) : String.eqb (trim s) "" = blank s.
Proof. unfold trim. now rewrite trimEnd_empty, blank_trimStart. Qed.

Lemma append_nil_r (s : string) : s ++ "" = s.
Proof. induction s as [| c s IH]; cbn; congruence. Qed.

Lemma closed_app (u v : string) : (exists w, v = w ++ ">") -> exists w, u ++ v = w ++ ">".
Proof. intros (w & ->). exists (u ++ w). symmetry. apply append_assoc. Qed.

(** A text between a line break with [<] and a closing [>] loses the line
    break and nothing else. *)
Lemma trim_framed (s : string) :
  String.prefix (newline ++ "<") s = true -> (exists w, s = w ++ ">") -> trim s = drop 1 s.
Proof.
  intros Hp (w & Hw). apply prefix_split in Hp. destruct Hp as (v & Hv).
  change ((newline ++ "<") ++ v) with (String (ascii_of_nat 10) (String "<" v)) in Hv.
  rewrite Hv in Hw. destruct w as [| c w]; [discriminate Hw |].
  cbn [append] in Hw. injection Hw as _ Hw.
  rewrite Hv. unfold trim. rewrite trimStart_cons.
  change (space1 (nat_of_ascii (ascii_of_nat 10))) with true. cbv iota.
  rewrite trimStart_open. cbn [drop]. rewrite Hw. apply trimEnd_closed.
Qed.

(** The document: the template without the line break it opens with. *)
Lemma trim_preview_template (locale : option string) (name combinedHTML : string) :
  trim (preview_template locale name combinedHTML) =
  drop 1 (preview_template locale name combinedHTML).
Proof.
  apply trim_framed; unfold preview_template.
  - reflexivity.
  - do 6 apply closed_app. eexists (tpl _). 
    match goal with |- ?t = _ => let v := eval vm_compute in t in change t with v end.
    instantiate (1 := "
</body>
</html"). reflexivity.
Qed.

Lemma drop_app (u v : string) : drop (String.length u) (u ++ v) = v.
Proof. induction u as [| c u IH]; [now destruct v | exact IH]. Qed.

Lemma class_run_stop (n rest : string) :
  lacks dquote n = true -> class_run (n ++ String dquote rest) = n.
Proof.
  induction n as [| c n IH]; intro H; [reflexivity |].
  cbn [lacks] in H. apply andb_true_iff in H. destruct H as [Hc Hn].
  apply negb_true_iff in Hc. cbn [append class_run]. rewrite Hc. now rewrite IH.
Qed.

Lemma match_here_found (n rest : string) :
  n <> "" -> lacks dquote n = true ->
  match_here (slug_open ++ n ++ String dquote rest) =
  Some (slug_open ++ n ++ String dquote "").
Proof.
  intros Hne Hl. unfold match_here. rewrite prefix_append.
  change (drop 7 (slug_open ++ n ++ String dquote rest)) with (n ++ String dquote rest).
  rewrite (class_run_stop n rest Hl).
  change (drop (7 + String.length n) (slug_open ++ n ++ String dquote rest))
    with (drop (String.length n) (n ++ String dquote rest)).
  rewrite drop_app.
  assert (E : String.eqb n "" = false) by (apply String.eqb_neq; exact Hne).
  rewrite E. cbn [negb andb String.prefix].
  destruct (ascii_dec dquote dquote) as [_ | C]; [now destruct rest | now destruct C].
Qed.

Lemma match_all_skip (u v : string) : match_all (String.length u) (u ++ v) = match_all 0 v.
Proof. induction u as [| c u IH]; [reflexivity | exact IH]. Qed.

Lemma match_all_pass (u v : string) :
  lacks "s" u = true -> match_all 0 (u ++ v) = match_all 0 v.
Proof.
  induction u as [| c u IH]; intro H; [reflexivity |].
  cbn [lacks] in H. apply andb_true_iff in H. destruct H as [Hc Hu].
  apply negb_true_iff, Ascii.eqb_neq in Hc.
  cbn [append match_all].
  assert (E : match_here (String c (u ++ v)) = None).
  { unfold match_here. change slug_open with (String "s" (tpl "lug`:`")).
    cbn [String.prefix]. destruct (ascii_dec "s" c) as [<- |]; [now destruct Hc | reflexivity]. }
  rewrite E. now apply IH.
Qed.

Lemma match_all_found (n rest : string) :
  n <> "" -> lacks dquote n = true ->
  match_all 0 (slug_open ++ n ++ String dquote rest) =
  (slug_open ++ n ++ String dquote "") :: match_all 0 rest.
Proof.
  intros Hne Hl.
  change (slug_open ++ n ++ String dquote rest)
    with (String "s" (tpl "lug`:`" ++ n ++ String dquote rest)) at 1.
  cbn [match_all].
  change (String "s" (tpl "lug`:`" ++ n ++ String dquote rest))
    with (slug_open ++ n ++ String dquote rest).
  rewrite (match_here_found n rest Hne Hl). f_equal.
  change (slug_open ++ n ++ String dquote "")
    with (String "s" (tpl "lug`:`" ++ n ++ String dquote "")).
  cbn [String.length Nat.sub]. rewrite Nat.sub_0_r.
  replace (tpl "lug`:`" ++ n ++ String dquote rest)
    with ((tpl "lug`:`" ++ n ++ String dquote "") ++ rest).
  - apply match_all_skip.
  - rewrite !append_assoc. reflexivity.
Qed.

(** The scan of one reference of the template, whatever follows it. *)
Lemma match_all_reference (s rest : string) :
  plain_section s = true ->
  match_all 0 (spec_reference s ++ rest) =
  (slug_open ++ s ++ String dquote "") :: match_all 0 rest.
Proof.
  intro H. unfold plain_section in H.
  apply andb_true_iff in H. destruct H as [H _].
  apply andb_true_iff in H. destruct H as [Hne Hl].
  apply negb_true_iff, String.eqb_neq in Hne.
  unfold spec_reference.
  destruct (String.eqb s "header") eqn:Eh; [apply String.eqb_eq in Eh; subst s |
    destruct (String.eqb s "footer") eqn:Ef; [apply String.eqb_eq in Ef; subst s |]];
    cbn [orb].
  - change ((tpl "<!-- wp:template-part {`slug`:`" ++ "header" ++ tpl "`,`area`:`" ++ "header"
             ++ tpl "`} /-->") ++ rest)
      with (tpl "<!-- wp:template-part {`"
            ++ (slug_open ++ "header" ++ String dquote (tpl ",`area`:`header`} /-->" ++ rest))).
    rewrite match_all_pass by reflexivity.
    rewrite match_all_found by (try discriminate; reflexivity).
    reflexivity.
  - change ((tpl "<!-- wp:template-part {`slug`:`" ++ "footer" ++ tpl "`,`area`:`" ++ "footer"
             ++ tpl "`} /-->") ++ rest)
      with (tpl "<!-- wp:template-part {`"
            ++ (slug_open ++ "footer" ++ String dquote (tpl ",`area`:`footer`} /-->" ++ rest))).
    rewrite match_all_pass by reflexivity.
    rewrite match_all_found by (try discriminate; reflexivity).
    reflexivity.
  - unfold pattern_reference.
    replace ((tpl "<!-- wp:pattern {`slug`:`" ++ s ++ tpl "`} /-->") ++ rest)
      with (tpl "<!-- wp:pattern {`" ++ (slug_open ++ s ++ String dquote ("} /-->" ++ rest))).
    + rewrite match_all_pass by reflexivity.
      rewrite (match_all_found s _ Hne Hl).
      reflexivity.
    + change (tpl "<!-- wp:pattern {`slug`:`") with (tpl "<!-- wp:pattern {`" ++ slug_open).
      change (tpl "`} /-->") with (String dquote "} /-->").
      rewrite !append_assoc. reflexivity.
Qed.

Lemma references_spec (sections : list string) :
  forallb plain_section sections = true ->
  map section_reference sections = map spec_reference sections.
Proof.
  induction sections as [| s l IH]; intro H; [reflexivity |].
  cbn [forallb] in H. apply andb_true_iff in H. destruct H as [Hs Hl].
  cbn [map]. rewrite (IH Hl). f_equal. apply section_reference_spec.
  unfold plain_section in Hs. apply andb_true_iff in Hs. destruct Hs as [_ Hs].
  now destruct (lookup s Object_prototype).
Qed.

Lemma match_all_template (sections : list string) :
  forallb plain_section sections = true ->
  match_all 0 (JS.join newline (map spec_reference sections)) =
  map (fun s => slug_open ++ s ++ String dquote "") sections.
Proof.
  induction sections as [| s l IH]; intro H; [reflexivity |].
  cbn [forallb] in H. apply andb_true_iff in H. destruct H as [Hs Hl].
  destruct l as [| s' l].
  - cbn [map JS.join]. rewrite <- (append_nil_r (spec_reference s)).
    now rewrite (match_all_reference s "" Hs).
  - change (JS.join newline (map spec_reference (s :: s' :: l)))
      with (spec_reference s ++ newline ++ JS.join newline (map spec_reference (s' :: l))).
    rewrite (match_all_reference s _ Hs). cbn [map]. f_equal.
    rewrite match_all_pass by reflexivity. exact (IH Hl).
Qed.

Lemma remove_first_step (pat s : string) :
  remove_first pat s =
  if String.prefix pat s then drop (String.length pat) s
  else match s with
       | EmptyString => ""
       | String c s' => String c (remove_first pat s')
       end.
Proof. destruct s; reflexivity. Qed.

Lemma remove_closing_quote (n : string) :
  lacks dquote n = true -> remove_first (String dquote "") (n ++ String dquote "") = n.
Proof.
  induction n as [| c n IH]; intro H.
  - cbn. now destruct (ascii_dec dquote dquote).
  - cbn [lacks] in H. apply andb_true_iff in H. destruct H as [Hc Hn].
    apply negb_true_iff, Ascii.eqb_neq in Hc.
    cbn [append]. rewrite remove_first_step. cbn [String.prefix].
    destruct (ascii_dec dquote c) as [<- |]; [now destruct Hc |].
    now rewrite (IH Hn).
Qed.

Lemma section_slugs_plain (sections : list string) :
  forallb plain_section sections = true ->
  section_slugs (generateFrontPageTemplate sections) = sections.
Proof.
  intro H. unfold section_slugs, generateFrontPageTemplate.
  rewrite (references_spec sections H), (match_all_template sections H), map_map.
  induction sections as [| s l IH]; [reflexivity |].
  cbn [forallb] in H. apply andb_true_iff in H. destruct H as [Hs Hl].
  cbn [map]. rewrite (IH Hl). f_equal.
  unfold plain_section in Hs.
  apply andb_true_iff in Hs. destruct Hs as [Hs _].
  apply andb_true_iff in Hs. destruct Hs as [_ Hq].
  rewrite (remove_first_step slug_open), prefix_append.
  change (drop (String.length slug_open) (slug_open ++ s ++ String dquote ""))
    with (s ++ String dquote "").
  now apply remove_closing_quote.
Qed.

(** X25: the section names the preview reads back from a front-page
    template are the names the template was made from, in order and with
    duplicates, when every name is non-empty, has no double quote and is no
    property of [Object.prototype]. *)
Theorem template_round_trip (sections : list string) :
  forallb plain_section sections = true ->
  section_slugs (generateFrontPageTemplate sections) = sections.
Proof. exact (section_slugs_plain sections). Qed.

Lemma template_round_trip_witness :
  section_slugs (generateFrontPageTemplate ["header"; "pricing"; "hero"; "hero"; "footer"]) =
  ["header"; "pricing"; "hero"; "hero"; "footer"].
Proof.
  apply (template_round_trip ["header"; "pricing"; "hero"; "hero"; "footer"]). reflexivity.
Defined.

Lemma find_slug_patterns (s : string) (ps : list BlockPattern) :
  find_slug s (map pattern_json ps) =
  Normal (option_map pattern_json (find (fun p => String.eqb (p_slug p) s) ps)).
Proof.
  induction ps as [| p ps IH]; [reflexivity |].
  cbn [map find_slug find].
  change (slug_equals s (pattern_json p)) with (Normal (String.eqb (p_slug p) s)).
  cbn [bind]. now destruct (String.eqb (p_slug p) s).
Qed.

Lemma join_empty_cons (x : string) (l : list string) : JS.join "" (x :: l) = x ++ JS.join "" l.
Proof. destruct l; [symmetry; apply append_nil_r | reflexivity]. Qed.

Lemma combine_patterns (N : Q -> string) (ps : list BlockPattern) (sections : list string)
    (acc : string) :
  combine_sections N (JArr (map pattern_json ps)) sections acc =
  Normal (acc ++ JS.join "" (map (section_html ps) sections)).
Proof.
  revert acc. induction sections as [| s l IH]; intro acc.
  - cbn. now rewrite append_nil_r.
  - cbn [combine_sections as_array bind map]. rewrite find_slug_patterns. cbn [bind].
    rewrite join_empty_cons. unfold section_html at 1.
    destruct (find (fun p => String.eqb (p_slug p) s) ps) as [p |]; cbn [option_map].
    + change (is_truthy (Some (pattern_json p))) with true. cbv iota.
      change (get (Some (pattern_json p)) "html") with (Some (JStr (html p))).
      cbn [interpolate ToString bind]. rewrite IH. now rewrite !append_assoc.
    + cbn [is_truthy]. rewrite IH. reflexivity.
Qed.

Lemma all_patterns_text (N : Q -> string) (ps : list BlockPattern) :
  (htmls <- map_html (map pattern_json ps) ;;
   texts <- join_texts N htmls ;;
   Normal (JS.join newline texts)) = Normal (JS.join newline (map html ps)).
Proof.
  assert (E1 : map_html (map pattern_json ps) = Normal (map (fun p => Some (JStr (html p))) ps)).
  { induction ps as [| p ps IH]; [reflexivity |].
    cbn [map map_html]. rewrite IH. reflexivity. }
  assert (E2 : join_texts N (map (fun p => Some (JStr (html p))) ps) = Normal (map html ps)).
  { clear E1. induction ps as [| p ps IH]; [reflexivity |].
    cbn [map join_texts]. rewrite IH. reflexivity. }
  rewrite E1. cbn [bind]. rewrite E2. reflexivity.
Qed.

Lemma tpl_open (x y : string) : tpl (String "<" x) ++ y = String "<" (tpl x ++ y).
Proof. reflexivity. Qed.

Lemma tpl_open_only (x : string) : tpl (String "<" x) = String "<" (tpl x).
Proof. reflexivity. Qed.

(** Every pattern of the composer opens with [<]. *)
Lemma patterns_open (project : Project) (pal : list ColorToken) (p : BlockPattern) :
  In p (generateBlockPatterns project pal) -> exists r, html p = String "<" r.
Proof.
  unfold generateBlockPatterns. cbv zeta. cbn [In].
  intros [<- | [<- | [<- | [<- | [<- | [<- | []]]]]]]; cbn [html].
  - eexists. apply tpl_open_only.
  - eexists. unfold hero_html. apply tpl_open.
  - eexists. unfold benefits_html. apply tpl_open.
  - eexists. apply tpl_open_only.
  - eexists. unfold contact_html. apply tpl_open.
  - eexists. unfold footer_html. apply tpl_open.
Qed.

Lemma blank_line_open (r : string) : blank (newline ++ String "<" r) = false.
Proof.
  change (newline ++ String "<" r) with (String (ascii_of_nat 10) (String "<" r)).
  rewrite blank_cons. change (space1 (nat_of_ascii (ascii_of_nat 10))) with true.
  cbv iota. apply blank_open.
Qed.

(** The sections' text is empty or opens with a line break and [<]. *)
Lemma sections_text_shape (project : Project) (pal : list ColorToken) (sections : list string) :
  let body := JS.join "" (map (section_html (generateBlockPatterns project pal)) sections) in
  body = "" \/ exists r, body = newline ++ String "<" r.
Proof.
  cbv zeta. induction sections as [| s l IH]; [now left |].
  cbn [map]. rewrite join_empty_cons.
  change (section_html (generateBlockPatterns project pal) s)
    with (match find (fun p => String.eqb (p_slug p) s) (generateBlockPatterns project pal) with
          | Some p => newline ++ html p ++ newline
          | None => ""
          end).
  destruct (find (fun p => String.eqb (p_slug p) s) (generateBlockPatterns project pal))
    as [p |] eqn:E.
  - right. apply find_some in E. destruct E as [E _].
    destruct (patterns_open project pal p E) as (r & ->).
    eexists. rewrite !append_assoc. reflexivity.
  - exact IH.
Qed.

Lemma sections_text_blank (project : Project) (pal : list ColorToken) (sections : list string) :
  let body := JS.join "" (map (section_html (generateBlockPatterns project pal)) sections) in
  blank body = String.eqb body "".
Proof.
  cbv zeta. destruct (sections_text_shape project pal sections) as [-> | (r & ->)];
    [reflexivity |].
  now rewrite blank_line_open.
Qed.

Lemma all_patterns_solid (project : Project) (pal : list ColorToken) :
  blank (JS.join newline (map html (generateBlockPatterns project pal))) = false.
Proof.
  unfold generateBlockPatterns. cbv zeta. cbn [map html JS.join].
  unfold header_html. rewrite tpl_open. apply blank_open.
Qed.

Lemma preview_deterministic_eq (N : Q -> string) (project : Project) (locale : option string)
    (nm : string) :
  let ps := generateBlockPatterns project (processPalette project) in
  let body :=
    JS.join "" (map (section_html ps)
                  (section_slugs (generateFrontPageTemplate (chosenSections project)))) in
  generatePreviewHTML N (generateDeterministicTheme project) locale nm =
  Normal (drop 1 (preview_template locale nm
                    (if String.eqb body "" then JS.join newline (map html ps) else body))).
Proof.
  cbv zeta. unfold generatePreviewHTML, generateDeterministicTheme, generateWordPressTheme.
  cbv zeta. cbn [templateFront patterns].
  rewrite combine_patterns. cbn [bind append].
  rewrite trim_empty, sections_text_blank.
  destruct (String.eqb _ "").
  - cbn [as_array bind]. rewrite all_patterns_text. cbn [bind].
    now rewrite trim_preview_template.
  - cbn [bind]. now rewrite trim_preview_template.
Qed.

(** X26: the preview of a deterministically generated theme, for a layout
    of plain section names, is the document whose body holds, in the order
    of the layout, the pattern of every section that has one, each between
    two line breaks; when no section of the layout has a pattern (as for the
    empty layout), the body holds all six patterns, joined by line
    breaks. *)
Theorem preview_follows_layout (N : Q -> string) (project : Project) (locale : option string)
    (nm : string) :
  forallb plain_section (chosenSections project) = true ->
  let ps := generateBlockPatterns project (processPalette project) in
  let body := JS.join "" (map (section_html ps) (chosenSections project)) in
  generatePreviewHTML N (generateDeterministicTheme project) locale nm =
  Normal (drop 1 (preview_template locale nm
                    (if String.eqb body "" then JS.join newline (map html ps) else body))).
Proof.
  intro H. cbv zeta. rewrite preview_deterministic_eq. cbv zeta.
  now rewrite (section_slugs_plain _ H).
Qed.

(** X27: the preview of a deterministically generated theme never throws,
    and its body is never blank, whatever the project and its layout. *)
Theorem preview_of_deterministic_total (N : Q -> string) (project : Project)
    (locale : option string) (nm : string) :
  exists body,
    blank body = false /\
    generatePreviewHTML N (generateDeterministicTheme project) locale nm =
    Normal (drop 1 (preview_template locale nm body)).
Proof.
  eexists. split; [| apply preview_deterministic_eq]. cbv zeta.
  destruct (String.eqb _ "") eqn:E.
  - apply all_patterns_solid.
  - now rewrite sections_text_blank.
Qed.

Lemma preview_follows_layout_witness :
  exists document,
    generatePreviewHTML (fun _ => "0") (generateDeterministicTheme project_demo) None "Acme" =
    Normal document.
Proof.
  eexists.
  apply (preview_follows_layout (fun _ => "0") project_demo None "Acme"). reflexivity.
Defined.

Lemma merge_template_front (aiTheme : json) (project : Project) (theme : GeneratedTheme) :
  mergeWithLockedColors aiTheme project = Normal theme ->
  templateFront theme = json_or (get (Some aiTheme) "template_front") (JStr "").
Proof.
  intro H. destruct (merge_inv _ _ _ H) as [-> | (items & items' & Hne & Hc & Hf & ->)];
    [reflexivity |].
  destruct (candidate_palette_inv _ _ Hc) as (props & tj & st & col & -> & Htj & Hst & Hcol & Hpal).
  unfold with_palette. cbn [get]. rewrite Htj. cbn [get]. rewrite Hst. cbn [get]. rewrite Hcol.
  unfold unmerged. cbn [templateFront set get].
  now rewrite (prop_get_set_other "theme_json") by discriminate.
Qed.

(** X28: when the override's [template_front] is truthy but no string (a
    number, [true], an array, an object), the merge hands it through and the
    preview of the resulting theme throws. *)
Theorem preview_rejects_template (JSON_parse : string -> option json) (N : Q -> string)
    (response text : string) (parsed v : json) (project : Project) (theme : GeneratedTheme)
    (locale : option string) (nm : string) :
  jsonMatch response = Some text ->
  JSON_parse text = Some parsed ->
  mergeWithLockedColors parsed project = Normal theme ->
  get (Some parsed) "template_front" = Some v ->
  truthy v = true ->
  (forall s, v <> JStr s) ->
  generatePreviewHTML N (parseAIResponse JSON_parse response project) locale nm = Throw.
Proof.
  intros Hm Hp Hmerge Hv Ht Hs. unfold parseAIResponse. rewrite Hm, Hp, Hmerge.
  unfold generatePreviewHTML. rewrite (merge_template_front _ _ _ Hmerge), Hv.
  cbn [json_or]. rewrite Ht.
  destruct v as [| | | s | |]; try reflexivity. now destruct (Hs s).
Qed.

Lemma preview_rejects_template_witness :
  generatePreviewHTML (fun _ => "0")
    (parseAIResponse (fun _ => Some (JObj [("template_front", JNum 1)])) "{}" project_demo)
    None "Acme" = Throw.
Proof.
  apply (preview_rejects_template (fun _ => Some (JObj [("template_front", JNum 1)]))
           (fun _ => "0") "{}" "{}" (JObj [("template_front", JNum 1)]) (JNum 1) project_demo
           (unmerged (JObj [("template_front", JNum 1)])) None "Acme");
    try reflexivity.
  intros s H. discriminate H.
Defined.

Lemma css_variables_palette (N : Q -> string) (pal : list ColorToken) (css : string) :
  css_variables N "color" "color" (map palette_entry pal) css =
  Normal (css ++ JS.join "" (map color_variable pal)).
Proof.
  revert css. induction pal as [| t pal IH]; intro css.
  - cbn. now rewrite append_nil_r.
  - cbn [map]. rewrite join_empty_cons.
    change (css_variables N "color" "color" (palette_entry t :: map palette_entry pal) css)
      with (css_variables N "color" "color" (map palette_entry pal)
              (css ++ css_variable "color" (slug t) (color t))).
    rewrite IH. now rewrite append_assoc.
Qed.

Lemma preview_css_deterministic (N : Q -> string) (project : Project) :
  generatePreviewCSS N (themeJson (generateDeterministicTheme project)) =
  Normal (deterministic_css project).
Proof.
  unfold generateDeterministicTheme, generateWordPressTheme. cbv zeta. cbn [themeJson].
  unfold generatePreviewCSS, buildThemeJson. cbv zeta.
  cbn [get prop_get String.eqb Ascii.eqb Bool.eqb is_truthy truthy negb css_presets].
  rewrite css_variables_palette. cbn [bind].
  unfold font_size.
  cbn [css_variables interpolate ToString get prop_get String.eqb Ascii.eqb Bool.eqb bind].
  unfold deterministic_css. now rewrite !append_assoc.
Qed.

(** X29: the style sheet of the preview of a deterministically generated
    theme is never refused: it declares one variable for every token of the
    processed palette, in the palette's order, then the heading and body font
    families and the five font sizes, and closes with the base styles. *)
Theorem preview_css_of_deterministic (N : Q -> string) (project : Project) :
  generatePreviewCSS N (themeJson (generateDeterministicTheme project)) =
  Normal (deterministic_css project).
Proof. exact (preview_css_deterministic N project). Qed.

(** X30: the style sheet of the preview of a deterministically generated
    theme declares the variable of every locked token of the project's
    palette with the token's colour, character for character. *)
Theorem preview_css_keeps_locked (N : Q -> string) (project : Project) (b : Brand)
    (pal : list ColorToken) (n : nat) (t : ColorToken) :
  brand project = Some b ->
  palette b = Some pal ->
  nth_error pal n = Some t ->
  locked t = true ->
  exists css,
    generatePreviewCSS N (themeJson (generateDeterministicTheme project)) = Normal css /\
    JS.includes css (css_variable "color" (slug t) (color t)) = true.
Proof.
  intros Hb Hp Hn Hl. exists (deterministic_css project).
  split; [apply preview_css_deterministic |].
  destruct (processPalette_nth project b pal n t Hb Hp Hn) as (t' & Hn' & _ & Ht').
  rewrite (Ht' Hl) in Hn'. apply nth_error_In in Hn'.
  unfold deterministic_css. do 2 apply includes_later.
  apply (includes_inside "").
  apply (join_includes _ (color_variable t)); [now apply in_map | apply includes_self].
Qed.

Lemma preview_css_keeps_locked_witness :
  exists css,
    generatePreviewCSS (fun _ => "0") (themeJson (generateDeterministicTheme project_demo)) =
    Normal css /\
    JS.includes css (css_variable "color" "primary" "#ff0000") = true.
Proof.
  exact (preview_css_keeps_locked (fun _ => "0") project_demo brand_demo palette_demo 0
           {| slug := "primary"; color := "#ff0000"; locked := true; source := Some user |}
           eq_refl eq_refl eq_refl eq_refl).
Defined.
